(** * polyarb: the single-market and cross-market arbitrage detectors

    A shallow embedding of [src/arbDetector.ts] (class [ArbitrageDetector])
    and of the cross-market detector (class [CrossMarketDetector], the second
    unit of [src/binanceApi.ts]), with the helpers of [src/clobApi.ts] and the
    update record of [src/websocket.ts] they use; and of what feeds them:
    the messages and the connection of [src/websocket.ts] (class
    [PolymarketWebSocket]), the listeners and subscriptions of
    [src/scanner.ts], the batched requests of [src/clobApi.ts], the candle
    arithmetic of [src/binanceApi.ts] and the parsers of descriptive slugs.

    Numbers.  A JavaScript [number] is an IEEE 754 binary64 value; it is
    modelled by Rocq's primitive [float], whose [+], [-], [/], [*], [<?],
    [<=?] and [=?] are what JavaScript's [+], [-], [/], [*], [<], [<=] and
    [===] compute on numbers (NaN compares false with everything,
    [+0 === -0]).  A decimal literal denotes the nearest binary64 value, as
    in JavaScript.  [null] and [undefined] are [None].

    Time.  Resolution timestamps are integer seconds ([Z]): the code obtains
    them as [Math.floor(date.getTime() / 1000)].  A [Date] is its number of
    milliseconds ([Z]); the clock ([new Date()], [Date.now()]) is an explicit
    argument [now].

    Logging ([debug], [info]) and the set [_loggedPairs], which only decides
    whether a message is logged, are left out: no result depends on them. *)

From Stdlib Require Import ZArith Lia Bool List String Sorted.
From Stdlib Require Import Floats Uint63.
From stdpp Require Import base option strings gmap.

Import ListNotations.
#[local] Set Warnings "-inexact-float".
#[local] Open Scope Z_scope.

(* ===================================================================== *)
(** * Part I: the model                                                    *)
(* ===================================================================== *)

(** ** JavaScript numbers *)

Module JsNum.

#[local] Open Scope float_scope.

(** The type [number]. *)
Abbreviation number := float (only parsing).

(** [isNaN(x)] *)
Definition isNaN (x : number) : bool := PrimFloat.is_nan x.

(** ToBoolean on a number: [0], [-0] and [NaN] are falsy. *)
Definition truthy (x : number) : bool := negb ((x =? 0) || isNaN x).

(** [x > y] and [x >= y] as JavaScript evaluates them. *)
Definition gtb (x y : number) : bool := y <? x.
Definition geb (x y : number) : bool := y <=? x.

(** [Math.min(a, b)]: NaN when either argument is NaN, and [-0] is smaller
    than [+0]. *)
Definition Math_min (a b : number) : number :=
  if isNaN a || isNaN b then nan
  else if a <? b then a
  else if b <? a then b
  else if PrimFloat.get_sign a then a else b.

(** The number an integer denotes (exact below [2^53]). *)
Definition of_Z (z : Z) : number :=
  match z with
  | Z0 => 0
  | Zpos _ => of_uint63 (Uint63.of_Z z)
  | Zneg p => - of_uint63 (Uint63.of_Z (Zpos p))
  end.

(** [a ?? b] on values that may be [null] or [undefined]. *)
Definition nullish {A : Type} (a b : option A) : option A :=
  match a with
  | Some x => Some x
  | None => b
  end.

End JsNum.

(** ** The order of the numbers

    The place of a binary64 value on the number line, counted in units of
    the smallest positive number [2^-1074]: a finite value [m * 2^e] sits at
    [m * 2^(e + 1074)], the infinities just outside the finite values.  NaN
    has no place (it is given 0, and the facts about places exclude it). *)

Module JsOrder.

Definition rank (x : spec_float) : Z :=
  match x with
  | S754_zero _ => 0
  | S754_nan => 0
  | S754_infinity s => cond_Zopp s (2 ^ 2098)
  | S754_finite s m e => cond_Zopp s (Zpos m * 2 ^ (e + 1074))
  end.

Definition position (x : float) : Z := rank (Prim2SF x).

(** A comparison with a known outcome, as the order it states. *)
Ltac cmp_solve :=
  match goal with
  | |- Some Lt = Some (?a ?= ?b) =>
      f_equal; symmetry; apply Z.compare_lt_iff
  | |- Some Gt = Some (?a ?= ?b) =>
      f_equal; symmetry; apply Z.compare_gt_iff
  | |- Some Eq = Some (?a ?= ?b) =>
      f_equal; symmetry; apply Z.compare_eq_iff
  end.

End JsOrder.

(** ** [Array.prototype.sort] with a comparator

    The sort is stable; a comparator result that is not positive (negative,
    zero or NaN) leaves the two elements in their order.  For a consistent
    comparator every stable sort gives this list; for an inconsistent one
    (NaN keys) the language leaves the order to the implementation, and this
    insertion sort is one such order, not necessarily the one an engine
    takes: what is proved of the order of a sorted list below is proved for
    keys that are not NaN. *)

Module JsArray.

#[local] Open Scope float_scope.

Fixpoint sort_insert {A : Type} (cmp : A -> A -> JsNum.number) (x : A)
    (l : list A) : list A :=
  match l with
  | [] => [x]
  | y :: l' => if 0 <? cmp x y then y :: sort_insert cmp x l' else x :: l
  end.

Definition sort {A : Type} (cmp : A -> A -> JsNum.number) (l : list A)
    : list A :=
  fold_right (sort_insert cmp) [] l.

(** [l.slice(start, end)] for integers [0 <= start <= end]. *)
Definition slice {A : Type} (l : list A) (start stop : nat) : list A :=
  firstn (stop - start) (skipn start l).

(** The batches of the loop
    [for (let i = 0; i < l.length; i += batchSize) l.slice(i, i + batchSize)],
    from index [i] on.  The loop does not end when [batchSize] is 0; [fuel]
    bounds the number of iterations, and [None] is a loop that has not
    ended within it. *)
Fixpoint batchLoop {A : Type} (fuel : nat) (l : list A) (batchSize i : nat)
    : option (list (list A)) :=
  if (i <? length l)%nat then
    match fuel with
    | O => None
    | S fuel' =>
        option_map (cons (slice l i (i + batchSize)))
          (batchLoop fuel' l batchSize (i + batchSize))
    end
  else Some [].

End JsArray.

(** ** [Map<string, V>]: lookup by key, iteration in insertion order *)

Module JsMap.

Definition t (V : Type) : Type := list (string * V).

Definition empty {V : Type} : t V := [].

Fixpoint get {V : Type} (m : t V) (k : string) : option V :=
  match m with
  | [] => None
  | (k', v) :: m' => if String.eqb k' k then Some v else get m' k
  end.

(** [m.set(k, v)]: an existing key keeps its place, a new one goes last. *)
Fixpoint set {V : Type} (m : t V) (k : string) (v : V) : t V :=
  match m with
  | [] => [(k, v)]
  | (k', v') :: m' =>
      if String.eqb k' k then (k', v) :: m' else (k', v') :: set m' k v
  end.

Definition entries {V : Type} (m : t V) : list (string * V) := m.
Definition keys {V : Type} (m : t V) : list string := map fst m.
Definition values {V : Type} (m : t V) : list V := map snd m.

End JsMap.

(** ** [Set<string>]: membership, iteration in insertion order *)

Module JsSet.

Definition t : Type := list string.

Definition empty : t := [].

Definition has (s : t) (x : string) : bool := existsb (String.eqb x) s.

Definition add (s : t) (x : string) : t := if has s x then s else s ++ [x].

Definition delete (s : t) (x : string) : t :=
  List.filter (fun y => negb (String.eqb y x)) s.

Definition size (s : t) : nat := length s.

End JsSet.

(** ** [src/types.ts], [src/gammaApi.ts]: the data the detectors read *)

Module Types.

Import JsNum.

Inductive BTCMarketInterval : Type := I15m | I30m | I1h | I4h | I1d.

Definition interval_eqb (a b : BTCMarketInterval) : bool :=
  match a, b with
  | I15m, I15m | I30m, I30m | I1h, I1h | I4h, I4h | I1d, I1d => true
  | _, _ => false
  end.

(** The fields of [GammaMarket] the detectors read.  [endDate] is the
    millisecond value of [new Date(market.endDate).getTime()]. *)
Record GammaMarket : Type := {
  id : string;
  slug : string;
  liquidityNum : number;
  endDate : Z
}.

Record MarketPair : Type := {
  market : GammaMarket;
  yesTokenId : string;
  noTokenId : string
}.

Record ScannerConfig : Type := {
  minProfit : number;
  minLiquidity : number
}.

(** A level of the book with [parseFloat] applied to its two strings. *)
Record OrderBookLevel : Type := {
  price : number;
  size : number
}.

Record OrderBook : Type := {
  bids : list OrderBookLevel;
  asks : list OrderBookLevel
}.

(** interface [TokenPrice] (the same in both detectors) *)
Record TokenPrice : Type := {
  bestAsk : option number;
  bestAskSize : option number;
  bestBid : option number;
  bestBidSize : option number;
  lastUpdate : Z
}.

End Types.

(** ** [src/clobApi.ts] *)

Module Clob.

Import JsNum Types.
#[local] Open Scope float_scope.

(** [getBestAsk]: the first level after sorting by ascending price. *)
Definition getBestAsk (book : OrderBook) : option OrderBookLevel :=
  match JsArray.sort (fun a b => price a - price b) (asks book) with
  | [] => None
  | best :: _ => Some best
  end.

(** [getBestBid]: the first level after sorting by descending price. *)
Definition getBestBid (book : OrderBook) : option OrderBookLevel :=
  match JsArray.sort (fun a b => price b - price a) (bids book) with
  | [] => None
  | best :: _ => Some best
  end.

(** [getMidPrice] *)
Definition getMidPrice (book : OrderBook) : option number :=
  match getBestBid book, getBestAsk book with
  | Some bestBid, Some bestAsk => Some ((price bestBid + price bestAsk) / 2)
  | _, _ => None
  end.

Section Fetch.

(** One request of [fetchOrderBook]: the book, or [null] when the request
    fails. *)
Variable fetchOrderBook : string -> option OrderBook.

(** The requests of one batch: a book that arrives is stored under its
    token. *)
Definition fetchBatch (results : gmap string OrderBook) (batch : list string)
    : gmap string OrderBook :=
  fold_left
    (fun results tokenId =>
       match fetchOrderBook tokenId with
       | Some book => <[tokenId := book]> results
       | None => results
       end)
    batch results.

(** [fetchMultipleOrderBooks]: the tokens are requested in batches of
    [maxConcurrent]; the pauses between the batches are left out. *)
Definition fetchMultipleOrderBooks (fuel : nat) (tokenIds : list string)
    (maxConcurrent : nat) : option (gmap string OrderBook) :=
  match JsArray.batchLoop fuel tokenIds maxConcurrent 0 with
  | Some batches => Some (fold_left fetchBatch batches ∅)
  | None => None
  end.

End Fetch.

End Clob.

(** ** [src/websocket.ts]: interface [ParsedBookUpdate] *)

Module WS.

Import JsNum.

Record ParsedBookUpdate : Type := {
  tokenId : string;
  bestBid : option number;
  bestAsk : option number;
  bestBidSize : option number;
  bestAskSize : option number;
  timestamp : Z
}.

(** A [book] message.  A level [[price, size]] is kept with [parseFloat]
    applied to its two strings; [msg_timestamp] is the value of
    [new Date(msg.timestamp)]. *)
Record BookUpdate : Type := {
  asset_id : string;
  bids : list Types.OrderBookLevel;
  asks : list Types.OrderBookLevel;
  msg_timestamp : Z
}.

(** [parseBookUpdate]: the first level of each side, as the server sends
    them (bids highest first, asks lowest first). *)
Definition parseBookUpdate (msg : BookUpdate) : ParsedBookUpdate :=
  {| tokenId := asset_id msg;
     bestBid := option_map Types.price (head (bids msg));
     bestAsk := option_map Types.price (head (asks msg));
     bestBidSize := option_map Types.size (head (bids msg));
     bestAskSize := option_map Types.size (head (asks msg));
     timestamp := msg_timestamp msg |}.

(** A [price_change] message; a field that is absent is [None]. *)
Record PriceChangeEntry : Type := {
  best_bid : option string;
  best_ask : option string
}.

Record PriceChange : Type := {
  change_asset_id : string;
  price_changes : list PriceChangeEntry
}.

Record LastTradePrice : Type := {
  trade_asset_id : string;
  trade_price : string;
  trade_size : string;
  trade_side : string
}.

(** A message after [JSON.parse]; [OtherMessage] is text that does not
    parse or carries another [event_type]. *)
Inductive WSMessage : Type :=
| BookMessage (msg : BookUpdate)
| PriceChangeMessage (msg : PriceChange)
| LastTradePriceMessage (msg : LastTradePrice)
| OtherMessage.

(** What [handleMessage] emits. *)
Inductive Event : Type :=
| BookEvent (update : ParsedBookUpdate)
| PriceEvent (update : ParsedBookUpdate)
| TradeEvent (tokenId : string) (price size : number) (side : string).

Section Messages.

Variable parseFloat : string -> number.

(** [s ? parseFloat(s) : null]: an absent or empty string is [null]. *)
Definition priceOrNull (s : option string) : option number :=
  match s with
  | Some EmptyString => None
  | Some s => Some (parseFloat s)
  | None => None
  end.

(** The update built for one entry of a [price_change] message: prices
    only, never a size. *)
Definition priceUpdate (now : Z) (assetId : string) (change : PriceChangeEntry)
    : ParsedBookUpdate :=
  {| tokenId := assetId;
     bestBid := priceOrNull (best_bid change);
     bestAsk := priceOrNull (best_ask change);
     bestBidSize := None;
     bestAskSize := None;
     timestamp := now |}.

(** [handleMessage]: the events one message gives rise to, in order. *)
Definition handleMessage (now : Z) (message : WSMessage) : list Event :=
  match message with
  | BookMessage msg => [BookEvent (parseBookUpdate msg)]
  | PriceChangeMessage priceMsg =>
      map (fun change =>
             PriceEvent (priceUpdate now (change_asset_id priceMsg) change))
        (price_changes priceMsg)
  | LastTradePriceMessage tradeMsg =>
      [TradeEvent (trade_asset_id tradeMsg)
         (parseFloat (trade_price tradeMsg))
         (parseFloat (trade_size tradeMsg))
         (trade_side tradeMsg)]
  | OtherMessage => []
  end.

End Messages.

End WS.

(** ** [src/websocket.ts]: class [PolymarketWebSocket], the connection

    The socket itself is left out; what is kept is the state the class
    holds and what it sends.  The handlers [onOpen] and [onClose] are the
    bodies of the [open] and [close] listeners of [connect]. *)

Module PolymarketWebSocket.

Record t : Type := {
  ws : bool;
  isConnected : bool;
  subscribedTokens : JsSet.t;
  reconnectAttempts : nat
}.

Definition maxReconnectAttempts : nat := 10.
Definition reconnectDelay : Z := 1000.

(** [new PolymarketWebSocket()] *)
Definition create : t :=
  {| ws := false;
     isConnected := false;
     subscribedTokens := JsSet.empty;
     reconnectAttempts := 0 |}.

(** What is sent on the socket. *)
Inductive Sent : Type :=
| Subscribe (assets_ids : list string)
| Unsubscribe (assets_ids : list string).

(** [connect]: a socket is created; it is not open yet. *)
Definition connect (s : t) : t :=
  {| ws := true;
     isConnected := isConnected s;
     subscribedTokens := subscribedTokens s;
     reconnectAttempts := reconnectAttempts s |}.

Definition subscribeToTokens (s : t) (tokenIds : list string)
    : t * list Sent :=
  if negb (ws s) || negb (isConnected s) then (s, [])
  else
    ({| ws := ws s;
        isConnected := isConnected s;
        subscribedTokens := fold_left JsSet.add tokenIds (subscribedTokens s);
        reconnectAttempts := reconnectAttempts s |},
     [Subscribe tokenIds]).

Definition unsubscribeFromTokens (s : t) (tokenIds : list string)
    : t * list Sent :=
  if negb (ws s) || negb (isConnected s) then (s, [])
  else
    ({| ws := ws s;
        isConnected := isConnected s;
        subscribedTokens :=
          fold_left JsSet.delete tokenIds (subscribedTokens s);
        reconnectAttempts := reconnectAttempts s |},
     [Unsubscribe tokenIds]).

(** The [open] listener: the attempts are counted anew, and the tokens
    subscribed before are subscribed again. *)
Definition onOpen (s : t) : t * list Sent :=
  let s :=
    {| ws := ws s;
       isConnected := true;
       subscribedTokens := subscribedTokens s;
       reconnectAttempts := 0 |} in
  if (0 <? JsSet.size (subscribedTokens s))%nat
  then subscribeToTokens s (subscribedTokens s)
  else (s, []).

(** [attemptReconnect]: the delay after which [connect] is called again,
    or [None] when the attempts are used up. *)
Definition attemptReconnect (s : t) : t * option Z :=
  if (maxReconnectAttempts <=? reconnectAttempts s)%nat then (s, None)
  else
    let attempts := S (reconnectAttempts s) in
    ({| ws := ws s;
        isConnected := isConnected s;
        subscribedTokens := subscribedTokens s;
        reconnectAttempts := attempts |},
     Some (reconnectDelay * 2 ^ (Z.of_nat attempts - 1))).

(** The [close] listener. *)
Definition onClose (s : t) : t * option Z :=
  attemptReconnect
    {| ws := ws s;
       isConnected := false;
       subscribedTokens := subscribedTokens s;
       reconnectAttempts := reconnectAttempts s |}.

Definition disconnect (s : t) : t :=
  {| ws := false;
     isConnected := false;
     subscribedTokens := JsSet.empty;
     reconnectAttempts := reconnectAttempts s |}.

Definition getSubscribedCount (s : t) : nat := JsSet.size (subscribedTokens s).

(** The delays of [n] [close] events in a row, none of them followed by an
    [open]. *)
Fixpoint closes (n : nat) (s : t) : list (option Z) :=
  match n with
  | O => []
  | S n' => let '(s', delay) := onClose s in delay :: closes n' s'
  end.

End PolymarketWebSocket.

(** ** The price cache: the two ways a [TokenPrice] record is written

    Both detectors hold a [tokenPrices] map and write it with the same two
    object literals. *)

Module PriceCache.

Import JsNum Types.

(** The record [updateFromOrderBook] stores: built from the book alone. *)
Definition ofOrderBook (book : OrderBook) (now : Z) : TokenPrice :=
  let bestAsk := Clob.getBestAsk book in
  let bestBid := Clob.getBestBid book in
  {| bestAsk := option_map price bestAsk;
     bestAskSize := option_map size bestAsk;
     bestBid := option_map price bestBid;
     bestBidSize := option_map size bestBid;
     lastUpdate := now |}.

(** The record [updateFromWebSocket] stores: each field of the update, or
    else the field of the existing record, or else [null]. *)
Definition ofWebSocket (update : WS.ParsedBookUpdate)
    (existing : option TokenPrice) : TokenPrice :=
  {| bestAsk := nullish (WS.bestAsk update) (existing ≫= bestAsk);
     bestAskSize := nullish (WS.bestAskSize update) (existing ≫= bestAskSize);
     bestBid := nullish (WS.bestBid update) (existing ≫= bestBid);
     bestBidSize := nullish (WS.bestBidSize update) (existing ≫= bestBidSize);
     lastUpdate := WS.timestamp update |}.

(** A field written by a merge: the supplied value when there is one, the
    old value otherwise. *)
Definition mergedOver (supplied old new : option number) : Prop :=
  (forall v, supplied = Some v -> new = Some v)
  /\ (supplied = None -> new = old).

Definition applyOrderBook (prices : gmap string TokenPrice) (tokenId : string)
    (book : OrderBook) (now : Z) : gmap string TokenPrice :=
  <[tokenId := ofOrderBook book now]> prices.

Definition applyWebSocket (prices : gmap string TokenPrice)
    (update : WS.ParsedBookUpdate) : gmap string TokenPrice :=
  <[WS.tokenId update :=
      ofWebSocket update (prices !! WS.tokenId update)]> prices.

End PriceCache.

(** ** [src/arbDetector.ts]: class [ArbitrageDetector] *)

Module Arb.

Import JsNum Types.
#[local] Open Scope float_scope.

Inductive OpportunityType : Type := BUY_BOTH | SELL_BOTH.

(** interface [ExtendedOpportunity]; an optional field is an [option]. *)
Record ExtendedOpportunity : Type := {
  type : OpportunityType;
  market : GammaMarket;
  yesAskPrice : number;
  noAskPrice : number;
  yesBidPrice : option number;
  noBidPrice : option number;
  totalCost : number;
  profit : number;
  profitPercent : number;
  yesAskSize : number;
  noAskSize : number;
  yesBidSize : option number;
  noBidSize : option number;
  maxShares : number;
  timestamp : Z
}.

Record ArbitrageDetector : Type := {
  config : ScannerConfig;
  marketPairs : JsMap.t MarketPair;
  tokenPrices : gmap string TokenPrice;
  marketLookup : JsMap.t MarketPair
}.

Definition create (config : ScannerConfig) : ArbitrageDetector :=
  {| config := config;
     marketPairs := JsMap.empty;
     tokenPrices := ∅;
     marketLookup := JsMap.empty |}.

Definition setMarketPairs (d : ArbitrageDetector) (pairs : list MarketPair)
    : ArbitrageDetector :=
  {| config := config d;
     marketPairs :=
       fold_left
         (fun m pr =>
            JsMap.set (JsMap.set m (yesTokenId pr) pr) (noTokenId pr) pr)
         pairs JsMap.empty;
     tokenPrices := tokenPrices d;
     marketLookup :=
       fold_left (fun m pr => JsMap.set m (id (Types.market pr)) pr)
         pairs JsMap.empty |}.

(** BUY_BOTH: buy YES and NO when the asks sum to less than 1. *)
Definition checkBuyBothArbitrage (d : ArbitrageDetector) (now : Z)
    (tokenId : string) : option ExtendedOpportunity :=
  match JsMap.get (marketPairs d) tokenId with
  | None => None
  | Some pr =>
      let yesPrice := tokenPrices d !! yesTokenId pr in
      let noPrice := tokenPrices d !! noTokenId pr in
      match yesPrice, noPrice with
      | Some yesPrice, Some noPrice =>
          match bestAsk yesPrice, bestAsk noPrice with
          | Some yesAsk, Some noAsk =>
              if negb (truthy yesAsk) || negb (truthy noAsk) then None else
              let totalCost := yesAsk + noAsk in
              let profit := 1 - totalCost in
              if profit <? minProfit (config d) then None else
              if liquidityNum (Types.market pr) <? minLiquidity (config d)
              then None else
              let yesSize := default 0 (bestAskSize yesPrice) in
              let noSize := default 0 (bestAskSize noPrice) in
              let maxShares := Math_min yesSize noSize in
              if maxShares <=? 0 then None else
              Some {| type := BUY_BOTH;
                      market := Types.market pr;
                      yesAskPrice := yesAsk;
                      noAskPrice := noAsk;
                      yesBidPrice := bestBid yesPrice;
                      noBidPrice := bestBid noPrice;
                      totalCost := totalCost;
                      profit := profit;
                      profitPercent := profit / totalCost;
                      yesAskSize := yesSize;
                      noAskSize := noSize;
                      yesBidSize := bestBidSize yesPrice;
                      noBidSize := bestBidSize noPrice;
                      maxShares := maxShares;
                      timestamp := now |}
          | _, _ => None
          end
      | _, _ => None
      end
  end.

(** SELL_BOTH: mint for 1 and sell YES and NO when the bids sum to more. *)
Definition checkSellBothArbitrage (d : ArbitrageDetector) (now : Z)
    (tokenId : string) : option ExtendedOpportunity :=
  match JsMap.get (marketPairs d) tokenId with
  | None => None
  | Some pr =>
      let yesPrice := tokenPrices d !! yesTokenId pr in
      let noPrice := tokenPrices d !! noTokenId pr in
      match yesPrice, noPrice with
      | Some yesPrice, Some noPrice =>
          match bestBid yesPrice, bestBid noPrice with
          | Some yesBid, Some noBid =>
              if negb (truthy yesBid) || negb (truthy noBid) then None else
              let totalBids := yesBid + noBid in
              let profit := totalBids - 1 in
              if profit <? minProfit (config d) then None else
              if liquidityNum (Types.market pr) <? minLiquidity (config d)
              then None else
              let yesSize := default 0 (bestBidSize yesPrice) in
              let noSize := default 0 (bestBidSize noPrice) in
              let maxShares := Math_min yesSize noSize in
              if maxShares <=? 0 then None else
              Some {| type := SELL_BOTH;
                      market := Types.market pr;
                      yesAskPrice := default 0 (bestAsk yesPrice);
                      noAskPrice := default 0 (bestAsk noPrice);
                      yesBidPrice := Some yesBid;
                      noBidPrice := Some noBid;
                      totalCost := 1;
                      profit := profit;
                      profitPercent := profit;
                      yesAskSize := default 0 (bestAskSize yesPrice);
                      noAskSize := default 0 (bestAskSize noPrice);
                      yesBidSize := Some yesSize;
                      noBidSize := Some noSize;
                      maxShares := maxShares;
                      timestamp := now |}
          | _, _ => None
          end
      | _, _ => None
      end
  end.

(** BUY_BOTH is checked first; SELL_BOTH only when it gave nothing. *)
Definition checkAllArbitrageTypes (d : ArbitrageDetector) (now : Z)
    (tokenId : string) : option ExtendedOpportunity :=
  match checkBuyBothArbitrage d now tokenId with
  | Some buyBoth => Some buyBoth
  | None =>
      match checkSellBothArbitrage d now tokenId with
      | Some sellBoth => Some sellBoth
      | None => None
      end
  end.

Definition withPrices (d : ArbitrageDetector)
    (prices : gmap string TokenPrice) : ArbitrageDetector :=
  {| config := config d;
     marketPairs := marketPairs d;
     tokenPrices := prices;
     marketLookup := marketLookup d |}.

(** The detector after the call, and the value the call returns. *)
Definition updateFromOrderBook (d : ArbitrageDetector) (now : Z)
    (tokenId : string) (book : OrderBook)
    : ArbitrageDetector * option ExtendedOpportunity :=
  let d' := withPrices d
              (PriceCache.applyOrderBook (tokenPrices d) tokenId book now) in
  (d', checkAllArbitrageTypes d' now tokenId).

Definition updateFromWebSocket (d : ArbitrageDetector) (now : Z)
    (update : WS.ParsedBookUpdate)
    : ArbitrageDetector * option ExtendedOpportunity :=
  let d' := withPrices d (PriceCache.applyWebSocket (tokenPrices d) update) in
  (d', checkAllArbitrageTypes d' now (WS.tokenId update)).

(** The loop of [scanAllMarkets] over the entries of [marketPairs], with
    the set [checkedMarkets] of market ids already seen. *)
Fixpoint scanLoop (d : ArbitrageDetector) (now : Z)
    (entries : list (string * MarketPair)) (checkedMarkets : gset string)
    : list ExtendedOpportunity :=
  match entries with
  | [] => []
  | (tokenId, pr) :: rest =>
      if bool_decide (id (Types.market pr) ∈ checkedMarkets)
      then scanLoop d now rest checkedMarkets
      else
        let checkedMarkets := {[ id (Types.market pr) ]} ∪ checkedMarkets in
        match checkAllArbitrageTypes d now tokenId with
        | Some opp => opp :: scanLoop d now rest checkedMarkets
        | None => scanLoop d now rest checkedMarkets
        end
  end.

Definition scanAllMarkets (d : ArbitrageDetector) (now : Z)
    : list ExtendedOpportunity :=
  JsArray.sort (fun a b => profit b - profit a)
    (scanLoop d now (JsMap.entries (marketPairs d)) ∅).

Definition getMarketPair (d : ArbitrageDetector) (marketId : string)
    : option MarketPair :=
  JsMap.get (marketLookup d) marketId.

Definition getAllTokenIds (d : ArbitrageDetector) : list string :=
  JsMap.keys (marketPairs d).

End Arb.

(** ** The cross-market detector: class [CrossMarketDetector] *)

Module Cross.

Import JsNum Types.
#[local] Open Scope float_scope.

Inductive Strategy : Type := LONG_DOWN_SHORT_UP | LONG_UP_SHORT_DOWN.

(** interface [MarketInfo]; the field [pair] is [marketPair] here. *)
Record MarketInfo : Type := {
  market : GammaMarket;
  marketPair : MarketPair;
  interval : BTCMarketInterval;
  asset : string;
  resolutionTimestamp : Z;
  candleStartTimestamp : Z;
  referencePrice : option number
}.

(** interface [CrossMarketOpportunity] *)
Record CrossMarketOpportunity : Type := {
  longMarket : GammaMarket;
  shortMarket : GammaMarket;
  longInterval : BTCMarketInterval;
  shortInterval : BTCMarketInterval;
  longUpTokenId : string;
  longDownTokenId : string;
  shortUpTokenId : string;
  shortDownTokenId : string;
  longRefPrice : number;
  shortRefPrice : number;
  profitZoneLow : number;
  profitZoneHigh : number;
  strategy : Strategy;
  longUpAsk : number;
  longDownAsk : number;
  shortUpAsk : number;
  shortDownAsk : number;
  entryCost : number;
  maxProfit : number;
  profitZoneWidth : number;
  profitZonePercent : number;
  maxShares : number;
  resolutionTime : Z;
  minutesUntilResolution : number;
  timestamp : Z
}.

Record CrossMarketDetector : Type := {
  tokenPrices : gmap string TokenPrice;
  marketInfos : JsMap.t MarketInfo;
  minProfit : number;
  pricesLoaded : bool;
  refPriceCache : gmap string number
}.

(** [new CrossMarketDetector(minProfit)] *)
Definition create (minProfit : number) : CrossMarketDetector :=
  {| tokenPrices := ∅;
     marketInfos := JsMap.empty;
     minProfit := minProfit;
     pricesLoaded := false;
     refPriceCache := ∅ |}.

Definition withReferencePrice (marketInfo : MarketInfo)
    (referencePrice : option number) : MarketInfo :=
  {| market := market marketInfo;
     marketPair := marketPair marketInfo;
     interval := interval marketInfo;
     asset := asset marketInfo;
     resolutionTimestamp := resolutionTimestamp marketInfo;
     candleStartTimestamp := candleStartTimestamp marketInfo;
     referencePrice := referencePrice |}.

(** *** Registration and reference prices *)

Section Registration.

(** What [parseMarketInfo] reads off the slug and the interval metadata of
    a market: the interval, the asset and the candle start, or nothing when
    no pattern matches.  The regular expressions are not modelled; every
    branch of [parseMarketInfo] builds the same record around the three
    values, with the resolution time taken from [endDate] and a [null]
    reference price. *)
Variable parseSlug : MarketPair -> option (BTCMarketInterval * string * Z).

Definition parseMarketInfo (pr : MarketPair) : option MarketInfo :=
  match parseSlug pr with
  | Some (interval, asset, candleStartTimestamp) =>
      Some {| market := Types.market pr;
              marketPair := pr;
              interval := interval;
              asset := asset;
              resolutionTimestamp := (endDate (Types.market pr) / 1000)%Z;
              candleStartTimestamp := candleStartTimestamp;
              referencePrice := None |}
  | None => None
  end.

(** The first loop of [setMarketPairs]: every reference price that is set
    goes to the persistent cache. *)
Definition saveReferencePrices (infos : list (string * MarketInfo))
    (cache : gmap string number) : gmap string number :=
  fold_left
    (fun cache '(slug, mktInfo) =>
       match referencePrice mktInfo with
       | Some p => <[slug := p]> cache
       | None => cache
       end)
    infos cache.

(** The body of the second loop: a market that parses is registered under
    its slug, its reference price restored from the cache. *)
Definition registerStep (cache : gmap string number)
    (infos : JsMap.t MarketInfo) (pr : MarketPair) : JsMap.t MarketInfo :=
  match parseMarketInfo pr with
  | Some marketInfo =>
      let marketInfo :=
        match cache !! slug (Types.market pr) with
        | Some cachedPrice => withReferencePrice marketInfo (Some cachedPrice)
        | None => marketInfo
        end in
      JsMap.set infos (slug (Types.market pr)) marketInfo
  | None => infos
  end.

Definition registerPairs (cache : gmap string number) (pairs : list MarketPair)
    : JsMap.t MarketInfo :=
  fold_left (registerStep cache) pairs JsMap.empty.

Definition setMarketPairs (d : CrossMarketDetector) (pairs : list MarketPair)
    : CrossMarketDetector :=
  let cache := saveReferencePrices (JsMap.entries (marketInfos d))
                 (refPriceCache d) in
  {| tokenPrices := tokenPrices d;
     marketInfos := registerPairs cache pairs;
     minProfit := minProfit d;
     pricesLoaded := pricesLoaded d;
     refPriceCache := cache |}.

(** The first loop of [loadReferencePrices]: a missing reference price is
    restored from the cache. *)
Definition restoreFromCache (cache : gmap string number)
    (infos : JsMap.t MarketInfo) : JsMap.t MarketInfo :=
  map
    (fun '(slug, marketInfo) =>
       match referencePrice marketInfo with
       | None =>
           match cache !! slug with
           | Some cachedPrice =>
               (slug, withReferencePrice marketInfo (Some cachedPrice))
           | None => (slug, marketInfo)
           end
       | Some _ => (slug, marketInfo)
       end)
    infos.

Definition missingCount (infos : JsMap.t MarketInfo) : nat :=
  length
    (List.filter
       (fun marketInfo =>
          match referencePrice marketInfo with None => true | Some _ => false end)
       (JsMap.values infos)).

(** The last loop: each market still without a reference price asks the
    price source; an answer goes to the market and to the cache.  [fetch]
    is one call's [getMarketOpenPriceFromPolymarket(asset, interval,
    endTime)], [None] when it answers [null] or throws. *)
Fixpoint fetchMissing (fetch : string -> BTCMarketInterval -> Z -> option number)
    (infos : list (string * MarketInfo)) (cache : gmap string number)
    : list (string * MarketInfo) * gmap string number :=
  match infos with
  | [] => ([], cache)
  | (slug, marketInfo) :: rest =>
      match referencePrice marketInfo with
      | Some _ =>
          let '(rest', cache') := fetchMissing fetch rest cache in
          ((slug, marketInfo) :: rest', cache')
      | None =>
          let endTime := (resolutionTimestamp marketInfo * 1000)%Z in
          match fetch (asset marketInfo) (interval marketInfo) endTime with
          | Some openPrice =>
              let '(rest', cache') :=
                fetchMissing fetch rest (<[slug := openPrice]> cache) in
              ((slug, withReferencePrice marketInfo (Some openPrice)) :: rest',
               cache')
          | None =>
              let '(rest', cache') := fetchMissing fetch rest cache in
              ((slug, marketInfo) :: rest', cache')
          end
      end
  end.

Definition loadReferencePrices (d : CrossMarketDetector) (force : bool)
    (fetch : string -> BTCMarketInterval -> Z -> option number)
    : CrossMarketDetector :=
  let infos := restoreFromCache (refPriceCache d) (marketInfos d) in
  let missing := missingCount infos in
  if pricesLoaded d && Nat.eqb missing 0 && negb force then
    {| tokenPrices := tokenPrices d;
       marketInfos := infos;
       minProfit := minProfit d;
       pricesLoaded := pricesLoaded d;
       refPriceCache := refPriceCache d |}
  else
    let '(infos', cache') := fetchMissing fetch infos (refPriceCache d) in
    {| tokenPrices := tokenPrices d;
       marketInfos := infos';
       minProfit := minProfit d;
       pricesLoaded := true;
       refPriceCache := cache' |}.

(** The registry and the cache agree: a registered market has the reference
    price the cache holds for its slug, or none when the cache holds none;
    and no slug is registered twice. *)
Definition cacheAgrees (d : CrossMarketDetector) : Prop :=
  List.NoDup (JsMap.keys (marketInfos d))
  /\ forall slug marketInfo,
       In (slug, marketInfo) (marketInfos d) ->
       referencePrice marketInfo = refPriceCache d !! slug.

(** The two operations that touch reference prices, and runs of them in
    which each call has ended before the next begins.  Calls of
    [loadReferencePrices] that overlap are [overlapped] below. *)
Inductive Op : Type :=
| SetMarketPairs (pairs : list MarketPair)
| LoadReferencePrices (force : bool)
    (fetch : string -> BTCMarketInterval -> Z -> option number).

Definition step (d : CrossMarketDetector) (op : Op) : CrossMarketDetector :=
  match op with
  | SetMarketPairs pairs => setMarketPairs d pairs
  | LoadReferencePrices force fetch => loadReferencePrices d force fetch
  end.

Definition run (d : CrossMarketDetector) (ops : list Op) : CrossMarketDetector :=
  fold_left step ops d.

End Registration.

(** *** [loadReferencePrices] as it runs

    The function is [async]: a call runs up to the [await] of its request
    (line 572) and goes on when the price source answers, and other calls
    run in between.  [loadReferencePrices] above is a call all of whose
    requests are answered before anything else happens; here a call is
    taken apart at its [await].  As long as no market is registered
    meanwhile the entries of [marketInfos] keep their places, and a call
    that waits is the place of the entry whose price it has asked for. *)

(** From the entry at place [i] on, the loop passes over the markets that
    have a reference price; the place of the first one without is where
    the call waits, [None] when there is none left. *)
Fixpoint nextMissing (infos : list (string * MarketInfo)) (i : nat)
    : option nat :=
  match infos with
  | [] => None
  | (_, marketInfo) :: rest =>
      match referencePrice marketInfo with
      | Some _ => nextMissing rest (S i)
      | None => Some i
      end
  end.

(** The last loop from place [i] on, up to the next request or to the end
    of the call, where [pricesLoaded] is set. *)
Definition loadFrom (d : CrossMarketDetector) (i : nat)
    : CrossMarketDetector * option nat :=
  match nextMissing (skipn i (marketInfos d)) i with
  | Some j => (d, Some j)
  | None =>
      ({| tokenPrices := tokenPrices d;
          marketInfos := marketInfos d;
          minProfit := minProfit d;
          pricesLoaded := true;
          refPriceCache := refPriceCache d |},
       None)
  end.

(** A call from its start to its first request: the restore loop, the
    count of what is missing and the early return. *)
Definition loadCall (d : CrossMarketDetector) (force : bool)
    : CrossMarketDetector * option nat :=
  let infos := restoreFromCache (refPriceCache d) (marketInfos d) in
  let missing := missingCount infos in
  let d' :=
    {| tokenPrices := tokenPrices d;
       marketInfos := infos;
       minProfit := minProfit d;
       pricesLoaded := pricesLoaded d;
       refPriceCache := refPriceCache d |} in
  if pricesLoaded d && Nat.eqb missing 0 && negb force then (d', None)
  else loadFrom d' 0.

(** The request a call that waits at place [i] has made:
    [getMarketOpenPriceFromPolymarket(asset, interval, endTime)]. *)
Definition requested (d : CrossMarketDetector) (i : nat)
    : option (string * BTCMarketInterval * Z) :=
  match nth_error (marketInfos d) i with
  | Some (_, marketInfo) =>
      Some (asset marketInfo, interval marketInfo,
            (resolutionTimestamp marketInfo * 1000)%Z)
  | None => None
  end.

(** A call goes on: its request for the entry at place [i] is answered
    with [openPrice] ([None] when the source answers [null] or throws).
    An answer is written to the market and to the cache; the reference
    price of the market, tested before the request, is not tested again. *)
Definition loadAnswer (d : CrossMarketDetector) (i : nat)
    (openPrice : option number) : CrossMarketDetector * option nat :=
  match nth_error (marketInfos d) i, openPrice with
  | Some (slug, marketInfo), Some openPrice =>
      loadFrom
        {| tokenPrices := tokenPrices d;
           marketInfos :=
             list_insert i
               (slug, withReferencePrice marketInfo (Some openPrice))
               (marketInfos d);
           minProfit := minProfit d;
           pricesLoaded := pricesLoaded d;
           refPriceCache := <[slug := openPrice]> (refPriceCache d) |}
        (S i)
  | _, _ => loadFrom d (S i)
  end.

(** A call alone: each of its requests is answered by [fetch] before
    anything else happens.  A call makes at most one request per entry;
    [fuel] bounds their number. *)
Fixpoint answerAlone (fuel : nat)
    (fetch : string -> BTCMarketInterval -> Z -> option number)
    (call : CrossMarketDetector * option nat) : option CrossMarketDetector :=
  match call with
  | (d, None) => Some d
  | (d, Some i) =>
      match fuel with
      | O => None
      | S fuel' =>
          match requested d i with
          | Some (asset, interval, endTime) =>
              answerAlone fuel' fetch
                (loadAnswer d i (fetch asset interval endTime))
          | None => None
          end
      end
  end.

(** Calls that overlap: a call starts, or the request of a call that
    waits is answered.  Calls are numbered in the order they start; the
    state is the detector and, for every call, the place it waits at
    ([None] once it has returned). *)
Inductive LoadEvent : Type :=
| Called (force : bool)
| Answered (call : nat) (openPrice : option number).

Definition loadStep (state : CrossMarketDetector * list (option nat))
    (event : LoadEvent) : CrossMarketDetector * list (option nat) :=
  let '(d, calls) := state in
  match event with
  | Called force =>
      let '(d', waits) := loadCall d force in (d', calls ++ [waits])
  | Answered call openPrice =>
      match nth_error calls call with
      | Some (Some i) =>
          let '(d', waits) := loadAnswer d i openPrice in
          (d', list_insert call waits calls)
      | _ => (d, calls)
      end
  end.

Definition overlapped (d : CrossMarketDetector) (events : list LoadEvent)
    : CrossMarketDetector * list (option nat) :=
  fold_left loadStep events (d, []).


(** *** Price updates *)

Definition withPrices (d : CrossMarketDetector)
    (prices : gmap string TokenPrice) : CrossMarketDetector :=
  {| tokenPrices := prices;
     marketInfos := marketInfos d;
     minProfit := minProfit d;
     pricesLoaded := pricesLoaded d;
     refPriceCache := refPriceCache d |}.

Definition withMinProfit (d : CrossMarketDetector) (minProfit : number)
    : CrossMarketDetector :=
  {| tokenPrices := tokenPrices d;
     marketInfos := marketInfos d;
     minProfit := minProfit;
     pricesLoaded := pricesLoaded d;
     refPriceCache := refPriceCache d |}.

(** [getIntervalSeconds] *)
Definition getIntervalSeconds (i : BTCMarketInterval) : Z :=
  match i with
  | I15m => 15 * 60
  | I30m => 30 * 60
  | I1h => 60 * 60
  | I4h => 4 * 60 * 60
  | I1d => 24 * 60 * 60
  end.

(** *** [checkPairForArbitrage] *)

(** [intervalOrder]: 1d > 4h > 1h > 30m > 15m *)
Definition intervalOrder (i : BTCMarketInterval) : Z :=
  match i with
  | I1d => 5
  | I4h => 4
  | I1h => 3
  | I30m => 2
  | I15m => 1
  end.

Definition longOf (info1 info2 : MarketInfo) : MarketInfo :=
  if (intervalOrder (interval info2) <? intervalOrder (interval info1))%Z
  then info1 else info2.

Definition shortOf (info1 info2 : MarketInfo) : MarketInfo :=
  if (intervalOrder (interval info2) <? intervalOrder (interval info1))%Z
  then info2 else info1.

(** [(p?.bestAsk && !isNaN(p.bestAsk)) ? p.bestAsk : 0] *)
Definition askOrZero (p : option TokenPrice) : number :=
  match p ≫= bestAsk with
  | Some ask => if truthy ask && negb (isNaN ask) then ask else 0
  | None => 0
  end.

(** [size > 0 ? size : 1000] for [size = p?.bestAskSize ?? 0] *)
Definition sizeOrDefault (p : option TokenPrice) : number :=
  let size := default 0 (p ≫= bestAskSize) in
  if 0 <? size then size else 1000.

(** The variables the three branches assign: the strategy, the zone, the
    entry cost, the flag [hasBothPrices] and the tradable size. *)
Record ZonePlan : Type := {
  plan_strategy : Strategy;
  plan_profitZoneLow : number;
  plan_profitZoneHigh : number;
  plan_entryCost : number;
  plan_hasBothPrices : bool;
  plan_maxShares : number
}.

Definition zonePlan (prices : gmap string TokenPrice)
    (longInfo shortInfo : MarketInfo) (longRef shortRef : number) : ZonePlan :=
  let longUpPrice := prices !! yesTokenId (marketPair longInfo) in
  let longDownPrice := prices !! noTokenId (marketPair longInfo) in
  let shortUpPrice := prices !! yesTokenId (marketPair shortInfo) in
  let shortDownPrice := prices !! noTokenId (marketPair shortInfo) in
  let longUpAsk := askOrZero longUpPrice in
  let longDownAsk := askOrZero longDownPrice in
  let shortUpAsk := askOrZero shortUpPrice in
  let shortDownAsk := askOrZero shortDownPrice in
  let identicalRefs := longRef =? shortRef in
  if identicalRefs then
    {| plan_strategy := LONG_DOWN_SHORT_UP;
       plan_profitZoneLow := longRef;
       plan_profitZoneHigh := longRef;
       plan_entryCost := longDownAsk + shortUpAsk;
       plan_hasBothPrices := (0 <? longDownAsk) && (0 <? shortUpAsk);
       plan_maxShares :=
         Math_min (sizeOrDefault longDownPrice) (sizeOrDefault shortUpPrice) |}
  else if shortRef <? longRef then
    {| plan_strategy := LONG_DOWN_SHORT_UP;
       plan_profitZoneLow := shortRef;
       plan_profitZoneHigh := longRef;
       plan_entryCost := longDownAsk + shortUpAsk;
       plan_hasBothPrices := (0 <? longDownAsk) && (0 <? shortUpAsk);
       plan_maxShares :=
         Math_min (sizeOrDefault longDownPrice) (sizeOrDefault shortUpPrice) |}
  else
    {| plan_strategy := LONG_UP_SHORT_DOWN;
       plan_profitZoneLow := longRef;
       plan_profitZoneHigh := shortRef;
       plan_entryCost := longUpAsk + shortDownAsk;
       plan_hasBothPrices := (0 <? longUpAsk) && (0 <? shortDownAsk);
       plan_maxShares :=
         Math_min (sizeOrDefault longUpPrice) (sizeOrDefault shortDownPrice) |}.

Definition checkPairForArbitrage (d : CrossMarketDetector) (now : Z)
    (info1 info2 : MarketInfo) : option CrossMarketOpportunity :=
  let longInfo := longOf info1 info2 in
  let shortInfo := shortOf info1 info2 in
  match referencePrice longInfo, referencePrice shortInfo with
  | Some longRef, Some shortRef =>
      if negb (truthy longRef) || negb (truthy shortRef) then None else
      let prices := tokenPrices d in
      let identicalRefs := longRef =? shortRef in
      let plan := zonePlan prices longInfo shortInfo longRef shortRef in
      let entryCost := plan_entryCost plan in
      if negb (plan_hasBothPrices plan) then None else
      let maxProfit := if identicalRefs then - entryCost else 2 - entryCost in
      if negb identicalRefs && (maxProfit <? minProfit d) then None else
      let profitZoneWidth := plan_profitZoneHigh plan - plan_profitZoneLow plan in
      let avgRef := (longRef + shortRef) / 2 in
      let profitZonePercent := (profitZoneWidth / avgRef) * 100 in
      let resolutionTime := (resolutionTimestamp longInfo * 1000)%Z in
      let minutesUntilResolution := of_Z (resolutionTime - now) / 60000 in
      Some {| longMarket := market longInfo;
              shortMarket := market shortInfo;
              longInterval := interval longInfo;
              shortInterval := interval shortInfo;
              longUpTokenId := yesTokenId (marketPair longInfo);
              longDownTokenId := noTokenId (marketPair longInfo);
              shortUpTokenId := yesTokenId (marketPair shortInfo);
              shortDownTokenId := noTokenId (marketPair shortInfo);
              longRefPrice := longRef;
              shortRefPrice := shortRef;
              profitZoneLow := plan_profitZoneLow plan;
              profitZoneHigh := plan_profitZoneHigh plan;
              strategy := plan_strategy plan;
              longUpAsk :=
                askOrZero (prices !! yesTokenId (marketPair longInfo));
              longDownAsk :=
                askOrZero (prices !! noTokenId (marketPair longInfo));
              shortUpAsk :=
                askOrZero (prices !! yesTokenId (marketPair shortInfo));
              shortDownAsk :=
                askOrZero (prices !! noTokenId (marketPair shortInfo));
              entryCost := entryCost;
              maxProfit := maxProfit;
              profitZoneWidth := profitZoneWidth;
              profitZonePercent := profitZonePercent;
              maxShares := plan_maxShares plan;
              resolutionTime := resolutionTime;
              minutesUntilResolution := minutesUntilResolution;
              timestamp := now |}
  | _, _ => None
  end.

(** *** [checkCrossMarketOpportunities]: discovery on a price update *)

(** The market a token belongs to: the first registered one that has it. *)
Definition findUpdatedInfo (d : CrossMarketDetector) (tokenId : string)
    : option MarketInfo :=
  List.find
    (fun info =>
       String.eqb (yesTokenId (marketPair info)) tokenId
       || String.eqb (noTokenId (marketPair info)) tokenId)
    (JsMap.values (marketInfos d)).

(** None of the four [continue] tests of the loop fires. *)
Definition isCandidate (updatedInfo otherInfo : MarketInfo) : bool :=
  negb (String.eqb (slug (market otherInfo)) (slug (market updatedInfo)))
  && String.eqb (asset otherInfo) (asset updatedInfo)
  && negb (interval_eqb (interval otherInfo) (interval updatedInfo))
  && negb (300 <? Z.abs (resolutionTimestamp otherInfo
                         - resolutionTimestamp updatedInfo))%Z.

Definition candidatesFor (d : CrossMarketDetector) (updatedInfo : MarketInfo)
    : list MarketInfo :=
  List.filter (isCandidate updatedInfo) (JsMap.values (marketInfos d)).

Definition checkCrossMarketOpportunities (d : CrossMarketDetector) (now : Z)
    (tokenId : string) : option CrossMarketOpportunity :=
  match findUpdatedInfo d tokenId with
  | None => None
  | Some updatedInfo =>
      let opportunities :=
        omap (fun otherInfo => checkPairForArbitrage d now updatedInfo otherInfo)
          (candidatesFor d updatedInfo) in
      head (JsArray.sort (fun a b => maxProfit b - maxProfit a) opportunities)
  end.

Definition updateFromOrderBook (d : CrossMarketDetector) (now : Z)
    (tokenId : string) (book : OrderBook)
    : CrossMarketDetector * option CrossMarketOpportunity :=
  let d' := withPrices d
              (PriceCache.applyOrderBook (tokenPrices d) tokenId book now) in
  (d', checkCrossMarketOpportunities d' now tokenId).

Definition updateFromWebSocket (d : CrossMarketDetector) (now : Z)
    (update : WS.ParsedBookUpdate)
    : CrossMarketDetector * option CrossMarketOpportunity :=
  let d' := withPrices d (PriceCache.applyWebSocket (tokenPrices d) update) in
  (d', checkCrossMarketOpportunities d' now (WS.tokenId update)).

(** *** [scanAllCrossMarkets]: discovery by a full scan *)

(** [Math.round(resolutionTimestamp / 300) * 300]: the quotient rounded to
    the nearest integer, a half going up.  On integer seconds the division
    by 300 is far from a half except at one, so the rounding of the
    floating-point quotient is the rounding of the exact one. *)
Definition roundedTime (marketInfo : MarketInfo) : Z :=
  ((2 * resolutionTimestamp marketInfo + 300) / 600 * 300)%Z.

(** The key [`${asset}-${roundedTime}`] of a bucket, kept as the pair it is
    printed from (the assets [parseMarketInfo] produces are letters only,
    so the printed key determines the pair). *)
Definition bucketKey (marketInfo : MarketInfo) : string * Z :=
  (asset marketInfo, roundedTime marketInfo).

Definition bucketKey_eqb (k1 k2 : string * Z) : bool :=
  String.eqb (fst k1) (fst k2) && (snd k1 =? snd k2)%Z.

(** [byAssetAndTime.get(key).push(marketInfo)], creating the bucket when
    the key is new. *)
Fixpoint bucketPush (buckets : list ((string * Z) * list MarketInfo))
    (key : string * Z) (marketInfo : MarketInfo)
    : list ((string * Z) * list MarketInfo) :=
  match buckets with
  | [] => [(key, [marketInfo])]
  | (k, markets) :: rest =>
      if bucketKey_eqb k key then (k, markets ++ [marketInfo]) :: rest
      else (k, markets) :: bucketPush rest key marketInfo
  end.

Definition byAssetAndTime (d : CrossMarketDetector)
    : list ((string * Z) * list MarketInfo) :=
  fold_left
    (fun buckets marketInfo =>
       bucketPush buckets (bucketKey marketInfo) marketInfo)
    (JsMap.values (marketInfos d)) [].

(** Every market in a bucket has the key of the bucket. *)
Definition bucketsSound (all : list MarketInfo)
    (buckets : list ((string * Z) * list MarketInfo)) : Prop :=
  forall key markets marketInfo,
    In (key, markets) buckets -> In marketInfo markets ->
    In marketInfo all /\ bucketKey marketInfo = key.

(** The pairs [(markets[i], markets[j])], [i < j], in the loops' order. *)
Fixpoint pairsOf {A : Type} (markets : list A) : list (A * A) :=
  match markets with
  | [] => []
  | info1 :: rest => map (fun info2 => (info1, info2)) rest ++ pairsOf rest
  end.

Definition bucketPairs (d : CrossMarketDetector)
    : list (MarketInfo * MarketInfo) :=
  flat_map
    (fun '(_, markets) =>
       if (length markets <? 2)%nat then [] else pairsOf markets)
    (byAssetAndTime d).

(** [[slug1, slug2].sort().join('|')] *)
Definition pairKey (info1 info2 : MarketInfo) : string :=
  let s1 := slug (market info1) in
  let s2 := slug (market info2) in
  if String.ltb s2 s1 then (s2 ++ "|" ++ s1)%string
  else (s1 ++ "|" ++ s2)%string.

(** The pairs handed to [checkPairForArbitrage]: those of differing
    intervals whose key is not in [checkedPairs] yet. *)
Fixpoint scanPairsLoop (cands : list (MarketInfo * MarketInfo))
    (checkedPairs : gset string) : list (MarketInfo * MarketInfo) :=
  match cands with
  | [] => []
  | (info1, info2) :: rest =>
      if interval_eqb (interval info1) (interval info2)
      then scanPairsLoop rest checkedPairs
      else if bool_decide (pairKey info1 info2 ∈ checkedPairs)
      then scanPairsLoop rest checkedPairs
      else (info1, info2)
             :: scanPairsLoop rest ({[ pairKey info1 info2 ]} ∪ checkedPairs)
  end.

Definition scanPairs (d : CrossMarketDetector)
    : list (MarketInfo * MarketInfo) :=
  scanPairsLoop (bucketPairs d) ∅.

Definition scanAllCrossMarkets (d : CrossMarketDetector) (now : Z)
    : list CrossMarketOpportunity :=
  JsArray.sort (fun a b => maxProfit b - maxProfit a)
    (omap (fun '(info1, info2) => checkPairForArbitrage d now info1 info2)
       (scanPairs d)).

(** [findAllCrossMarketOpportunities]: the same scan with [minProfit]
    lowered to [-2.0] for its duration. *)
Definition findAllCrossMarketOpportunities (d : CrossMarketDetector) (now : Z)
    : list CrossMarketOpportunity :=
  scanAllCrossMarkets (withMinProfit d (-2)) now.

(** [findBestCrossMarketNearMiss] *)
Definition findBestCrossMarketNearMiss (d : CrossMarketDetector) (now : Z)
    : option CrossMarketOpportunity :=
  head (findAllCrossMarketOpportunities d now).

(** *** The two parsers of descriptive slugs *)

(** [calculateCandleStartTime], on millisecond values. *)
Definition calculateCandleStartTime (endTime : Z) (interval : BTCMarketInterval)
    : Z :=
  match interval with
  | I15m => endTime - 15 * 60 * 1000
  | I30m => endTime - 30 * 60 * 1000
  | I1h => endTime - 60 * 60 * 1000
  | I4h => endTime - 4 * 60 * 60 * 1000
  | I1d => endTime - 24 * 60 * 60 * 1000
  end%Z.

(** [s.includes(needle)] and [s.startsWith(p)] *)
Fixpoint includes (s needle : string) : bool :=
  String.prefix needle s
  || match s with
     | EmptyString => false
     | String _ s' => includes s' needle
     end.

Definition startsWith (s p : string) : bool := String.prefix p s.

Section Slugs.

(** [String.prototype.toLowerCase], not modelled. *)
Variable toLowerCase : string -> string.

(** The asset a slug names: the chain of tests both parsers start with. *)
Definition assetOfSlug (slug : string) : option string :=
  if includes (toLowerCase slug) "bitcoin" || startsWith (toLowerCase slug) "btc"
  then Some "btc"
  else if includes (toLowerCase slug) "ethereum"
          || startsWith (toLowerCase slug) "eth"
  then Some "eth"
  else if includes (toLowerCase slug) "solana"
          || startsWith (toLowerCase slug) "sol"
  then Some "sol"
  else if includes (toLowerCase slug) "xrp"
  then Some "xrp"
  else None.

(** [parseSeriesMarket]: a market of the series endpoint, which carries
    its interval. *)
Definition parseSeriesMarket (pr : MarketPair) (interval : BTCMarketInterval)
    : option MarketInfo :=
  match assetOfSlug (slug (Types.market pr)) with
  | None => None
  | Some asset =>
      let resolutionTimestamp := (endDate (Types.market pr) / 1000)%Z in
      let endTime := endDate (Types.market pr) in
      let candleStartTime := calculateCandleStartTime endTime interval in
      let candleStartTimestamp := (candleStartTime / 1000)%Z in
      Some {| market := Types.market pr;
              marketPair := pr;
              interval := interval;
              asset := asset;
              resolutionTimestamp := resolutionTimestamp;
              candleStartTimestamp := candleStartTimestamp;
              referencePrice := None |}
  end.

(** [parseDescriptiveSlug]: the interval is read off the slug, one hour
    when it names none. *)
Definition parseDescriptiveSlug (pr : MarketPair) (slug : string)
    : option MarketInfo :=
  match assetOfSlug slug with
  | None => None
  | Some asset =>
      let interval :=
        if includes slug "-4h-" then I4h
        else if includes slug "-daily-" then I1d
        else I1h in
      let resolutionTimestamp := (endDate (Types.market pr) / 1000)%Z in
      let endTime := endDate (Types.market pr) in
      let candleStartTime := calculateCandleStartTime endTime interval in
      let candleStartTimestamp := (candleStartTime / 1000)%Z in
      Some {| market := Types.market pr;
              marketPair := pr;
              interval := interval;
              asset := asset;
              resolutionTimestamp := resolutionTimestamp;
              candleStartTimestamp := candleStartTimestamp;
              referencePrice := None |}
  end.

End Slugs.

End Cross.

(** ** [src/binanceApi.ts]: the candles of the price source

    A [Date] is its time value, an integer number of milliseconds; the
    getters and setters are those of the language specification ([Day],
    [HourFromTime], [MinFromTime], [MakeTime], [MakeDate]), in UTC. *)

Module Binance.

Import Types.

Definition msPerDay : Z := 86400000.
Definition msPerHour : Z := 3600000.
Definition msPerMinute : Z := 60000.

Definition Day (t : Z) : Z := t / msPerDay.
Definition HourFromTime (t : Z) : Z := (t / msPerHour) mod 24.
Definition MinFromTime (t : Z) : Z := (t / msPerMinute) mod 60.

Definition MakeTime (hour min sec ms : Z) : Z :=
  hour * msPerHour + min * msPerMinute + sec * 1000 + ms.

Definition MakeDate (day time : Z) : Z := day * msPerDay + time.

Definition getUTCMinutes (t : Z) : Z := MinFromTime t.
Definition getUTCHours (t : Z) : Z := HourFromTime t.

(** [d.setUTCMinutes(min, sec, ms)] and [d.setUTCHours(hour, min, sec, ms)]:
    the new time value. *)
Definition setUTCMinutes (t min sec ms : Z) : Z :=
  MakeDate (Day t) (MakeTime (HourFromTime t) min sec ms).

Definition setUTCHours (t hour min sec ms : Z) : Z :=
  MakeDate (Day t) (MakeTime hour min sec ms).

(** [getCurrentCandleStartTime], the clock reading [now] made explicit. *)
Definition getCurrentCandleStartTime (now : Z) (interval : BTCMarketInterval)
    : Z :=
  match interval with
  | I15m =>
      let mins := getUTCMinutes now / 15 * 15 in
      setUTCMinutes now mins 0 0
  | I30m =>
      let mins := getUTCMinutes now / 30 * 30 in
      setUTCMinutes now mins 0 0
  | I1h => setUTCMinutes now 0 0 0
  | I4h =>
      let hours := getUTCHours now / 4 * 4 in
      setUTCHours now hours 0 0 0
  | I1d => setUTCHours now 0 0 0 0
  end.

(** [calculateCandleStartTime] *)
Definition calculateCandleStartTime (endTime : Z) (interval : BTCMarketInterval)
    : Z :=
  match interval with
  | I15m => endTime - 15 * 60 * 1000
  | I30m => endTime - 30 * 60 * 1000
  | I1h => endTime - 60 * 60 * 1000
  | I4h => endTime - 4 * 60 * 60 * 1000
  | I1d => endTime - 24 * 60 * 60 * 1000
  end.

(** The length of a candle in milliseconds. *)
Definition candleLength (interval : BTCMarketInterval) : Z :=
  Cross.getIntervalSeconds interval * 1000.

End Binance.

(** ** [src/scanner.ts]: class [PolyArbScanner], the wiring *)

Module Scanner.

Import Types.

(** The [book] and [price] listeners hand the update to the detector; a
    [trade] event has no listener. *)
Definition onEvent (d : Arb.ArbitrageDetector) (now : Z) (event : WS.Event)
    : Arb.ArbitrageDetector * option Arb.ExtendedOpportunity :=
  match event with
  | WS.BookEvent update => Arb.updateFromWebSocket d now update
  | WS.PriceEvent update => Arb.updateFromWebSocket d now update
  | WS.TradeEvent _ _ _ _ => (d, None)
  end.

(** The detector after the events, and the opportunities handed to
    [handleOpportunity], in order. *)
Fixpoint onEvents (d : Arb.ArbitrageDetector) (now : Z) (events : list WS.Event)
    : Arb.ArbitrageDetector * list Arb.ExtendedOpportunity :=
  match events with
  | [] => (d, [])
  | event :: rest =>
      let '(d', opp) := onEvent d now event in
      let '(d'', opps) := onEvents d' now rest in
      (d'', match opp with Some opp => opp :: opps | None => opps end)
  end.

(** One message of the socket, from [handleMessage] to the detector. *)
Definition onMessage (parseFloat : string -> JsNum.number)
    (d : Arb.ArbitrageDetector) (now : Z) (message : WS.WSMessage)
    : Arb.ArbitrageDetector * list Arb.ExtendedOpportunity :=
  onEvents d now (WS.handleMessage parseFloat now message).

(** The loop of [connectWebSocket] over the batches. *)
Definition subscribeBatches (s : PolymarketWebSocket.t)
    (batches : list (list string))
    : PolymarketWebSocket.t * list PolymarketWebSocket.Sent :=
  fold_left
    (fun '(s, sent) batch =>
       let '(s', sent') := PolymarketWebSocket.subscribeToTokens s batch in
       (s', sent ++ sent'))
    batches (s, []).

(** [connectWebSocket], once the socket is open: the tokens of the
    detector are subscribed in batches of 100. *)
Definition connectWebSocket (d : Arb.ArbitrageDetector)
    (s : PolymarketWebSocket.t)
    : option (PolymarketWebSocket.t * list PolymarketWebSocket.Sent) :=
  let tokenIds := Arb.getAllTokenIds d in
  let batchSize := 100%nat in
  match JsArray.batchLoop (length tokenIds) tokenIds batchSize 0 with
  | Some batches => Some (subscribeBatches s batches)
  | None => None
  end.

(** The subscription step of the periodic refresh in [startMarketRefresh]:
    [getAllTokenIds().filter((id) => !getSubscribedCount())]. *)
Definition refreshSubscriptions (d : Arb.ArbitrageDetector)
    (s : PolymarketWebSocket.t)
    : PolymarketWebSocket.t * list PolymarketWebSocket.Sent :=
  let newTokens :=
    List.filter
      (fun id => Nat.eqb (PolymarketWebSocket.getSubscribedCount s) 0)
      (Arb.getAllTokenIds d) in
  if (0 <? length newTokens)%nat
  then PolymarketWebSocket.subscribeToTokens s newTokens
  else (s, []).

End Scanner.

(** ** Sample data: one binary market, and an hourly and a 15-minute
    market on the same asset *)

Module Sample.

Import JsNum Types.
#[local] Open Scope float_scope.

Definition gamma : GammaMarket :=
  {| id := "0xabc";
     slug := "will-it-rain";
     liquidityNum := 1000;
     endDate := 1735000200000 |}.

Definition binary : MarketPair :=
  {| market := gamma; yesTokenId := "yes"; noTokenId := "no" |}.

Definition conf : ScannerConfig :=
  {| minProfit := 0.005; minLiquidity := 500 |}.

Definition quote (ask askSize bid bidSize : option number) : TokenPrice :=
  {| bestAsk := ask;
     bestAskSize := askSize;
     bestBid := bid;
     bestBidSize := bidSize;
     lastUpdate := 0 |}.

Definition registered : Arb.ArbitrageDetector :=
  Arb.setMarketPairs (Arb.create conf) [binary].

Definition quoted (yes no : TokenPrice) : Arb.ArbitrageDetector :=
  Arb.withPrices registered (<["yes" := yes]> (<["no" := no]> ∅)).

(** asks 0.48 and 0.51, a hundred shares on each side *)
Definition cheapAsks : Arb.ArbitrageDetector :=
  quoted (quote (Some 0.48) (Some 100) None None)
         (quote (Some 0.51) (Some 100) None None).

(** the same asks, the size of the YES ask not a number *)
Definition nanSize : Arb.ArbitrageDetector :=
  quoted (quote (Some 0.48) (Some nan) None None)
         (quote (Some 0.51) (Some 100) None None).

(** bids 0.52 and 0.50, asks too dear for BUY_BOTH *)
Definition richBids : Arb.ArbitrageDetector :=
  quoted (quote (Some 0.53) (Some 40) (Some 0.52) (Some 30))
         (quote (Some 0.51) (Some 40) (Some 0.50) (Some 20)).

(** the same bids, the size of the YES bid not a number *)
Definition nanBidSize : Arb.ArbitrageDetector :=
  quoted (quote (Some 0.53) (Some 40) (Some 0.52) (Some nan))
         (quote (Some 0.51) (Some 40) (Some 0.50) (Some 20)).

(** a YES ask of exactly 0, a YES bid of exactly 0 *)
Definition zeroAsk : Arb.ArbitrageDetector :=
  quoted (quote (Some 0) (Some 100) (Some 0) (Some 100))
         (quote (Some 0.51) (Some 100) (Some 0.60) (Some 100)).

(** a stored record, a book with asks only, an update with a price only *)
Definition stored : TokenPrice :=
  quote (Some 0.40) (Some 10) (Some 0.30) (Some 5).

Definition storedPrices : gmap string TokenPrice :=
  <["yes" := stored]> ∅.

Definition asksOnly : OrderBook :=
  {| bids := [];
     asks := [ {| price := 0.45; size := 7 |}; {| price := 0.41; size := 3 |} ] |}.

Definition priceOnly : WS.ParsedBookUpdate :=
  {| WS.tokenId := "yes";
     WS.bestBid := None;
     WS.bestAsk := Some 0.42;
     WS.bestBidSize := None;
     WS.bestAskSize := None;
     WS.timestamp := 1735000000000 |}.

(** The hourly and the 15-minute market; [ts] is the resolution second. *)
Definition hourlyPair : MarketPair :=
  {| market := {| id := "0x1h"; slug := "bitcoin-up-or-down-december-23-10pm-et";
                  liquidityNum := 1000; endDate := 1735000200000 |};
     yesTokenId := "1h-up"; noTokenId := "1h-down" |}.

Definition quarterPair : MarketPair :=
  {| market := {| id := "0x15m"; slug := "btc-updown-15m-1734999300";
                  liquidityNum := 1000; endDate := 1735000200000 |};
     yesTokenId := "15m-up"; noTokenId := "15m-down" |}.

Definition info (pr : MarketPair) (i : BTCMarketInterval) (ts : Z)
    (ref : option number) : Cross.MarketInfo :=
  {| Cross.market := market pr;
     Cross.marketPair := pr;
     Cross.interval := i;
     Cross.asset := "btc";
     Cross.resolutionTimestamp := ts;
     Cross.candleStartTimestamp := (ts - Cross.getIntervalSeconds i)%Z;
     Cross.referencePrice := ref |}.

Definition hourly (ref : number) : Cross.MarketInfo :=
  info hourlyPair I1h 1735000200 (Some ref).

Definition quarter (ref : number) : Cross.MarketInfo :=
  info quarterPair I15m 1735000200 (Some ref).

Definition asks (longUp longDown shortUp shortDown : option number)
    : gmap string TokenPrice :=
  <["1h-up" := quote longUp None None None]>
    (<["1h-down" := quote longDown None None None]>
       (<["15m-up" := quote shortUp None None None]>
          (<["15m-down" := quote shortDown None None None]> ∅))).

(** long-DOWN at 0.40, short-UP at 0.55; the other two legs unquoted *)
Definition crossQuoted : Cross.CrossMarketDetector :=
  Cross.withPrices (Cross.create 0.001)
    (asks None (Some 0.40) (Some 0.55) None).

(** long-UP at 0.45, short-DOWN at 0.50 *)
Definition crossQuotedUp : Cross.CrossMarketDetector :=
  Cross.withPrices (Cross.create 0.001)
    (asks (Some 0.45) None None (Some 0.50)).

(** long-DOWN at -0.40, short-UP at 0.55 *)
Definition crossNegative : Cross.CrossMarketDetector :=
  Cross.withPrices (Cross.create 0.001)
    (asks None (Some (-0.40)) (Some 0.55) None).

(** long-DOWN at 0.40, the other three legs unquoted *)
Definition crossOneLeg : Cross.CrossMarketDetector :=
  Cross.withPrices (Cross.create 0.001)
    (asks None (Some 0.40) None None).

(** Two markets two seconds apart, on either side of a bucket boundary. *)
Definition jittered : Cross.CrossMarketDetector :=
  {| Cross.tokenPrices := ∅;
     Cross.marketInfos :=
       JsMap.set
         (JsMap.set JsMap.empty (slug (market hourlyPair))
            (info hourlyPair I1h 1735000349 None))
         (slug (market quarterPair))
         (info quarterPair I15m 1735000351 None);
     Cross.minProfit := 0.001;
     Cross.pricesLoaded := false;
     Cross.refPriceCache := ∅ |}.

(** A slug parser for the two sample markets, and a price source. *)
Definition parseSample (pr : MarketPair)
    : option (BTCMarketInterval * string * Z) :=
  if String.eqb (slug (market pr)) (slug (market hourlyPair))
  then Some (I1h, "btc"%string, 1734996600%Z)
  else if String.eqb (slug (market pr)) (slug (market quarterPair))
  then Some (I15m, "btc"%string, 1734999300%Z)
  else None.

(** The two sample markets as [setMarketPairs] registers them: both resolve
    at the second 1735000200. *)
Definition aligned : Cross.CrossMarketDetector :=
  Cross.setMarketPairs parseSample (Cross.create 0.001)
    [hourlyPair; quarterPair].

Definition fetchSample (asset : string) (i : BTCMarketInterval) (endTime : Z)
    : option number :=
  match i with
  | I1h => Some 100000
  | _ => None
  end.

Definition fetchOther (asset : string) (i : BTCMarketInterval) (endTime : Z)
    : option number :=
  Some 12345.

(** The markets are registered and the hourly one gets its reference
    price; later the hourly market is dropped and registered again, and the
    price source answers something else. *)
Definition firstLoad : list Cross.Op :=
  [Cross.SetMarketPairs [hourlyPair; quarterPair];
   Cross.LoadReferencePrices false fetchSample].

Definition laterCalls : list Cross.Op :=
  [Cross.SetMarketPairs [quarterPair];
   Cross.LoadReferencePrices true fetchOther;
   Cross.SetMarketPairs [hourlyPair; quarterPair];
   Cross.LoadReferencePrices true fetchOther].

(** a book whose levels are not listed best first *)
Definition shuffled : OrderBook :=
  {| Types.bids := [ {| price := 0.44; size := 10 |};
                     {| price := 0.47; size := 25 |} ];
     Types.asks := [ {| price := 0.52; size := 30 |};
                     {| price := 0.48; size := 100 |};
                     {| price := 0.50; size := 5 |} ] |}.

(** a streamed book, best levels first *)
Definition bookMessage : WS.BookUpdate :=
  {| WS.asset_id := "yes";
     WS.bids := [ {| price := 0.47; size := 25 |};
                  {| price := 0.44; size := 10 |} ];
     WS.asks := [ {| price := 0.48; size := 100 |};
                  {| price := 0.50; size := 5 |};
                  {| price := 0.52; size := 30 |} ];
     WS.msg_timestamp := 7 |}.

(** a socket that is open, nothing subscribed yet *)
Definition openSocket : PolymarketWebSocket.t :=
  fst (PolymarketWebSocket.onOpen
         (PolymarketWebSocket.connect PolymarketWebSocket.create)).

(** a second binary market, and a detector that tracks both with asks of
    0.48 + 0.51 on the first and 0.45 + 0.50 on the second *)
Definition other : MarketPair :=
  {| market := {| id := "0xdef";
                  slug := "will-it-snow";
                  liquidityNum := 2000;
                  endDate := 1735000200000 |};
     yesTokenId := "yes2";
     noTokenId := "no2" |}.

Definition twoMarkets : Arb.ArbitrageDetector :=
  Arb.withPrices (Arb.setMarketPairs (Arb.create conf) [binary; other])
    (<["yes" := quote (Some 0.48) (Some 100) None None]>
       (<["no" := quote (Some 0.51) (Some 100) None None]>
          (<["yes2" := quote (Some 0.45) (Some 60) None None]>
             (<["no2" := quote (Some 0.50) (Some 80) None None]> ∅)))).

(** the two sample markets registered, with reference prices 100000 and
    99000 and asks on the two legs of the zone between them *)
Definition fetchBoth (asset : string) (i : BTCMarketInterval) (endTime : Z)
    : option number :=
  match i with
  | I1h => Some 100000
  | _ => Some 99000
  end.

Definition live : Cross.CrossMarketDetector :=
  Cross.withPrices (Cross.loadReferencePrices aligned false fetchBoth)
    (asks None (Some 0.40) (Some 0.55) None).

End Sample.

(* ===================================================================== *)
(** * Part II: properties                                                  *)
(* ===================================================================== *)

(** ** Facts about JavaScript numbers *)

Module JsNumFacts.

Import JsNum.
#[local] Open Scope float_scope.

(** ** The order, through the specification of the primitives *)

Lemma SFcompare_antisym (x y : spec_float) :
  SFcompare y x = option_map CompOpp (SFcompare x y).
Proof.
  destruct x as [sx|sx| |sx mx ex], y as [sy|sy| |sy my ey]; simpl;
    try reflexivity;
    try (destruct sx; reflexivity);
    try (destruct sy; reflexivity);
    try (destruct sx, sy; reflexivity).
  destruct sx, sy; simpl; try reflexivity;
    rewrite (Z.compare_antisym ex ey);
    destruct (ex ?= ey)%Z; simpl; try reflexivity;
    rewrite (Pos.compare_cont_antisym mx my Eq); simpl;
    destruct (Pos.compare_cont Eq mx my); reflexivity.
Qed.

Lemma SFcompare_refl_not_nan (x : spec_float) :
  x <> S754_nan -> SFcompare x x = Some Eq.
Proof.
  destruct x as [s|s| |s m e]; simpl; try congruence.
  - destruct s; reflexivity.
  - intros _. destruct s; rewrite Z.compare_refl;
      rewrite Pos.compare_cont_refl; reflexivity.
Qed.

Lemma is_nan_spec (x : number) :
  isNaN x = true <-> Prim2SF x = S754_nan.
Proof.
  unfold isNaN, PrimFloat.is_nan. rewrite FloatAxioms.eqb_spec.
  unfold SFeqb. split.
  - intros H. destruct (Prim2SF x) eqn:E; try reflexivity;
      rewrite SFcompare_refl_not_nan in H by congruence; discriminate.
  - intros ->. reflexivity.
Qed.

Lemma is_nan_false_spec (x : number) :
  isNaN x = false <-> Prim2SF x <> S754_nan.
Proof.
  rewrite <- is_nan_spec. destruct (isNaN x); split; congruence.
Qed.

Lemma SFcompare_some (x y : spec_float) :
  x <> S754_nan -> y <> S754_nan -> exists c, SFcompare x y = Some c.
Proof.
  destruct x as [sx|sx| |sx mx ex], y as [sy|sy| |sy my ey]; simpl;
    intros; try congruence; eauto.
Qed.

Lemma SFcompare_none (x y : spec_float) :
  SFcompare x y = None -> x = S754_nan \/ y = S754_nan.
Proof.
  destruct x as [sx|sx| |sx mx ex], y as [sy|sy| |sy my ey]; simpl;
    intros; try discriminate; auto.
Qed.

(** [a < b] excludes NaN on both sides. *)
Lemma ltb_not_nan (a b : number) :
  (a <? b) = true -> isNaN a = false /\ isNaN b = false.
Proof.
  rewrite FloatAxioms.ltb_spec. unfold SFltb. intros H.
  rewrite !is_nan_false_spec.
  split; intros E; rewrite E in H; simpl in H;
    try discriminate.
  destruct (Prim2SF a); discriminate.
Qed.

Lemma leb_not_nan (a b : number) :
  (a <=? b) = true -> isNaN a = false /\ isNaN b = false.
Proof.
  rewrite FloatAxioms.leb_spec. unfold SFleb. intros H.
  rewrite !is_nan_false_spec.
  split; intros E; rewrite E in H; simpl in H;
    try discriminate.
  destruct (Prim2SF a); discriminate.
Qed.

(** [a < b] excludes [a === b] and [b < a]. *)
Lemma ltb_not_eqb (a b : number) :
  (a <? b) = true -> (a =? b) = false.
Proof.
  rewrite FloatAxioms.ltb_spec, FloatAxioms.eqb_spec.
  unfold SFltb, SFeqb.
  destruct (SFcompare (Prim2SF a) (Prim2SF b)) as [[]|]; congruence.
Qed.

Lemma ltb_asym (a b : number) :
  (a <? b) = true -> (b <? a) = false.
Proof.
  rewrite !FloatAxioms.ltb_spec. unfold SFltb.
  rewrite (SFcompare_antisym (Prim2SF a) (Prim2SF b)).
  destruct (SFcompare (Prim2SF a) (Prim2SF b)) as [[]|]; simpl; congruence.
Qed.

Lemma eqb_sym (a b : number) : (a =? b) = (b =? a).
Proof.
  rewrite !FloatAxioms.eqb_spec. unfold SFeqb.
  rewrite (SFcompare_antisym (Prim2SF a) (Prim2SF b)).
  destruct (SFcompare (Prim2SF a) (Prim2SF b)) as [[]|]; reflexivity.
Qed.

(** On numbers that are not NaN, [>=] is the complement of [<] and [>]
    the complement of [<=]. *)
Lemma ltb_false_geb (a b : number) :
  isNaN a = false -> isNaN b = false ->
  (a <? b) = negb (geb a b).
Proof.
  unfold geb. rewrite !is_nan_false_spec. intros Ha Hb.
  rewrite FloatAxioms.ltb_spec, FloatAxioms.leb_spec.
  unfold SFltb, SFleb.
  rewrite (SFcompare_antisym (Prim2SF a) (Prim2SF b)).
  destruct (SFcompare_some _ _ Ha Hb) as [c ->].
  destruct c; reflexivity.
Qed.

Lemma leb_false_gtb (a b : number) :
  isNaN a = false -> isNaN b = false ->
  (a <=? b) = negb (gtb a b).
Proof.
  unfold gtb. rewrite !is_nan_false_spec. intros Ha Hb.
  rewrite FloatAxioms.ltb_spec, FloatAxioms.leb_spec.
  unfold SFltb, SFleb.
  rewrite (SFcompare_antisym (Prim2SF a) (Prim2SF b)).
  destruct (SFcompare_some _ _ Ha Hb) as [c ->].
  destruct c; reflexivity.
Qed.

(** A strictly positive number is truthy. *)
Lemma pos_truthy (x : number) : (0 <? x) = true -> truthy x = true.
Proof.
  intros H. unfold truthy.
  destruct (ltb_not_nan _ _ H) as [_ ->].
  rewrite eqb_sym, (ltb_not_eqb _ _ H). reflexivity.
Qed.

Lemma truthy_not_nan (x : number) : truthy x = true -> isNaN x = false.
Proof.
  unfold truthy. destruct (x =? 0), (isNaN x); simpl; congruence.
Qed.

Lemma truthy_not_zero (x : number) : truthy x = true -> (x =? 0) = false.
Proof.
  unfold truthy. destruct (x =? 0), (isNaN x); simpl; congruence.
Qed.

Lemma zero_falsy (x : number) : (x =? 0) = true -> truthy x = false.
Proof. unfold truthy. intros ->. reflexivity. Qed.

Lemma nan_falsy (x : number) : isNaN x = true -> truthy x = false.
Proof. unfold truthy. intros ->. rewrite orb_true_r. reflexivity. Qed.


(** [a === b] on a number that is not zero is equality of the values. *)
Lemma eqb_true_eq (a b : number) :
  (a =? b) = true -> (a =? 0) = false -> a = b.
Proof.
  rewrite !FloatAxioms.eqb_spec. unfold SFeqb. intros H H0.
  apply Prim2SF_inj.
  assert (Hz : Prim2SF 0 = S754_zero false) by reflexivity.
  rewrite Hz in H0.
  destruct (Prim2SF a) as [sa|sa| |sa ma ea], (Prim2SF b) as [sb|sb| |sb mb eb];
    simpl in H, H0; try discriminate;
    try (destruct sa; discriminate);
    try (destruct sa, sb; simpl in H; try discriminate; reflexivity).
  destruct sa, sb; simpl in H; try discriminate;
    destruct (ea ?= eb)%Z eqn:He; try discriminate;
    apply Z.compare_eq in He; subst eb;
    destruct (Pos.compare_cont Eq ma mb) eqn:Hm; try discriminate;
    apply Pos.compare_eq in Hm; subst mb; reflexivity.
Qed.

(** A strictly positive number is a positive finite value or [+Infinity]. *)
Lemma pos_spec (x : number) :
  (0 <? x) = true ->
  (exists m e, Prim2SF x = S754_finite false m e)
  \/ Prim2SF x = S754_infinity false.
Proof.
  rewrite FloatAxioms.ltb_spec. unfold SFltb.
  assert (Hz : Prim2SF 0 = S754_zero false) by reflexivity.
  rewrite Hz.
  destruct (Prim2SF x) as [s|s| |s m e]; simpl; try discriminate.
  - destruct s; try discriminate. auto.
  - destruct s; try discriminate. eauto.
Qed.

(** *** Rounding never produces NaN *)

Lemma iter_pos_invariant {A : Type} (f : A -> A) (P : A -> Prop) :
  (forall x, P x -> P (f x)) ->
  forall (p : positive) (x : A), P x -> P (SpecFloat.iter_pos f p x).
Proof.
  intros Hf. induction p as [p IH|p IH|]; intros x Hx; simpl; auto.
Qed.

Lemma shr_1_nonneg (mrs : shr_record) :
  (0 <= shr_m mrs)%Z -> (0 <= shr_m (shr_1 mrs))%Z.
Proof.
  destruct mrs as [m r s]. simpl.
  destruct m as [|[p|p|]|p]; simpl; lia.
Qed.

Lemma shr_fexp_nonneg (prec emax m e : Z) (l : location) :
  (0 <= m)%Z -> (0 <= shr_m (fst (shr_fexp prec emax m e l)))%Z.
Proof.
  intros Hm. unfold shr_fexp, shr.
  assert (H0 : (0 <= shr_m (shr_record_of_loc m l))%Z).
  { destruct l as [|[]]; simpl; exact Hm. }
  destruct (fexp prec emax (Zdigits2 m + e) - e)%Z; simpl; auto.
  apply iter_pos_invariant; auto using shr_1_nonneg.
Qed.

Lemma round_nearest_even_nonneg (m : Z) (l : location) :
  (0 <= m)%Z -> (0 <= round_nearest_even m l)%Z.
Proof.
  intros Hm. destruct l as [|[]]; simpl; try lia.
  destruct (Z.even m); lia.
Qed.

Lemma binary_round_aux_not_nan (prec emax : Z) (sx : bool) (mx ex : Z)
    (lx : location) :
  (0 <= mx)%Z -> binary_round_aux prec emax sx mx ex lx <> S754_nan.
Proof.
  intros Hm. unfold binary_round_aux.
  pose proof (shr_fexp_nonneg prec emax mx ex lx Hm) as H1.
  destruct (shr_fexp prec emax mx ex lx) as [mrs' e']. simpl in H1.
  pose proof (shr_fexp_nonneg prec emax _ e' loc_Exact
                (round_nearest_even_nonneg _ (loc_of_shr_record mrs') H1)) as H2.
  destruct (shr_fexp prec emax
              (round_nearest_even (shr_m mrs') (loc_of_shr_record mrs')) e'
              loc_Exact) as [mrs'' e'']. simpl in H2.
  destruct (shr_m mrs'') as [|p|p]; try lia; try discriminate.
  destruct (e'' <=? emax - prec)%Z; discriminate.
Qed.

Lemma binary_normalize_not_nan (prec emax m e : Z) (szero : bool) :
  binary_normalize prec emax m e szero <> S754_nan.
Proof.
  unfold binary_normalize, binary_round.
  destruct m as [|p|p]; try discriminate.
  - destruct (shl_align p e _) as [mz ez].
    apply binary_round_aux_not_nan. lia.
  - destruct (shl_align p e _) as [mz ez].
    apply binary_round_aux_not_nan. lia.
Qed.

(** The sum of two strictly positive numbers is not NaN. *)
Lemma add_pos_not_nan (a b : number) :
  (0 <? a) = true -> (0 <? b) = true -> isNaN (a + b) = false.
Proof.
  intros Ha Hb. apply is_nan_false_spec.
  rewrite FloatAxioms.add_spec. unfold SF64add, SFadd.
  destruct (pos_spec a Ha) as [(ma & ea & ->)| ->],
           (pos_spec b Hb) as [(mb & eb & ->)| ->];
    cbv beta iota zeta; try discriminate.
  apply binary_normalize_not_nan.
Qed.

(** Subtracting from one, or subtracting one, keeps a number a number. *)
Lemma one_sub_not_nan (z : number) :
  isNaN z = false -> isNaN (1 - z) = false.
Proof.
  intros Hz. apply is_nan_false_spec. apply is_nan_false_spec in Hz.
  rewrite FloatAxioms.sub_spec. unfold SF64sub, SFsub.
  assert (H1 : Prim2SF 1 = S754_finite false 4503599627370496 (-52))
    by reflexivity.
  rewrite H1.
  destruct (Prim2SF z) as [s|s| |s m e]; cbv beta iota zeta;
    try discriminate; try congruence.
  apply binary_normalize_not_nan.
Qed.

Lemma sub_one_not_nan (z : number) :
  isNaN z = false -> isNaN (z - 1) = false.
Proof.
  intros Hz. apply is_nan_false_spec. apply is_nan_false_spec in Hz.
  rewrite FloatAxioms.sub_spec. unfold SF64sub, SFsub.
  assert (H1 : Prim2SF 1 = S754_finite false 4503599627370496 (-52))
    by reflexivity.
  rewrite H1.
  destruct (Prim2SF z) as [s|s| |s m e]; cbv beta iota zeta;
    try discriminate; try congruence.
  apply binary_normalize_not_nan.
Qed.

(** *** [Math.min] *)

Lemma Math_min_nan_l (b : number) : Math_min nan b = nan.
Proof. reflexivity. Qed.

Lemma Math_min_cases (a b : number) :
  isNaN a = false -> isNaN b = false ->
  Math_min a b = a \/ Math_min a b = b.
Proof.
  intros Ha Hb. unfold Math_min. rewrite Ha, Hb. simpl.
  destruct (a <? b); auto. destruct (b <? a); auto.
  destruct (get_sign a); auto.
Qed.

Lemma Math_min_not_nan (a b : number) :
  isNaN a = false -> isNaN b = false -> isNaN (Math_min a b) = false.
Proof.
  intros Ha Hb. destruct (Math_min_cases a b Ha Hb) as [-> | ->]; assumption.
Qed.

End JsNumFacts.

(** ** The insertion-ordered map and the sort *)

Module JsMapFacts.

Lemma get_set_eq {V : Type} (m : JsMap.t V) (k : string) (v : V) :
  JsMap.get (JsMap.set m k v) k = Some v.
Proof.
  induction m as [|[k' v'] m IH]; simpl.
  - rewrite String.eqb_refl. reflexivity.
  - destruct (String.eqb k' k) eqn:E; simpl; rewrite E; auto.
Qed.

Lemma get_set_ne {V : Type} (m : JsMap.t V) (k k0 : string) (v : V) :
  k <> k0 -> JsMap.get (JsMap.set m k v) k0 = JsMap.get m k0.
Proof.
  intros Hne. induction m as [|[k' v'] m IH]; simpl.
  - destruct (String.eqb k k0) eqn:E; auto.
    apply String.eqb_eq in E. contradiction.
  - destruct (String.eqb k' k) eqn:E; simpl.
    + apply String.eqb_eq in E. subst k'.
      destruct (String.eqb k k0) eqn:E0; auto.
      apply String.eqb_eq in E0. contradiction.
    + destruct (String.eqb k' k0); auto.
Qed.

Lemma get_In {V : Type} (m : JsMap.t V) (k : string) (v : V) :
  JsMap.get m k = Some v -> In (k, v) m.
Proof.
  induction m as [|[k' v'] m IH]; simpl; try discriminate.
  destruct (String.eqb k' k) eqn:E.
  - apply String.eqb_eq in E. intros [= ->]. subst. auto.
  - auto.
Qed.

Lemma In_get_NoDup {V : Type} (m : JsMap.t V) (k : string) (v : V) :
  List.NoDup (JsMap.keys m) -> In (k, v) m -> JsMap.get m k = Some v.
Proof.
  unfold JsMap.keys.
  induction m as [|[k' v'] m IH]; simpl; intros Hnd Hin; try contradiction.
  inversion Hnd as [|? ? Hnotin Hnd']; subst.
  destruct Hin as [[= -> ->]|Hin].
  - rewrite String.eqb_refl. reflexivity.
  - destruct (String.eqb k' k) eqn:E; auto.
    apply String.eqb_eq in E. subst k'.
    exfalso. apply Hnotin. apply (in_map fst) in Hin. exact Hin.
Qed.

Lemma keys_set {V : Type} (m : JsMap.t V) (k : string) (v : V) (k0 : string) :
  In k0 (JsMap.keys (JsMap.set m k v)) <-> k0 = k \/ In k0 (JsMap.keys m).
Proof.
  unfold JsMap.keys. induction m as [|[k' v'] m IH]; simpl.
  - intuition.
  - destruct (String.eqb k' k) eqn:E; simpl.
    + apply String.eqb_eq in E. subst k'. intuition.
    + rewrite IH. intuition.
Qed.

Lemma NoDup_set {V : Type} (m : JsMap.t V) (k : string) (v : V) :
  List.NoDup (JsMap.keys m) -> List.NoDup (JsMap.keys (JsMap.set m k v)).
Proof.
  induction m as [|[k' v'] m IH]; simpl; intros Hnd.
  - constructor; [simpl; tauto | constructor].
  - inversion Hnd as [|? ? Hnotin Hnd']; subst.
    destruct (String.eqb k' k) eqn:E; simpl.
    + constructor; assumption.
    + constructor; [|apply IH; assumption].
      intros Hin. apply (keys_set m k v) in Hin. destruct Hin as [->|Hin].
      * rewrite String.eqb_refl in E. discriminate.
      * apply Hnotin. exact Hin.
Qed.

(** An entry of the map after a [set] is the new one or an old one. *)
Lemma In_set {V : Type} (m : JsMap.t V) (k k0 : string) (v v0 : V) :
  In (k0, v0) (JsMap.set m k v) -> (k0 = k /\ v0 = v) \/ In (k0, v0) m.
Proof.
  induction m as [|[k' v'] m IH]; simpl.
  - intros [[= <- <-]|[]]. auto.
  - destruct (String.eqb k' k) eqn:E; simpl.
    + apply String.eqb_eq in E. subst k'.
      intros [[= <- <-]|Hin]; auto.
    + intros [Heq|Hin]; auto.
      destruct (IH Hin) as [?|?]; auto.
Qed.

End JsMapFacts.

Module JsArrayFacts.

Lemma In_sort_insert {A : Type} (cmp : A -> A -> JsNum.number) (x y : A)
    (l : list A) :
  In y (JsArray.sort_insert cmp x l) <-> y = x \/ In y l.
Proof.
  induction l as [|z l IH]; simpl.
  - intuition.
  - destruct (PrimFloat.ltb 0 (cmp x z)); simpl.
    + rewrite IH. intuition.
    + intuition.
Qed.

(** Sorting keeps the elements. *)
Lemma In_sort {A : Type} (cmp : A -> A -> JsNum.number) (y : A) (l : list A) :
  In y (JsArray.sort cmp l) <-> In y l.
Proof.
  unfold JsArray.sort. induction l as [|x l IH]; simpl.
  - tauto.
  - rewrite In_sort_insert, IH. intuition.
Qed.

End JsArrayFacts.

(** ** The price cache *)

Module PriceCacheFacts.

Import JsNum Types PriceCache.

Lemma nullish_idem {A : Type} (a b : option A) :
  nullish a (nullish a b) = nullish a b.
Proof. destruct a; reflexivity. Qed.

Lemma nullish_mergedOver (supplied old : option number) :
  mergedOver supplied old (nullish supplied old).
Proof.
  unfold mergedOver. split.
  - intros v ->. reflexivity.
  - intros ->. reflexivity.
Qed.

Lemma ofWebSocket_idem (update : WS.ParsedBookUpdate)
    (existing : option TokenPrice) :
  ofWebSocket update (Some (ofWebSocket update existing))
  = ofWebSocket update existing.
Proof.
  unfold ofWebSocket. simpl. rewrite !nullish_idem. reflexivity.
Qed.

(** C3, as the code has it.  The streaming path ([updateFromWebSocket])
    stores, for each of the four fields, the value the update supplies, or
    the stored value when the update supplies none; storing the same update
    twice is storing it once.  The snapshot path ([updateFromOrderBook]) is
    no merge: it stores the record of the book alone, whatever was stored,
    with [null] for the price and the size of a side the book does not
    have; storing the same book twice (at the same time) is storing it
    once. *)
Theorem price_cache_write_contract (prices : gmap string TokenPrice)
    (update : WS.ParsedBookUpdate) (tokenId : string) (book : OrderBook)
    (now : Z) :
  let existing := prices !! WS.tokenId update in
  let merged := ofWebSocket update existing in
  (applyWebSocket prices update !! WS.tokenId update = Some merged
   /\ mergedOver (WS.bestAsk update) (existing ≫= bestAsk) (bestAsk merged)
   /\ mergedOver (WS.bestAskSize update) (existing ≫= bestAskSize)
        (bestAskSize merged)
   /\ mergedOver (WS.bestBid update) (existing ≫= bestBid) (bestBid merged)
   /\ mergedOver (WS.bestBidSize update) (existing ≫= bestBidSize)
        (bestBidSize merged)
   /\ applyWebSocket (applyWebSocket prices update) update
      = applyWebSocket prices update)
  /\ (applyOrderBook prices tokenId book now !! tokenId
      = Some (ofOrderBook book now)
      /\ (Clob.getBestAsk book = None ->
          bestAsk (ofOrderBook book now) = None
          /\ bestAskSize (ofOrderBook book now) = None)
      /\ (Clob.getBestBid book = None ->
          bestBid (ofOrderBook book now) = None
          /\ bestBidSize (ofOrderBook book now) = None)
      /\ applyOrderBook (applyOrderBook prices tokenId book now)
           tokenId book now
         = applyOrderBook prices tokenId book now).
Proof.
  intros existing merged. split.
  - split; [|split; [|split; [|split; [|split]]]].
    + unfold applyWebSocket. apply lookup_insert_eq.
    + apply nullish_mergedOver.
    + apply nullish_mergedOver.
    + apply nullish_mergedOver.
    + apply nullish_mergedOver.
    + unfold applyWebSocket. rewrite lookup_insert_eq.
      rewrite ofWebSocket_idem. apply insert_insert_eq.
  - split; [|split; [|split]].
    + unfold applyOrderBook. apply lookup_insert_eq.
    + intros H. unfold ofOrderBook. rewrite H. simpl. auto.
    + intros H. unfold ofOrderBook. rewrite H. simpl. auto.
    + unfold applyOrderBook. apply insert_insert_eq.
Qed.

(** C3, as stated, fails on the snapshot path: a book without bids is an
    update that supplies no bid, and storing it erases the stored bid and
    its size. *)
Lemma snapshot_erases_stored_bid :
  Clob.getBestBid Sample.asksOnly = None
  /\ (Sample.storedPrices !! "yes") ≫= bestBid = Some 0.3%float
  /\ (applyOrderBook Sample.storedPrices "yes" Sample.asksOnly 5 !! "yes")
       ≫= bestBid = None
  /\ ~ mergedOver (option_map price (Clob.getBestBid Sample.asksOnly))
         ((Sample.storedPrices !! "yes") ≫= bestBid)
         ((applyOrderBook Sample.storedPrices "yes" Sample.asksOnly 5 !! "yes")
            ≫= bestBid)
  /\ ~ mergedOver (option_map size (Clob.getBestBid Sample.asksOnly))
         ((Sample.storedPrices !! "yes") ≫= bestBidSize)
         ((applyOrderBook Sample.storedPrices "yes" Sample.asksOnly 5 !! "yes")
            ≫= bestBidSize).
Proof.
  assert (Hbid : Clob.getBestBid Sample.asksOnly = None) by reflexivity.
  assert (Hold : (Sample.storedPrices !! "yes") ≫= bestBid = Some 0.3%float)
    by (vm_compute; reflexivity).
  assert (Hold' : (Sample.storedPrices !! "yes") ≫= bestBidSize = Some 5%float)
    by (vm_compute; reflexivity).
  assert (Hnew : (applyOrderBook Sample.storedPrices "yes" Sample.asksOnly 5
                    !! "yes") ≫= bestBid = None)
    by (vm_compute; reflexivity).
  assert (Hnew' : (applyOrderBook Sample.storedPrices "yes" Sample.asksOnly 5
                     !! "yes") ≫= bestBidSize = None)
    by (vm_compute; reflexivity).
  repeat split; try assumption.
  - rewrite Hbid, Hold, Hnew. intros [_ H]. specialize (H eq_refl).
    discriminate.
  - rewrite Hbid, Hold', Hnew'. intros [_ H]. specialize (H eq_refl).
    discriminate.
Qed.

End PriceCacheFacts.

(** ** The single-market detector *)

Module ArbFacts.

Import JsNum Types Arb JsNumFacts.
#[local] Open Scope float_scope.

(** The two checks return opportunities of their own type only. *)
Lemma checkBuyBoth_type (d : ArbitrageDetector) (now : Z) (tokenId : string)
    (o : ExtendedOpportunity) :
  checkBuyBothArbitrage d now tokenId = Some o -> type o = BUY_BOTH.
Proof.
  unfold checkBuyBothArbitrage. intros H.
  repeat match type of H with
         | match ?x with _ => _ end = Some _ => destruct x; try discriminate
         | (if ?c then _ else _) = Some _ => destruct c; try discriminate
         end.
  injection H as <-. reflexivity.
Qed.

Lemma checkSellBoth_type (d : ArbitrageDetector) (now : Z) (tokenId : string)
    (o : ExtendedOpportunity) :
  checkSellBothArbitrage d now tokenId = Some o -> type o = SELL_BOTH.
Proof.
  unfold checkSellBothArbitrage. intros H.
  repeat match type of H with
         | match ?x with _ => _ end = Some _ => destruct x; try discriminate
         | (if ?c then _ else _) = Some _ => destruct c; try discriminate
         end.
  injection H as <-. reflexivity.
Qed.

(** An evaluation returns a BUY_BOTH opportunity exactly when the BUY_BOTH
    check returns it, and a SELL_BOTH opportunity exactly when the BUY_BOTH
    check returns nothing and the SELL_BOTH check returns it. *)
Lemma checkAll_buy (d : ArbitrageDetector) (now : Z) (tokenId : string)
    (o : ExtendedOpportunity) :
  checkAllArbitrageTypes d now tokenId = Some o /\ type o = BUY_BOTH
  <-> checkBuyBothArbitrage d now tokenId = Some o.
Proof.
  unfold checkAllArbitrageTypes. split.
  - intros [H Ht].
    destruct (checkBuyBothArbitrage d now tokenId) as [b|] eqn:Eb; auto.
    destruct (checkSellBothArbitrage d now tokenId) as [s|] eqn:Es;
      try discriminate.
    injection H as ->. apply checkSellBoth_type in Es. congruence.
  - intros H. rewrite H. split; auto. eapply checkBuyBoth_type; eauto.
Qed.

Lemma checkAll_sell (d : ArbitrageDetector) (now : Z) (tokenId : string)
    (o : ExtendedOpportunity) :
  checkAllArbitrageTypes d now tokenId = Some o /\ type o = SELL_BOTH
  <-> checkBuyBothArbitrage d now tokenId = None
      /\ checkSellBothArbitrage d now tokenId = Some o.
Proof.
  unfold checkAllArbitrageTypes. split.
  - intros [H Ht].
    destruct (checkBuyBothArbitrage d now tokenId) as [b|] eqn:Eb.
    + injection H as ->. apply checkBuyBoth_type in Eb. congruence.
    + destruct (checkSellBothArbitrage d now tokenId) as [s|] eqn:Es;
        try discriminate.
      auto.
  - intros [Hb Hs]. rewrite Hb, Hs. split; auto.
    eapply checkSellBoth_type; eauto.
Qed.

(** The two update entry points evaluate the updated token on the cache
    they have just written. *)
Lemma updateFromOrderBook_evaluates (d : ArbitrageDetector) (now : Z)
    (tokenId : string) (book : OrderBook) :
  snd (updateFromOrderBook d now tokenId book)
  = checkAllArbitrageTypes (fst (updateFromOrderBook d now tokenId book))
      now tokenId.
Proof. reflexivity. Qed.

Lemma updateFromWebSocket_evaluates (d : ArbitrageDetector) (now : Z)
    (update : WS.ParsedBookUpdate) :
  snd (updateFromWebSocket d now update)
  = checkAllArbitrageTypes (fst (updateFromWebSocket d now update))
      now (WS.tokenId update).
Proof. reflexivity. Qed.

(** Every opportunity of a scan is the evaluation of a registered token. *)
Lemma scanLoop_In (d : ArbitrageDetector) (now : Z)
    (entries : list (string * MarketPair)) (checked : gset string)
    (o : ExtendedOpportunity) :
  In o (scanLoop d now entries checked) ->
  exists tokenId pr,
    In (tokenId, pr) entries
    /\ checkAllArbitrageTypes d now tokenId = Some o.
Proof.
  revert checked. induction entries as [|[tokenId pr] rest IH]; simpl;
    intros checked Hin; try contradiction.
  destruct (bool_decide (id (Types.market pr) ∈ checked)).
  - destruct (IH _ Hin) as (t & p & Ht & Hc). eauto.
  - destruct (checkAllArbitrageTypes d now tokenId) as [opp|] eqn:E.
    + destruct Hin as [<-|Hin]; [eauto|].
      destruct (IH _ Hin) as (t & p & Ht & Hc). eauto.
    + destruct (IH _ Hin) as (t & p & Ht & Hc). eauto.
Qed.

Lemma scanAllMarkets_In (d : ArbitrageDetector) (now : Z)
    (o : ExtendedOpportunity) :
  In o (scanAllMarkets d now) ->
  exists tokenId pr,
    In (tokenId, pr) (JsMap.entries (marketPairs d))
    /\ checkAllArbitrageTypes d now tokenId = Some o.
Proof.
  unfold scanAllMarkets. rewrite JsArrayFacts.In_sort. apply scanLoop_In.
Qed.

(** *** BUY_BOTH *)

Section BuyBoth.

Variables (d : ArbitrageDetector) (now : Z) (tokenId : string).
Variables (pr : MarketPair) (yesPrice noPrice : TokenPrice).
Variables (yesAsk noAsk : number).

Hypothesis Hregistered : JsMap.get (marketPairs d) tokenId = Some pr.
Hypothesis HyesPrice : tokenPrices d !! yesTokenId pr = Some yesPrice.
Hypothesis HnoPrice : tokenPrices d !! noTokenId pr = Some noPrice.
Hypothesis HyesAsk : bestAsk yesPrice = Some yesAsk.
Hypothesis HnoAsk : bestAsk noPrice = Some noAsk.

#[local] Abbreviation cost := (yesAsk + noAsk).
#[local] Abbreviation gain := (1 - cost).
#[local] Abbreviation yesSize := (default 0 (bestAskSize yesPrice)).
#[local] Abbreviation noSize := (default 0 (bestAskSize noPrice)).
#[local] Abbreviation shares := (Math_min yesSize noSize).

(** With both asks truthy, the check is its three gates in a row. *)
Lemma checkBuyBoth_gates :
  truthy yesAsk = true -> truthy noAsk = true ->
  checkBuyBothArbitrage d now tokenId
  = if gain <? minProfit (config d) then None
    else if liquidityNum (Types.market pr) <? minLiquidity (config d)
    then None
    else if shares <=? 0 then None
    else Some {| type := BUY_BOTH;
                 market := Types.market pr;
                 yesAskPrice := yesAsk;
                 noAskPrice := noAsk;
                 yesBidPrice := bestBid yesPrice;
                 noBidPrice := bestBid noPrice;
                 totalCost := cost;
                 profit := gain;
                 profitPercent := gain / cost;
                 yesAskSize := yesSize;
                 noAskSize := noSize;
                 yesBidSize := bestBidSize yesPrice;
                 noBidSize := bestBidSize noPrice;
                 maxShares := shares;
                 timestamp := now |}.
Proof.
  intros Hy Hn. unfold checkBuyBothArbitrage.
  rewrite Hregistered, HyesPrice, HnoPrice, HyesAsk, HnoAsk, Hy, Hn.
  reflexivity.
Qed.

(** A falsy ask on either side ends the check. *)
Lemma checkBuyBoth_falsy :
  truthy yesAsk = false \/ truthy noAsk = false ->
  checkBuyBothArbitrage d now tokenId = None.
Proof.
  intros H. unfold checkBuyBothArbitrage.
  rewrite Hregistered, HyesPrice, HnoPrice, HyesAsk, HnoAsk.
  destruct H as [-> | ->]; simpl; [reflexivity|].
  rewrite orb_true_r. reflexivity.
Qed.

(** For asks above zero, BUY_BOTH is returned exactly when none of the
    three rejections fires, and then with the stated figures. *)
Lemma buy_both_not_rejected :
  (0 <? yesAsk) = true -> (0 <? noAsk) = true ->
  ((exists o, checkAllArbitrageTypes d now tokenId = Some o
              /\ type o = BUY_BOTH)
   <-> (gain <? minProfit (config d)) = false
       /\ (liquidityNum (Types.market pr) <? minLiquidity (config d)) = false
       /\ (shares <=? 0) = false)
  /\ (forall o,
        checkAllArbitrageTypes d now tokenId = Some o -> type o = BUY_BOTH ->
        totalCost o = yesAsk + noAsk
        /\ profit o = 1 - totalCost o
        /\ profitPercent o = profit o / totalCost o
        /\ maxShares o = shares).
Proof.
  intros Hy Hn.
  pose proof (checkBuyBoth_gates (pos_truthy _ Hy) (pos_truthy _ Hn)) as Hg.
  split.
  - split.
    + intros (o & Ho & Ht).
      pose proof (proj1 (checkAll_buy d now tokenId o) (conj Ho Ht)) as Hb.
      clear Ho. rename Hb into Ho. rewrite Hg in Ho.
      destruct (gain <? minProfit (config d)); try discriminate.
      destruct (liquidityNum (Types.market pr) <? minLiquidity (config d));
        try discriminate.
      destruct (shares <=? 0); try discriminate.
      auto.
    + intros (H1 & H2 & H3). rewrite H1, H2, H3 in Hg.
      eexists. apply checkAll_buy. exact Hg.
  - intros o Ho Ht.
    pose proof (proj1 (checkAll_buy d now tokenId o) (conj Ho Ht)) as Hb.
    clear Ho. rename Hb into Ho. rewrite Hg in Ho.
    destruct (gain <? minProfit (config d)); try discriminate.
    destruct (liquidityNum (Types.market pr) <? minLiquidity (config d));
      try discriminate.
    destruct (shares <=? 0); try discriminate.
    injection Ho as <-. simpl. auto.
Qed.

End BuyBoth.

(** BUY_BOTH where no quantity is NaN.  Let a token be registered to a pair
    whose YES and NO tokens both have a cached best ask above zero, and let
    the two thresholds, the market's liquidity and the two ask sizes (a
    missing size counting as 0) be numbers, not NaN.  Then an evaluation returns a
    BUY_BOTH opportunity if and only if [1 - (yesAsk + noAsk) >= minProfit],
    [min(yesAskSize, noAskSize) > 0] and [liquidity >= minLiquidity]; the
    opportunity has [totalCost = yesAsk + noAsk], [profit = 1 - totalCost],
    [profitPercent = profit / totalCost] and
    [maxShares = min(yesAskSize, noAskSize)]. *)
Theorem buy_both_characterization (d : ArbitrageDetector) (now : Z)
    (tokenId : string) (pr : MarketPair) (yesPrice noPrice : TokenPrice)
    (yesAsk noAsk : number) :
  JsMap.get (marketPairs d) tokenId = Some pr ->
  tokenPrices d !! yesTokenId pr = Some yesPrice ->
  tokenPrices d !! noTokenId pr = Some noPrice ->
  bestAsk yesPrice = Some yesAsk ->
  bestAsk noPrice = Some noAsk ->
  gtb yesAsk 0 = true ->
  gtb noAsk 0 = true ->
  isNaN (minProfit (config d)) = false ->
  isNaN (minLiquidity (config d)) = false ->
  isNaN (liquidityNum (Types.market pr)) = false ->
  isNaN (default 0 (bestAskSize yesPrice)) = false ->
  isNaN (default 0 (bestAskSize noPrice)) = false ->
  ((exists o, checkAllArbitrageTypes d now tokenId = Some o
              /\ type o = BUY_BOTH)
   <-> geb (1 - (yesAsk + noAsk)) (minProfit (config d)) = true
       /\ gtb (Math_min (default 0 (bestAskSize yesPrice))
                 (default 0 (bestAskSize noPrice))) 0 = true
       /\ geb (liquidityNum (Types.market pr)) (minLiquidity (config d))
          = true)
  /\ (forall o,
        checkAllArbitrageTypes d now tokenId = Some o -> type o = BUY_BOTH ->
        totalCost o = yesAsk + noAsk
        /\ profit o = 1 - totalCost o
        /\ profitPercent o = profit o / totalCost o
        /\ maxShares o = Math_min (default 0 (bestAskSize yesPrice))
                           (default 0 (bestAskSize noPrice))).
Proof.
  intros Hreg Hyp Hnp Hya Hna Hy Hn Hmp Hml Hliq Hys Hns.
  unfold gtb in Hy, Hn.
  destruct (buy_both_not_rejected d now tokenId pr yesPrice noPrice
              yesAsk noAsk Hreg Hyp Hnp Hya Hna Hy Hn) as [Hiff Hfields].
  split; [|exact Hfields].
  rewrite Hiff.
  assert (Hgain : isNaN (1 - (yesAsk + noAsk)) = false).
  { apply one_sub_not_nan. apply add_pos_not_nan; assumption. }
  assert (Hmin : isNaN (Math_min (default 0 (bestAskSize yesPrice))
                          (default 0 (bestAskSize noPrice))) = false).
  { apply Math_min_not_nan; assumption. }
  assert (H0 : isNaN 0 = false) by reflexivity.
  rewrite (ltb_false_geb _ _ Hgain Hmp).
  rewrite (ltb_false_geb _ _ Hliq Hml).
  rewrite (leb_false_gtb _ _ Hmin H0).
  rewrite !negb_false_iff. tauto.
Qed.

Lemma buy_both_characterization_witness :
  ((exists o, checkAllArbitrageTypes Sample.cheapAsks 0 "yes" = Some o
              /\ type o = BUY_BOTH)
   <-> geb (1 - (0.48 + 0.51)) 0.005 = true
       /\ gtb (Math_min 100 100) 0 = true
       /\ geb 1000 500 = true)
  /\ (forall o,
        checkAllArbitrageTypes Sample.cheapAsks 0 "yes" = Some o ->
        type o = BUY_BOTH ->
        totalCost o = 0.48 + 0.51
        /\ profit o = 1 - totalCost o
        /\ profitPercent o = profit o / totalCost o
        /\ maxShares o = Math_min 100 100).
Proof.
  apply (buy_both_characterization Sample.cheapAsks 0 "yes" Sample.binary
           (Sample.quote (Some 0.48) (Some 100) None None)
           (Sample.quote (Some 0.51) (Some 100) None None) 0.48 0.51);
    reflexivity.
Defined.

(** C1.  The code at a size that is NaN: with asks 0.48 and 0.51 above
    zero, [Math.min(NaN, 100)] is NaN, [NaN <= 0] is false, and BUY_BOTH is
    returned with [maxShares = NaN], although [min(sizes) > 0] is false. *)
Lemma buy_both_returned_for_nan_size :
  JsMap.get (marketPairs Sample.nanSize) "yes" = Some Sample.binary
  /\ (tokenPrices Sample.nanSize !! "yes") ≫= bestAsk = Some 0.48
  /\ (tokenPrices Sample.nanSize !! "no") ≫= bestAsk = Some 0.51
  /\ (tokenPrices Sample.nanSize !! "yes") ≫= bestAskSize = Some nan
  /\ (tokenPrices Sample.nanSize !! "no") ≫= bestAskSize = Some 100
  /\ gtb 0.48 0 = true
  /\ gtb 0.51 0 = true
  /\ (exists o, checkAllArbitrageTypes Sample.nanSize 0 "yes" = Some o
                /\ type o = BUY_BOTH
                /\ maxShares o = nan)
  /\ gtb (Math_min nan 100) 0 = false.
Proof.
  repeat split; try reflexivity.
  eexists. repeat split; reflexivity.
Qed.

(** *** SELL_BOTH *)

Section SellBoth.

Variables (d : ArbitrageDetector) (now : Z) (tokenId : string).
Variables (pr : MarketPair) (yesPrice noPrice : TokenPrice).
Variables (yesBid noBid : number).

Hypothesis Hregistered : JsMap.get (marketPairs d) tokenId = Some pr.
Hypothesis HyesPrice : tokenPrices d !! yesTokenId pr = Some yesPrice.
Hypothesis HnoPrice : tokenPrices d !! noTokenId pr = Some noPrice.
Hypothesis HyesBid : bestBid yesPrice = Some yesBid.
Hypothesis HnoBid : bestBid noPrice = Some noBid.

#[local] Abbreviation gain := ((yesBid + noBid) - 1).
#[local] Abbreviation yesSize := (default 0 (bestBidSize yesPrice)).
#[local] Abbreviation noSize := (default 0 (bestBidSize noPrice)).
#[local] Abbreviation shares := (Math_min yesSize noSize).

Lemma checkSellBoth_gates :
  truthy yesBid = true -> truthy noBid = true ->
  checkSellBothArbitrage d now tokenId
  = if gain <? minProfit (config d) then None
    else if liquidityNum (Types.market pr) <? minLiquidity (config d)
    then None
    else if shares <=? 0 then None
    else Some {| type := SELL_BOTH;
                 market := Types.market pr;
                 yesAskPrice := default 0 (bestAsk yesPrice);
                 noAskPrice := default 0 (bestAsk noPrice);
                 yesBidPrice := Some yesBid;
                 noBidPrice := Some noBid;
                 totalCost := 1;
                 profit := gain;
                 profitPercent := gain;
                 yesAskSize := default 0 (bestAskSize yesPrice);
                 noAskSize := default 0 (bestAskSize noPrice);
                 yesBidSize := Some yesSize;
                 noBidSize := Some noSize;
                 maxShares := shares;
                 timestamp := now |}.
Proof.
  intros Hy Hn. unfold checkSellBothArbitrage.
  rewrite Hregistered, HyesPrice, HnoPrice, HyesBid, HnoBid, Hy, Hn.
  reflexivity.
Qed.

Lemma checkSellBoth_falsy :
  truthy yesBid = false \/ truthy noBid = false ->
  checkSellBothArbitrage d now tokenId = None.
Proof.
  intros H. unfold checkSellBothArbitrage.
  rewrite Hregistered, HyesPrice, HnoPrice, HyesBid, HnoBid.
  destruct H as [-> | ->]; simpl; [reflexivity|].
  rewrite orb_true_r. reflexivity.
Qed.

End SellBoth.

(** SELL_BOTH where the threshold is a number.  Let a token be registered
    to a pair whose YES and NO tokens both have a cached best bid above
    zero, and let the profit threshold be a number.  Then an evaluation returns a SELL_BOTH opportunity if and only
    if [(yesBid + noBid) - 1 >= minProfit], the size gate and the liquidity
    gate do not reject, and the BUY_BOTH check returned nothing; whatever
    the BUY_BOTH check returns is the result, so no evaluation returns
    both.  The opportunity has [profit = (yesBid + noBid) - 1],
    [totalCost = 1] and [profitPercent = profit]. *)
Theorem sell_both_characterization (d : ArbitrageDetector) (now : Z)
    (tokenId : string) (pr : MarketPair) (yesPrice noPrice : TokenPrice)
    (yesBid noBid : number) :
  JsMap.get (marketPairs d) tokenId = Some pr ->
  tokenPrices d !! yesTokenId pr = Some yesPrice ->
  tokenPrices d !! noTokenId pr = Some noPrice ->
  bestBid yesPrice = Some yesBid ->
  bestBid noPrice = Some noBid ->
  gtb yesBid 0 = true ->
  gtb noBid 0 = true ->
  isNaN (minProfit (config d)) = false ->
  ((exists o, checkAllArbitrageTypes d now tokenId = Some o
              /\ type o = SELL_BOTH)
   <-> geb ((yesBid + noBid) - 1) (minProfit (config d)) = true
       /\ (Math_min (default 0 (bestBidSize yesPrice))
             (default 0 (bestBidSize noPrice)) <=? 0) = false
       /\ (liquidityNum (Types.market pr) <? minLiquidity (config d)) = false
       /\ checkBuyBothArbitrage d now tokenId = None)
  /\ (forall o,
        checkAllArbitrageTypes d now tokenId = Some o -> type o = SELL_BOTH ->
        profit o = (yesBid + noBid) - 1
        /\ totalCost o = 1
        /\ profitPercent o = profit o
        /\ maxShares o = Math_min (default 0 (bestBidSize yesPrice))
                           (default 0 (bestBidSize noPrice)))
  /\ (forall b,
        checkBuyBothArbitrage d now tokenId = Some b ->
        checkAllArbitrageTypes d now tokenId = Some b /\ type b = BUY_BOTH).
Proof.
  intros Hreg Hyp Hnp Hyb Hnb Hy Hn Hmp. unfold gtb in Hy, Hn.
  pose proof (checkSellBoth_gates d now tokenId pr yesPrice noPrice
                yesBid noBid Hreg Hyp Hnp Hyb Hnb
                (pos_truthy _ Hy) (pos_truthy _ Hn)) as Hg.
  assert (Hgain : isNaN ((yesBid + noBid) - 1) = false).
  { apply sub_one_not_nan. apply add_pos_not_nan; assumption. }
  rewrite <- (negb_false_iff (geb _ _)), <- (ltb_false_geb _ _ Hgain Hmp).
  split; [|split].
  - split.
    + intros (o & Ho & Ht).
      destruct (proj1 (checkAll_sell d now tokenId o) (conj Ho Ht))
        as [Hbuy Hsell].
      rewrite Hg in Hsell.
      destruct (((yesBid + noBid) - 1) <? minProfit (config d));
        try discriminate.
      destruct (liquidityNum (Types.market pr) <? minLiquidity (config d));
        try discriminate.
      destruct (Math_min _ _ <=? 0); try discriminate.
      auto.
    + intros (H1 & H2 & H3 & Hbuy). rewrite H1, H2, H3 in Hg.
      eexists. apply checkAll_sell. split; [exact Hbuy | exact Hg].
  - intros o Ho Ht.
    destruct (proj1 (checkAll_sell d now tokenId o) (conj Ho Ht))
      as [Hbuy Hsell].
    rewrite Hg in Hsell.
    destruct (((yesBid + noBid) - 1) <? minProfit (config d));
      try discriminate.
    destruct (liquidityNum (Types.market pr) <? minLiquidity (config d));
      try discriminate.
    destruct (Math_min _ _ <=? 0); try discriminate.
    injection Hsell as <-. simpl. auto.
  - intros b Hb. apply (checkAll_buy d now tokenId b). exact Hb.
Qed.

Lemma sell_both_characterization_witness :
  ((exists o, checkAllArbitrageTypes Sample.richBids 0 "no" = Some o
              /\ type o = SELL_BOTH)
   <-> geb ((0.52 + 0.50) - 1) 0.005 = true
       /\ (Math_min 30 20 <=? 0) = false
       /\ (1000 <? 500) = false
       /\ checkBuyBothArbitrage Sample.richBids 0 "no" = None)
  /\ (forall o,
        checkAllArbitrageTypes Sample.richBids 0 "no" = Some o ->
        type o = SELL_BOTH ->
        profit o = (0.52 + 0.50) - 1
        /\ totalCost o = 1
        /\ profitPercent o = profit o
        /\ maxShares o = Math_min 30 20)
  /\ (forall b,
        checkBuyBothArbitrage Sample.richBids 0 "no" = Some b ->
        checkAllArbitrageTypes Sample.richBids 0 "no" = Some b
        /\ type b = BUY_BOTH).
Proof.
  apply (sell_both_characterization Sample.richBids 0 "no" Sample.binary
           (Sample.quote (Some 0.53) (Some 40) (Some 0.52) (Some 30))
           (Sample.quote (Some 0.51) (Some 40) (Some 0.50) (Some 20))
           0.52 0.50);
    reflexivity.
Defined.

(** C5.  The code at a size that is NaN: with bids 0.52 and 0.50 above
    zero, a gain of [(0.52 + 0.50) - 1] above the threshold 0.005, enough
    liquidity and no BUY_BOTH, [Math.min(NaN, 20)] is NaN, [NaN <= 0] is
    false, and SELL_BOTH is returned with [maxShares = NaN], although
    [min(sizes) > 0] is false. *)
Lemma sell_both_returned_for_nan_size :
  JsMap.get (marketPairs Sample.nanBidSize) "no" = Some Sample.binary
  /\ (tokenPrices Sample.nanBidSize !! "yes") ≫= bestBid = Some 0.52
  /\ (tokenPrices Sample.nanBidSize !! "no") ≫= bestBid = Some 0.50
  /\ (tokenPrices Sample.nanBidSize !! "yes") ≫= bestBidSize = Some nan
  /\ (tokenPrices Sample.nanBidSize !! "no") ≫= bestBidSize = Some 20
  /\ gtb 0.52 0 = true
  /\ gtb 0.50 0 = true
  /\ geb ((0.52 + 0.50) - 1) (minProfit (config Sample.nanBidSize)) = true
  /\ geb (liquidityNum (Types.market Sample.binary))
         (minLiquidity (config Sample.nanBidSize)) = true
  /\ checkBuyBothArbitrage Sample.nanBidSize 0 "no" = None
  /\ (exists o, checkAllArbitrageTypes Sample.nanBidSize 0 "no" = Some o
                /\ type o = SELL_BOTH
                /\ maxShares o = nan)
  /\ gtb (Math_min nan 20) 0 = false.
Proof.
  repeat split; try reflexivity.
  eexists. repeat split; reflexivity.
Qed.

(** *** A price of exactly zero *)

Lemma checkBuyBoth_Some_inv (d : ArbitrageDetector) (now : Z)
    (tokenId : string) (o : ExtendedOpportunity) :
  checkBuyBothArbitrage d now tokenId = Some o ->
  exists pr yesPrice noPrice yesAsk noAsk,
    JsMap.get (marketPairs d) tokenId = Some pr
    /\ tokenPrices d !! yesTokenId pr = Some yesPrice
    /\ tokenPrices d !! noTokenId pr = Some noPrice
    /\ bestAsk yesPrice = Some yesAsk
    /\ bestAsk noPrice = Some noAsk
    /\ truthy yesAsk = true
    /\ truthy noAsk = true.
Proof.
  unfold checkBuyBothArbitrage. intros H.
  destruct (JsMap.get (marketPairs d) tokenId) as [pr|] eqn:Er;
    try discriminate.
  destruct (tokenPrices d !! yesTokenId pr) as [yp|] eqn:Ey; try discriminate.
  destruct (tokenPrices d !! noTokenId pr) as [np|] eqn:En; try discriminate.
  destruct (bestAsk yp) as [ya|] eqn:Eya; try discriminate.
  destruct (bestAsk np) as [na|] eqn:Ena; try discriminate.
  destruct (truthy ya) eqn:Ty; simpl in H; try discriminate.
  destruct (truthy na) eqn:Tn; simpl in H; try discriminate.
  exists pr, yp, np, ya, na. repeat split; auto.
Qed.

Lemma checkSellBoth_Some_inv (d : ArbitrageDetector) (now : Z)
    (tokenId : string) (o : ExtendedOpportunity) :
  checkSellBothArbitrage d now tokenId = Some o ->
  exists pr yesPrice noPrice yesBid noBid,
    JsMap.get (marketPairs d) tokenId = Some pr
    /\ tokenPrices d !! yesTokenId pr = Some yesPrice
    /\ tokenPrices d !! noTokenId pr = Some noPrice
    /\ bestBid yesPrice = Some yesBid
    /\ bestBid noPrice = Some noBid
    /\ truthy yesBid = true
    /\ truthy noBid = true.
Proof.
  unfold checkSellBothArbitrage. intros H.
  destruct (JsMap.get (marketPairs d) tokenId) as [pr|] eqn:Er;
    try discriminate.
  destruct (tokenPrices d !! yesTokenId pr) as [yp|] eqn:Ey; try discriminate.
  destruct (tokenPrices d !! noTokenId pr) as [np|] eqn:En; try discriminate.
  destruct (bestBid yp) as [yb|] eqn:Eyb; try discriminate.
  destruct (bestBid np) as [nb|] eqn:Enb; try discriminate.
  destruct (truthy yb) eqn:Ty; simpl in H; try discriminate.
  destruct (truthy nb) eqn:Tn; simpl in H; try discriminate.
  exists pr, yp, np, yb, nb. repeat split; auto.
Qed.

(** C10.  For a token registered to a pair: when the cached best ask of
    the YES or of the NO token is exactly 0, the BUY_BOTH check returns
    nothing and no evaluation returns a BUY_BOTH opportunity; when the
    cached best bid of either token is exactly 0, the same holds of
    SELL_BOTH. *)
Theorem zero_price_is_missing (d : ArbitrageDetector) (now : Z)
    (tokenId : string) (pr : MarketPair) (p : TokenPrice) (zero : number) :
  JsMap.get (marketPairs d) tokenId = Some pr ->
  tokenPrices d !! yesTokenId pr = Some p
  \/ tokenPrices d !! noTokenId pr = Some p ->
  (zero =? 0) = true ->
  (bestAsk p = Some zero ->
   checkBuyBothArbitrage d now tokenId = None
   /\ forall o, checkAllArbitrageTypes d now tokenId = Some o ->
                type o <> BUY_BOTH)
  /\ (bestBid p = Some zero ->
      checkSellBothArbitrage d now tokenId = None
      /\ forall o, checkAllArbitrageTypes d now tokenId = Some o ->
                   type o <> SELL_BOTH).
Proof.
  intros Hreg Hp Hz. apply zero_falsy in Hz. split.
  - intros Hask.
    assert (Hnone : checkBuyBothArbitrage d now tokenId = None).
    { destruct (checkBuyBothArbitrage d now tokenId) as [o|] eqn:E; auto.
      apply checkBuyBoth_Some_inv in E.
      destruct E as (pr' & yp & np & ya & na & Hr & Hy & Hn & Hya & Hna
                     & Ty & Tn).
      rewrite Hreg in Hr. injection Hr as <-.
      destruct Hp as [Hp|Hp]; congruence. }
    split; [exact Hnone|].
    intros o Ho Ht.
    pose proof (proj1 (checkAll_buy d now tokenId o) (conj Ho Ht)).
    congruence.
  - intros Hbid.
    assert (Hnone : checkSellBothArbitrage d now tokenId = None).
    { destruct (checkSellBothArbitrage d now tokenId) as [o|] eqn:E; auto.
      apply checkSellBoth_Some_inv in E.
      destruct E as (pr' & yp & np & yb & nb & Hr & Hy & Hn & Hyb & Hnb
                     & Ty & Tn).
      rewrite Hreg in Hr. injection Hr as <-.
      destruct Hp as [Hp|Hp]; congruence. }
    split; [exact Hnone|].
    intros o Ho Ht.
    destruct (proj1 (checkAll_sell d now tokenId o) (conj Ho Ht)).
    congruence.
Qed.

Lemma zero_price_is_missing_witness :
  (bestAsk (Sample.quote (Some 0) (Some 100) (Some 0) (Some 100)) = Some 0 ->
   checkBuyBothArbitrage Sample.zeroAsk 0 "no" = None
   /\ forall o, checkAllArbitrageTypes Sample.zeroAsk 0 "no" = Some o ->
                type o <> BUY_BOTH)
  /\ (bestBid (Sample.quote (Some 0) (Some 100) (Some 0) (Some 100)) = Some 0 ->
      checkSellBothArbitrage Sample.zeroAsk 0 "no" = None
      /\ forall o, checkAllArbitrageTypes Sample.zeroAsk 0 "no" = Some o ->
                   type o <> SELL_BOTH).
Proof.
  apply (zero_price_is_missing Sample.zeroAsk 0 "no" Sample.binary
           (Sample.quote (Some 0) (Some 100) (Some 0) (Some 100)) 0).
  - reflexivity.
  - left. reflexivity.
  - reflexivity.
Defined.

End ArbFacts.

(** ** The cross-market detector: evaluation of a pair *)

Module CrossFacts.

Import JsNum Types Cross JsNumFacts.
#[local] Open Scope float_scope.

(** *** Long and short *)

Lemma intervalOrder_inj (i j : BTCMarketInterval) :
  intervalOrder i = intervalOrder j -> i = j.
Proof. destruct i, j; simpl; intros H; try reflexivity; discriminate. Qed.

Lemma interval_eqb_eq (i j : BTCMarketInterval) :
  interval_eqb i j = true <-> i = j.
Proof. destruct i, j; simpl; split; intros H; congruence. Qed.

Lemma interval_eqb_sym (i j : BTCMarketInterval) :
  interval_eqb i j = interval_eqb j i.
Proof. destruct i, j; reflexivity. Qed.

Lemma long_short_swap (a b : MarketInfo) :
  interval a <> interval b ->
  longOf a b = longOf b a /\ shortOf a b = shortOf b a.
Proof.
  intros Hne. unfold longOf, shortOf.
  destruct (Z.ltb_spec (intervalOrder (interval b)) (intervalOrder (interval a)))
    as [H1|H1];
    destruct (Z.ltb_spec (intervalOrder (interval a))
                (intervalOrder (interval b))) as [H2|H2];
    auto; try lia.
  exfalso. apply Hne. apply intervalOrder_inj. lia.
Qed.

Lemma long_is_larger (a b : MarketInfo) :
  interval a <> interval b ->
  (intervalOrder (interval (shortOf a b))
   < intervalOrder (interval (longOf a b)))%Z.
Proof.
  intros Hne. unfold longOf, shortOf.
  destruct (Z.ltb_spec (intervalOrder (interval b)) (intervalOrder (interval a)))
    as [H1|H1]; auto.
  assert (intervalOrder (interval a) <> intervalOrder (interval b)).
  { intros E. apply Hne. apply intervalOrder_inj. exact E. }
  lia.
Qed.

(** *** The ask of a leg *)

Lemma askOrZero_missing (p : option TokenPrice) :
  p ≫= bestAsk = None
  \/ (exists ask, p ≫= bestAsk = Some ask
                  /\ ((ask =? 0) = true \/ isNaN ask = true)) ->
  askOrZero p = 0.
Proof.
  unfold askOrZero. intros [H | (ask & H & [Hz|Hn])]; rewrite H; auto.
  - rewrite (zero_falsy _ Hz). reflexivity.
  - rewrite (nan_falsy _ Hn). reflexivity.
Qed.

Lemma askOrZero_pos (p : option TokenPrice) (tp : TokenPrice) (ask : number) :
  p = Some tp -> bestAsk tp = Some ask -> (0 <? ask) = true ->
  askOrZero p = ask.
Proof.
  intros -> Hask Hpos. unfold askOrZero. simpl. rewrite Hask.
  rewrite (pos_truthy _ Hpos).
  destruct (ltb_not_nan _ _ Hpos) as [_ ->]. reflexivity.
Qed.

Lemma askOrZero_pos_inv (p : option TokenPrice) :
  (0 <? askOrZero p) = true ->
  exists tp ask,
    p = Some tp /\ bestAsk tp = Some ask /\ askOrZero p = ask.
Proof.
  unfold askOrZero. destruct p as [tp|]; simpl.
  - destruct (bestAsk tp) as [ask|] eqn:E.
    + destruct (truthy ask && negb (isNaN ask)); intros H.
      * eauto.
      * discriminate.
    + intros H. discriminate.
  - intros H. discriminate.
Qed.

(** *** The three branches *)

Section Plan.

Variables (prices : gmap string TokenPrice) (longInfo shortInfo : MarketInfo).
Variables (longRef shortRef : number).

#[local] Abbreviation longUpPrice := (prices !! yesTokenId (marketPair longInfo)).
#[local] Abbreviation longDownPrice := (prices !! noTokenId (marketPair longInfo)).
#[local] Abbreviation shortUpPrice := (prices !! yesTokenId (marketPair shortInfo)).
#[local] Abbreviation shortDownPrice := (prices !! noTokenId (marketPair shortInfo)).

Lemma zonePlan_identical :
  (longRef =? shortRef) = true ->
  zonePlan prices longInfo shortInfo longRef shortRef
  = {| plan_strategy := LONG_DOWN_SHORT_UP;
       plan_profitZoneLow := longRef;
       plan_profitZoneHigh := longRef;
       plan_entryCost := askOrZero longDownPrice + askOrZero shortUpPrice;
       plan_hasBothPrices :=
         (0 <? askOrZero longDownPrice) && (0 <? askOrZero shortUpPrice);
       plan_maxShares :=
         Math_min (sizeOrDefault longDownPrice) (sizeOrDefault shortUpPrice) |}.
Proof. intros H. unfold zonePlan. rewrite H. reflexivity. Qed.

Lemma zonePlan_long_above :
  gtb longRef shortRef = true ->
  zonePlan prices longInfo shortInfo longRef shortRef
  = {| plan_strategy := LONG_DOWN_SHORT_UP;
       plan_profitZoneLow := shortRef;
       plan_profitZoneHigh := longRef;
       plan_entryCost := askOrZero longDownPrice + askOrZero shortUpPrice;
       plan_hasBothPrices :=
         (0 <? askOrZero longDownPrice) && (0 <? askOrZero shortUpPrice);
       plan_maxShares :=
         Math_min (sizeOrDefault longDownPrice) (sizeOrDefault shortUpPrice) |}.
Proof.
  unfold gtb. intros H. unfold zonePlan.
  rewrite eqb_sym, (ltb_not_eqb _ _ H), H. reflexivity.
Qed.

Lemma zonePlan_short_above :
  gtb shortRef longRef = true ->
  zonePlan prices longInfo shortInfo longRef shortRef
  = {| plan_strategy := LONG_UP_SHORT_DOWN;
       plan_profitZoneLow := longRef;
       plan_profitZoneHigh := shortRef;
       plan_entryCost := askOrZero longUpPrice + askOrZero shortDownPrice;
       plan_hasBothPrices :=
         (0 <? askOrZero longUpPrice) && (0 <? askOrZero shortDownPrice);
       plan_maxShares :=
         Math_min (sizeOrDefault longUpPrice) (sizeOrDefault shortDownPrice) |}.
Proof.
  unfold gtb. intros H. unfold zonePlan.
  rewrite (ltb_not_eqb _ _ H), (ltb_asym _ _ H). reflexivity.
Qed.

(** Whatever the branch, the entry cost is the sum of the asks of the two
    legs of the strategy, and the flag says both are above zero. *)
Lemma zonePlan_legs :
  let plan := zonePlan prices longInfo shortInfo longRef shortRef in
  let leg1 := match plan_strategy plan with
              | LONG_DOWN_SHORT_UP => longDownPrice
              | LONG_UP_SHORT_DOWN => longUpPrice
              end in
  let leg2 := match plan_strategy plan with
              | LONG_DOWN_SHORT_UP => shortUpPrice
              | LONG_UP_SHORT_DOWN => shortDownPrice
              end in
  plan_entryCost plan = askOrZero leg1 + askOrZero leg2
  /\ plan_hasBothPrices plan = (0 <? askOrZero leg1) && (0 <? askOrZero leg2).
Proof.
  unfold zonePlan.
  destruct (longRef =? shortRef); [simpl; auto|].
  destruct (shortRef <? longRef); simpl; auto.
Qed.

End Plan.

(** *** The gates of [checkPairForArbitrage] *)

Lemma checkPair_gates (d : CrossMarketDetector) (now : Z)
    (info1 info2 : MarketInfo) (longRef shortRef : number) :
  let longInfo := longOf info1 info2 in
  let shortInfo := shortOf info1 info2 in
  let plan := zonePlan (tokenPrices d) longInfo shortInfo longRef shortRef in
  let identicalRefs := longRef =? shortRef in
  let gain := if identicalRefs then - plan_entryCost plan
              else 2 - plan_entryCost plan in
  referencePrice longInfo = Some longRef ->
  referencePrice shortInfo = Some shortRef ->
  truthy longRef = true ->
  truthy shortRef = true ->
  exists opp,
    checkPairForArbitrage d now info1 info2
    = (if negb (plan_hasBothPrices plan) then None
       else if negb identicalRefs && (gain <? minProfit d) then None
       else Some opp)
    /\ longRefPrice opp = longRef
    /\ shortRefPrice opp = shortRef
    /\ strategy opp = plan_strategy plan
    /\ profitZoneLow opp = plan_profitZoneLow plan
    /\ profitZoneHigh opp = plan_profitZoneHigh plan
    /\ entryCost opp = plan_entryCost plan
    /\ maxProfit opp = gain
    /\ profitZoneWidth opp = profitZoneHigh opp - profitZoneLow opp
    /\ profitZonePercent opp
       = profitZoneWidth opp / ((longRef + shortRef) / 2) * 100
    /\ longUpTokenId opp = yesTokenId (marketPair longInfo)
    /\ longDownTokenId opp = noTokenId (marketPair longInfo)
    /\ shortUpTokenId opp = yesTokenId (marketPair shortInfo)
    /\ shortDownTokenId opp = noTokenId (marketPair shortInfo)
    /\ longMarket opp = market longInfo
    /\ shortMarket opp = market shortInfo.
Proof.
  intros longInfo shortInfo plan identicalRefs gain Hl Hs Tl Ts.
  unfold checkPairForArbitrage.
  fold longInfo shortInfo. rewrite Hl, Hs, Tl, Ts. simpl.
  fold plan. fold identicalRefs. fold gain.
  eexists. split; [reflexivity|].
  simpl. repeat split; reflexivity.
Qed.

(** What a returned opportunity tells about the evaluation. *)
Lemma checkPair_Some_inv (d : CrossMarketDetector) (now : Z)
    (info1 info2 : MarketInfo) (opp : CrossMarketOpportunity) :
  checkPairForArbitrage d now info1 info2 = Some opp ->
  let longInfo := longOf info1 info2 in
  let shortInfo := shortOf info1 info2 in
  let longRef := longRefPrice opp in
  let shortRef := shortRefPrice opp in
  let plan := zonePlan (tokenPrices d) longInfo shortInfo longRef shortRef in
  referencePrice longInfo = Some longRef
  /\ referencePrice shortInfo = Some shortRef
  /\ truthy longRef = true
  /\ truthy shortRef = true
  /\ plan_hasBothPrices plan = true
  /\ strategy opp = plan_strategy plan
  /\ profitZoneLow opp = plan_profitZoneLow plan
  /\ profitZoneHigh opp = plan_profitZoneHigh plan
  /\ entryCost opp = plan_entryCost plan
  /\ maxProfit opp = (if longRef =? shortRef then - entryCost opp
                      else 2 - entryCost opp)
  /\ profitZoneWidth opp = profitZoneHigh opp - profitZoneLow opp
  /\ profitZonePercent opp
     = profitZoneWidth opp / ((longRef + shortRef) / 2) * 100
  /\ longUpTokenId opp = yesTokenId (marketPair longInfo)
  /\ longDownTokenId opp = noTokenId (marketPair longInfo)
  /\ shortUpTokenId opp = yesTokenId (marketPair shortInfo)
  /\ shortDownTokenId opp = noTokenId (marketPair shortInfo).
Proof.
  intros H longInfo shortInfo.
  destruct (referencePrice longInfo) as [lr|] eqn:Hl;
    [|unfold checkPairForArbitrage in H; fold longInfo in H;
      rewrite Hl in H; discriminate].
  destruct (referencePrice shortInfo) as [sr|] eqn:Hs;
    [|unfold checkPairForArbitrage in H; fold longInfo shortInfo in H;
      rewrite Hl, Hs in H; discriminate].
  destruct (truthy lr) eqn:Tl;
    [|unfold checkPairForArbitrage in H; fold longInfo shortInfo in H;
      rewrite Hl, Hs, Tl in H; discriminate].
  destruct (truthy sr) eqn:Ts;
    [|unfold checkPairForArbitrage in H; fold longInfo shortInfo in H;
      rewrite Hl, Hs, Tl, Ts in H; discriminate].
  destruct (checkPair_gates d now info1 info2 lr sr Hl Hs Tl Ts)
    as (opp0 & Heq & Hlr & Hsr & Hst & Hlow & Hhigh & Hcost & Hgain & Hw & Hp
        & Hlu & Hld & Hsu & Hsd & _ & _).
  rewrite Heq in H. fold longInfo shortInfo in H.
  destruct (plan_hasBothPrices (zonePlan (tokenPrices d) longInfo shortInfo lr sr))
    eqn:Hboth; try discriminate.
  simpl in H.
  destruct (negb (lr =? sr) && _); try discriminate.
  injection H as <-. rewrite Hlr, Hsr. fold longInfo shortInfo in Hcost, Hgain.
  rewrite Hcost. repeat split; try assumption; try congruence.
Qed.

(** C2.  An opportunity returned for a pair carries the reference prices of
    its long and its short market.  When [longRef > shortRef] its strategy
    is LONG_DOWN_SHORT_UP and its zone is [[shortRef, longRef]]; when
    [shortRef > longRef] its strategy is LONG_UP_SHORT_DOWN and its zone is
    [[longRef, shortRef]].  In both cases
    [profitZoneWidth = profitZoneHigh - profitZoneLow] and
    [profitZonePercent = profitZoneWidth / ((longRef + shortRef) / 2) * 100]. *)
Theorem strategy_and_zone_selection (d : CrossMarketDetector) (now : Z)
    (info1 info2 : MarketInfo) (opp : CrossMarketOpportunity) :
  checkPairForArbitrage d now info1 info2 = Some opp ->
  referencePrice (longOf info1 info2) = Some (longRefPrice opp)
  /\ referencePrice (shortOf info1 info2) = Some (shortRefPrice opp)
  /\ (gtb (longRefPrice opp) (shortRefPrice opp) = true ->
      strategy opp = LONG_DOWN_SHORT_UP
      /\ profitZoneLow opp = shortRefPrice opp
      /\ profitZoneHigh opp = longRefPrice opp)
  /\ (gtb (shortRefPrice opp) (longRefPrice opp) = true ->
      strategy opp = LONG_UP_SHORT_DOWN
      /\ profitZoneLow opp = longRefPrice opp
      /\ profitZoneHigh opp = shortRefPrice opp)
  /\ profitZoneWidth opp = profitZoneHigh opp - profitZoneLow opp
  /\ profitZonePercent opp
     = profitZoneWidth opp
       / ((longRefPrice opp + shortRefPrice opp) / 2) * 100.
Proof.
  intros H.
  destruct (checkPair_Some_inv d now info1 info2 opp H)
    as (Hl & Hs & _ & _ & _ & Hst & Hlow & Hhigh & _ & _ & Hw & Hp & _).
  split; [exact Hl|]. split; [exact Hs|].
  split; [|split; [|split; assumption]].
  - intros Hgt. rewrite Hst, Hlow, Hhigh.
    rewrite (zonePlan_long_above _ _ _ _ _ Hgt). simpl. auto.
  - intros Hgt. rewrite Hst, Hlow, Hhigh.
    rewrite (zonePlan_short_above _ _ _ _ _ Hgt). simpl. auto.
Qed.

Lemma strategy_and_zone_selection_witness :
  (exists opp,
     checkPairForArbitrage Sample.crossQuoted 0
       (Sample.hourly 100000) (Sample.quarter 99000) = Some opp
     /\ strategy opp = LONG_DOWN_SHORT_UP
     /\ profitZoneLow opp = 99000
     /\ profitZoneHigh opp = 100000)
  /\ (exists opp,
        checkPairForArbitrage Sample.crossQuotedUp 0
          (Sample.hourly 99000) (Sample.quarter 100000) = Some opp
        /\ strategy opp = LONG_UP_SHORT_DOWN
        /\ profitZoneLow opp = 99000
        /\ profitZoneHigh opp = 100000).
Proof.
  split.
  - eexists. split; [reflexivity|].
    destruct (strategy_and_zone_selection Sample.crossQuoted 0
                (Sample.hourly 100000) (Sample.quarter 99000) _ eq_refl)
      as (_ & _ & Hdown & _).
    apply Hdown. reflexivity.
  - eexists. split; [reflexivity|].
    destruct (strategy_and_zone_selection Sample.crossQuotedUp 0
                (Sample.hourly 99000) (Sample.quarter 100000) _ eq_refl)
      as (_ & _ & _ & Hup & _).
    apply Hup. reflexivity.
Defined.

(** C4, as the code has it.  Let the long and the short market of a pair
    both have a reference price (not null, not 0, not NaN).  When the two are equal and the
    long-DOWN and the short-UP token both have a best ask above zero, an
    opportunity is returned whatever the profit threshold, with
    [profitZoneLow = profitZoneHigh] the common reference price and
    [maxProfit = -entryCost].  When the two differ and both legs of the
    chosen strategy have an ask ([hasBothPrices]), the pair is rejected
    exactly when [2 - entryCost < minProfit], and a returned opportunity
    has [maxProfit = 2 - entryCost]. *)
Theorem identical_and_differing_refs (d : CrossMarketDetector) (now : Z)
    (info1 info2 : MarketInfo) (longRef shortRef : number) :
  referencePrice (longOf info1 info2) = Some longRef ->
  referencePrice (shortOf info1 info2) = Some shortRef ->
  truthy longRef = true ->
  truthy shortRef = true ->
  ((longRef =? shortRef) = true ->
   forall (longDownPrice shortUpPrice : TokenPrice) (downAsk upAsk : number),
     tokenPrices d !! noTokenId (marketPair (longOf info1 info2))
     = Some longDownPrice ->
     bestAsk longDownPrice = Some downAsk ->
     gtb downAsk 0 = true ->
     tokenPrices d !! yesTokenId (marketPair (shortOf info1 info2))
     = Some shortUpPrice ->
     bestAsk shortUpPrice = Some upAsk ->
     gtb upAsk 0 = true ->
     exists opp,
       checkPairForArbitrage d now info1 info2 = Some opp
       /\ strategy opp = LONG_DOWN_SHORT_UP
       /\ shortRef = longRef
       /\ profitZoneLow opp = longRef
       /\ profitZoneHigh opp = longRef
       /\ entryCost opp = downAsk + upAsk
       /\ maxProfit opp = - entryCost opp)
  /\ ((longRef =? shortRef) = false ->
      plan_hasBothPrices
        (zonePlan (tokenPrices d) (longOf info1 info2) (shortOf info1 info2)
           longRef shortRef) = true ->
      (checkPairForArbitrage d now info1 info2 = None
       <-> (2 - plan_entryCost
                  (zonePlan (tokenPrices d) (longOf info1 info2)
                     (shortOf info1 info2) longRef shortRef)
            <? minProfit d) = true)
      /\ (forall opp,
            checkPairForArbitrage d now info1 info2 = Some opp ->
            maxProfit opp = 2 - entryCost opp)).
Proof.
  intros Hl Hs Tl Ts.
  destruct (checkPair_gates d now info1 info2 longRef shortRef Hl Hs Tl Ts)
    as (opp0 & Heq & Hlr & Hsr & Hst & Hlow & Hhigh & Hcost & Hgain & _).
  split.
  - intros Hid longDownPrice shortUpPrice downAsk upAsk Hd Had Hpd Hu Hau Hpu.
    unfold gtb in Hpd, Hpu.
    rewrite (zonePlan_identical _ _ _ _ _ Hid) in Heq, Hst, Hlow, Hhigh, Hcost,
      Hgain.
    simpl in Heq, Hst, Hlow, Hhigh, Hcost, Hgain.
    rewrite (askOrZero_pos _ _ _ Hd Had Hpd) in Heq, Hcost, Hgain.
    rewrite (askOrZero_pos _ _ _ Hu Hau Hpu) in Heq, Hcost, Hgain.
    rewrite Hpd, Hpu, Hid in Heq. simpl in Heq. rewrite Hid in Hgain.
    exists opp0. repeat split; try assumption.
    + symmetry. apply eqb_true_eq; [exact Hid|].
      apply truthy_not_zero. exact Tl.
    + rewrite Hgain, Hcost. reflexivity.
  - intros Hne Hboth. rewrite Hboth, Hne in Heq. simpl in Heq.
    rewrite Hne in Hgain. split.
    + rewrite Heq.
      destruct (2 - plan_entryCost _ <? minProfit d); split; intros H;
        try reflexivity; discriminate.
    + intros opp Hopp. rewrite Heq in Hopp.
      destruct (2 - plan_entryCost _ <? minProfit d); try discriminate.
      injection Hopp as <-. rewrite Hgain, Hcost. reflexivity.
Qed.

Lemma identical_and_differing_refs_witness :
  (exists opp,
     checkPairForArbitrage (withMinProfit Sample.crossQuoted 1000) 0
       (Sample.hourly 100000) (Sample.quarter 100000) = Some opp
     /\ strategy opp = LONG_DOWN_SHORT_UP
     /\ profitZoneLow opp = 100000
     /\ profitZoneHigh opp = 100000
     /\ entryCost opp = 0.40 + 0.55
     /\ maxProfit opp = - entryCost opp)
  /\ (checkPairForArbitrage (withMinProfit Sample.crossQuoted 1000) 0
        (Sample.hourly 100000) (Sample.quarter 99500) = None
      <-> (2 - (0.40 + 0.55) <? 1000) = true).
Proof.
  split.
  - destruct (identical_and_differing_refs
                (withMinProfit Sample.crossQuoted 1000) 0
                (Sample.hourly 100000) (Sample.quarter 100000)
                100000 100000 eq_refl eq_refl eq_refl eq_refl) as [Hid _].
    destruct (Hid eq_refl
                (Sample.quote (Some 0.40) None None None)
                (Sample.quote (Some 0.55) None None None)
                0.40 0.55 eq_refl eq_refl eq_refl eq_refl eq_refl eq_refl)
      as (opp & Hopp & Hst & _ & Hlow & Hhigh & Hcost & Hgain).
    exists opp. repeat split; assumption.
  - destruct (identical_and_differing_refs
                (withMinProfit Sample.crossQuoted 1000) 0
                (Sample.hourly 100000) (Sample.quarter 99500)
                100000 99500 eq_refl eq_refl eq_refl eq_refl) as [_ Hne].
    destruct (Hne eq_refl eq_refl) as [Hiff _]. exact Hiff.
Defined.

(** C4, as stated, fails where a guard of the code comes first.  Two equal
    reference prices of 0 count as missing and nothing is returned, though
    both legs have asks that are not zero.  With equal references an ask
    of -0.40 is not zero, and not above zero either: nothing is returned.
    With differing references a pair whose short-UP leg has no ask is
    rejected although [2 - entryCost] is not below the threshold, and so
    is a pair one of whose references is 0 or NaN. *)
Lemma guards_come_before_the_threshold :
  ((0 =? 0) = true
   /\ askOrZero (tokenPrices Sample.crossQuoted !! "1h-down") = 0.40
   /\ askOrZero (tokenPrices Sample.crossQuoted !! "15m-up") = 0.55
   /\ checkPairForArbitrage Sample.crossQuoted 0
        (Sample.hourly 0) (Sample.quarter 0) = None)
  /\ ((100000 =? 100000) = true
      /\ (tokenPrices Sample.crossNegative !! "1h-down") ≫= bestAsk
         = Some (-0.40)
      /\ (-0.40 =? 0) = false
      /\ (tokenPrices Sample.crossNegative !! "15m-up") ≫= bestAsk
         = Some 0.55
      /\ checkPairForArbitrage Sample.crossNegative 0
           (Sample.hourly 100000) (Sample.quarter 100000) = None)
  /\ ((100000 =? 99000) = false
      /\ plan_entryCost
           (zonePlan (tokenPrices Sample.crossOneLeg)
              (Sample.hourly 100000) (Sample.quarter 99000) 100000 99000)
         = 0.40 + 0
      /\ (2 - (0.40 + 0) <? minProfit Sample.crossOneLeg) = false
      /\ checkPairForArbitrage Sample.crossOneLeg 0
           (Sample.hourly 100000) (Sample.quarter 99000) = None)
  /\ ((0 =? 99000) = false
      /\ plan_entryCost
           (zonePlan (tokenPrices Sample.crossQuotedUp)
              (Sample.hourly 0) (Sample.quarter 99000) 0 99000)
         = 0.45 + 0.50
      /\ (2 - (0.45 + 0.50) <? minProfit Sample.crossQuotedUp) = false
      /\ checkPairForArbitrage Sample.crossQuotedUp 0
           (Sample.hourly 0) (Sample.quarter 99000) = None)
  /\ ((nan =? 99000) = false
      /\ plan_entryCost
           (zonePlan (tokenPrices Sample.crossQuotedUp)
              (Sample.hourly nan) (Sample.quarter 99000) nan 99000)
         = 0.45 + 0.50
      /\ checkPairForArbitrage Sample.crossQuotedUp 0
           (Sample.hourly nan) (Sample.quarter 99000) = None).
Proof.
  repeat split; vm_compute; reflexivity.
Qed.

(** C6.  A leg whose best ask is absent, zero or NaN counts 0 in the entry
    cost.  An evaluation is a total function; it returns nothing when the
    flag [hasBothPrices] is false, and an opportunity it returns has, for
    each of the two legs of its strategy, a cached best ask above zero, its
    entry cost being the sum of the two. *)
Theorem missing_ask_handling (d : CrossMarketDetector) (now : Z)
    (info1 info2 : MarketInfo) :
  (forall p : option TokenPrice,
     p ≫= bestAsk = None
     \/ (exists ask, p ≫= bestAsk = Some ask
                     /\ ((ask =? 0) = true \/ isNaN ask = true)) ->
     askOrZero p = 0)
  /\ (forall longRef shortRef,
        referencePrice (longOf info1 info2) = Some longRef ->
        referencePrice (shortOf info1 info2) = Some shortRef ->
        plan_hasBothPrices
          (zonePlan (tokenPrices d) (longOf info1 info2)
             (shortOf info1 info2) longRef shortRef) = false ->
        checkPairForArbitrage d now info1 info2 = None)
  /\ (forall opp,
        checkPairForArbitrage d now info1 info2 = Some opp ->
        exists (price1 price2 : TokenPrice) (ask1 ask2 : number),
          tokenPrices d !! (match strategy opp with
                            | LONG_DOWN_SHORT_UP => longDownTokenId opp
                            | LONG_UP_SHORT_DOWN => longUpTokenId opp
                            end) = Some price1
          /\ bestAsk price1 = Some ask1
          /\ gtb ask1 0 = true
          /\ tokenPrices d !! (match strategy opp with
                               | LONG_DOWN_SHORT_UP => shortUpTokenId opp
                               | LONG_UP_SHORT_DOWN => shortDownTokenId opp
                               end) = Some price2
          /\ bestAsk price2 = Some ask2
          /\ gtb ask2 0 = true
          /\ entryCost opp = ask1 + ask2).
Proof.
  split; [exact askOrZero_missing|]. split.
  - intros longRef shortRef Hl Hs Hboth.
    destruct (truthy longRef) eqn:Tl;
      [|unfold checkPairForArbitrage; rewrite Hl, Hs, Tl; reflexivity].
    destruct (truthy shortRef) eqn:Ts;
      [|unfold checkPairForArbitrage; rewrite Hl, Hs, Tl, Ts; reflexivity].
    destruct (checkPair_gates d now info1 info2 longRef shortRef Hl Hs Tl Ts)
      as (opp0 & Heq & _).
    rewrite Heq, Hboth. reflexivity.
  - intros opp H.
    destruct (checkPair_Some_inv d now info1 info2 opp H)
      as (_ & _ & _ & _ & Hboth & Hst & _ & _ & Hcost & _ & _ & _
          & Hlu & Hld & Hsu & Hsd).
    destruct (zonePlan_legs (tokenPrices d) (longOf info1 info2)
                (shortOf info1 info2) (longRefPrice opp) (shortRefPrice opp))
      as [Hsum Hflag].
    rewrite <- Hst in Hsum, Hflag. rewrite Hboth in Hflag.
    symmetry in Hflag. apply andb_true_iff in Hflag.
    destruct Hflag as [Hp1 Hp2].
    rewrite Hcost, Hsum.
    destruct (askOrZero_pos_inv _ Hp1) as (price1 & ask1 & Hq1 & Ha1 & He1).
    destruct (askOrZero_pos_inv _ Hp2) as (price2 & ask2 & Hq2 & Ha2 & He2).
    exists price1, price2, ask1, ask2. unfold gtb.
    rewrite He1 in Hp1. rewrite He2 in Hp2. rewrite He1, He2.
    destruct (strategy opp); rewrite ?Hlu, ?Hld, ?Hsu, ?Hsd;
      repeat split; assumption.
Qed.

Lemma missing_ask_handling_witness :
  (exists opp,
     checkPairForArbitrage Sample.crossQuoted 0
       (Sample.hourly 100000) (Sample.quarter 99500) = Some opp
     /\ exists (price1 price2 : TokenPrice) (ask1 ask2 : number),
          tokenPrices Sample.crossQuoted !! "1h-down" = Some price1
          /\ bestAsk price1 = Some ask1
          /\ gtb ask1 0 = true
          /\ tokenPrices Sample.crossQuoted !! "15m-up" = Some price2
          /\ bestAsk price2 = Some ask2
          /\ gtb ask2 0 = true
          /\ entryCost opp = ask1 + ask2)
  /\ checkPairForArbitrage Sample.crossQuoted 0
       (Sample.hourly 99500) (Sample.quarter 100000) = None.
Proof.
  split.
  - eexists. split; [reflexivity|].
    destruct (missing_ask_handling Sample.crossQuoted 0
                (Sample.hourly 100000) (Sample.quarter 99500))
      as (_ & _ & Hret).
    exact (Hret _ eq_refl).
  - destruct (missing_ask_handling Sample.crossQuoted 0
                (Sample.hourly 99500) (Sample.quarter 100000))
      as (_ & Hnone & _).
    exact (Hnone 99500 100000 eq_refl eq_refl eq_refl).
Defined.

(** *** Candidates on a price update *)

Lemma isCandidate_sym (a b : MarketInfo) : isCandidate a b = isCandidate b a.
Proof.
  unfold isCandidate.
  rewrite (String.eqb_sym (slug (market b)) (slug (market a))).
  rewrite (String.eqb_sym (asset b) (asset a)).
  rewrite (interval_eqb_sym (interval b) (interval a)).
  replace (resolutionTimestamp b - resolutionTimestamp a)%Z
    with (- (resolutionTimestamp a - resolutionTimestamp b))%Z by lia.
  rewrite Z.abs_opp. reflexivity.
Qed.

(** C9.  For two markets of differing intervals, the two orders of
    evaluation pick the same long market, the one of the larger interval,
    and the same short market, and return the same result (at the same
    clock reading); a market is a candidate for the other exactly when the
    other is a candidate for it. *)
Theorem pair_evaluation_symmetric (d : CrossMarketDetector) (now : Z)
    (a b : MarketInfo) :
  interval a <> interval b ->
  longOf a b = longOf b a
  /\ shortOf a b = shortOf b a
  /\ (intervalOrder (interval (shortOf a b))
      < intervalOrder (interval (longOf a b)))%Z
  /\ checkPairForArbitrage d now a b = checkPairForArbitrage d now b a
  /\ isCandidate a b = isCandidate b a.
Proof.
  intros Hne. destruct (long_short_swap a b Hne) as [Hlong Hshort].
  split; [exact Hlong|]. split; [exact Hshort|].
  split; [apply long_is_larger; exact Hne|].
  split; [|apply isCandidate_sym].
  unfold checkPairForArbitrage. rewrite Hlong, Hshort. reflexivity.
Qed.

Lemma pair_evaluation_symmetric_witness :
  longOf (Sample.quarter 99500) (Sample.hourly 100000) = Sample.hourly 100000
  /\ checkPairForArbitrage Sample.crossQuoted 0
       (Sample.hourly 100000) (Sample.quarter 99500)
     = checkPairForArbitrage Sample.crossQuoted 0
         (Sample.quarter 99500) (Sample.hourly 100000).
Proof.
  assert (Hne : interval (Sample.hourly 100000)
                <> interval (Sample.quarter 99500)) by discriminate.
  destruct (pair_evaluation_symmetric Sample.crossQuoted 0
              (Sample.hourly 100000) (Sample.quarter 99500) Hne)
    as (Hlong & _ & _ & Heq & _).
  split; [|exact Heq].
  rewrite <- Hlong. reflexivity.
Defined.

End CrossFacts.

(** ** The cross-market detector: reference prices *)

Module RegistrationFacts.

Import JsNum Types Cross JsMapFacts.

Section WithParser.

Variable parseSlug : MarketPair -> option (BTCMarketInterval * string * Z).

Lemma parseMarketInfo_null (pr : MarketPair) (marketInfo : MarketInfo) :
  parseMarketInfo parseSlug pr = Some marketInfo ->
  referencePrice marketInfo = None /\ market marketInfo = Types.market pr.
Proof.
  unfold parseMarketInfo. destruct (parseSlug pr) as [[[i a] c]|];
    intros [= <-]; auto.
Qed.

(** *** [setMarketPairs] *)

(** When the registry agrees with the cache, saving the registry's
    reference prices changes nothing in the cache. *)
Lemma saveReferencePrices_agree (infos : list (string * MarketInfo))
    (cache : gmap string number) :
  (forall slug marketInfo,
     In (slug, marketInfo) infos -> referencePrice marketInfo = cache !! slug) ->
  saveReferencePrices infos cache = cache.
Proof.
  unfold saveReferencePrices. induction infos as [|[slug mi] rest IH];
    simpl; intros Hag; [reflexivity|].
  assert (Hhead : referencePrice mi = cache !! slug) by (apply Hag; auto).
  destruct (referencePrice mi) as [p|].
  - rewrite insert_id by (symmetry; exact Hhead).
    apply IH. intros s m Hin. apply Hag. auto.
  - apply IH. intros s m Hin. apply Hag. auto.
Qed.

Lemma registerStep_agree (cache : gmap string number)
    (infos : JsMap.t MarketInfo) (pr : MarketPair) :
  (List.NoDup (JsMap.keys infos)
   /\ forall s m, In (s, m) infos -> referencePrice m = cache !! s) ->
  List.NoDup (JsMap.keys (registerStep parseSlug cache infos pr))
  /\ forall s m, In (s, m) (registerStep parseSlug cache infos pr) ->
                 referencePrice m = cache !! s.
Proof.
  intros [Hnd Hag]. unfold registerStep.
  destruct (parseMarketInfo parseSlug pr) as [mi|] eqn:Hparse; [|auto].
  destruct (parseMarketInfo_null _ _ Hparse) as [Hnull _].
  split; [apply NoDup_set; exact Hnd|].
  intros s m Hin. apply In_set in Hin. destruct Hin as [[-> ->]|Hin]; [|auto].
  destruct (cache !! slug (Types.market pr)) as [c|]; simpl; auto.
Qed.

Lemma fold_registerStep_agree (cache : gmap string number)
    (pairs : list MarketPair) (infos : JsMap.t MarketInfo) :
  (List.NoDup (JsMap.keys infos)
   /\ forall s m, In (s, m) infos -> referencePrice m = cache !! s) ->
  List.NoDup (JsMap.keys (fold_left (registerStep parseSlug cache) pairs infos))
  /\ forall s m, In (s, m) (fold_left (registerStep parseSlug cache) pairs infos) ->
                 referencePrice m = cache !! s.
Proof.
  revert infos. induction pairs as [|pr rest IH]; simpl; intros infos H;
    [exact H|].
  apply IH. apply registerStep_agree. exact H.
Qed.

(** A pair of the list that parses is registered under its slug. *)
Lemma fold_registerStep_get (cache : gmap string number)
    (pairs : list MarketPair) (infos : JsMap.t MarketInfo) (s : string) :
  JsMap.get infos s <> None
  \/ (exists pr, In pr pairs /\ slug (Types.market pr) = s
                 /\ parseMarketInfo parseSlug pr <> None) ->
  JsMap.get (fold_left (registerStep parseSlug cache) pairs infos) s <> None.
Proof.
  revert infos. induction pairs as [|pr rest IH]; simpl; intros infos H.
  - destruct H as [H|(pr & [] & _)]. exact H.
  - apply IH.
    destruct (string_dec (slug (Types.market pr)) s) as [Heq|Hne].
    + destruct (parseMarketInfo parseSlug pr) as [mi|] eqn:Hparse.
      * left. unfold registerStep. rewrite Hparse, Heq.
        rewrite get_set_eq. discriminate.
      * destruct H as [H|(pr' & [<-|Hin] & Hs & Hp)].
        -- left. unfold registerStep. rewrite Hparse. exact H.
        -- contradiction.
        -- right. eauto.
    + destruct H as [H|(pr' & [<-|Hin] & Hs & Hp)].
      * left. unfold registerStep.
        destruct (parseMarketInfo parseSlug pr); [|exact H].
        rewrite get_set_ne by exact Hne. exact H.
      * contradiction.
      * right. eauto.
Qed.

Lemma setMarketPairs_agrees (d : CrossMarketDetector)
    (pairs : list MarketPair) :
  cacheAgrees (setMarketPairs parseSlug d pairs).
Proof.
  unfold cacheAgrees, setMarketPairs. simpl.
  apply fold_registerStep_agree.
  split; [constructor|]. intros s m [].
Qed.

Lemma setMarketPairs_cache (d : CrossMarketDetector)
    (pairs : list MarketPair) :
  cacheAgrees d ->
  refPriceCache (setMarketPairs parseSlug d pairs) = refPriceCache d.
Proof.
  intros [_ Hag]. unfold setMarketPairs. simpl.
  apply saveReferencePrices_agree. exact Hag.
Qed.

(** *** [loadReferencePrices] *)

Lemma restoreFromCache_agree (cache : gmap string number)
    (infos : JsMap.t MarketInfo) :
  (forall s m, In (s, m) infos -> referencePrice m = cache !! s) ->
  restoreFromCache cache infos = infos.
Proof.
  unfold restoreFromCache. induction infos as [|[slug mi] rest IH];
    simpl; intros Hag; [reflexivity|].
  rewrite IH by (intros s m Hin; apply Hag; auto).
  assert (Hhead : referencePrice mi = cache !! slug) by (apply Hag; auto).
  destruct (referencePrice mi) as [p|]; [reflexivity|].
  rewrite <- Hhead. reflexivity.
Qed.

Lemma fetchMissing_agree
    (fetch : string -> BTCMarketInterval -> Z -> option number)
    (infos : list (string * MarketInfo)) (cache : gmap string number) :
  List.NoDup (JsMap.keys infos) ->
  (forall s m, In (s, m) infos -> referencePrice m = cache !! s) ->
  JsMap.keys (fst (fetchMissing fetch infos cache)) = JsMap.keys infos
  /\ (forall s m, In (s, m) (fst (fetchMissing fetch infos cache)) ->
                  referencePrice m = snd (fetchMissing fetch infos cache) !! s)
  /\ (forall s v, cache !! s = Some v ->
                  snd (fetchMissing fetch infos cache) !! s = Some v)
  /\ (forall s, ~ In s (JsMap.keys infos) ->
                snd (fetchMissing fetch infos cache) !! s = cache !! s).
Proof.
  unfold JsMap.keys. revert cache.
  induction infos as [|[slug mi] rest IH]; simpl; intros cache Hnd Hag.
  - repeat split; auto; intros s m [].
  - inversion Hnd as [|? ? Hnotin Hnd']; subst.
    assert (Hhead : referencePrice mi = cache !! slug) by (apply Hag; auto).
    destruct (referencePrice mi) as [p|] eqn:Href.
    + (* already set: the market is skipped *)
      specialize (IH cache Hnd' (fun s m Hin => Hag s m (or_intror Hin))).
      destruct (fetchMissing fetch rest cache) as [rest' cache'] eqn:Hrec.
      simpl in *. destruct IH as (Hk & Hin' & Hmono & Hout).
      split; [f_equal; exact Hk|]. split; [|split].
      * intros s m [[= <- <-]|Hin]; [|auto].
        rewrite Href. symmetry. apply Hmono. symmetry. exact Hhead.
      * exact Hmono.
      * intros s Hs. apply Hout. tauto.
    + destruct (fetch (asset mi) (interval mi) (resolutionTimestamp mi * 1000))
        as [openPrice|].
      * (* loaded: the price goes to the market and to the cache *)
        assert (Hag' : forall s m, In (s, m) rest ->
                         referencePrice m = <[slug := openPrice]> cache !! s).
        { intros s m Hin. rewrite lookup_insert_ne.
          - apply Hag. auto.
          - intros ->. apply Hnotin. apply (in_map fst) in Hin. exact Hin. }
        specialize (IH (<[slug := openPrice]> cache) Hnd' Hag').
        destruct (fetchMissing fetch rest (<[slug := openPrice]> cache))
          as [rest' cache'] eqn:Hrec.
        simpl in *. destruct IH as (Hk & Hin' & Hmono & Hout).
        split; [f_equal; exact Hk|]. split; [|split].
        -- intros s m [[= <- <-]|Hin]; [|auto].
           simpl. symmetry. rewrite (Hout slug Hnotin).
           apply lookup_insert_eq.
        -- intros s v Hs. apply Hmono.
           destruct (string_dec slug s) as [->|Hne].
           ++ rewrite Hs in Hhead. discriminate.
           ++ rewrite lookup_insert_ne by exact Hne. exact Hs.
        -- intros s Hs. rewrite Hout by tauto.
           apply lookup_insert_ne. tauto.
      * (* no answer: nothing changes *)
        specialize (IH cache Hnd' (fun s m Hin => Hag s m (or_intror Hin))).
        destruct (fetchMissing fetch rest cache) as [rest' cache'] eqn:Hrec.
        simpl in *. destruct IH as (Hk & Hin' & Hmono & Hout).
        split; [f_equal; exact Hk|]. split; [|split].
        -- intros s m [[= <- <-]|Hin]; [|auto].
           rewrite Href. symmetry. rewrite (Hout slug Hnotin).
           symmetry. exact Hhead.
        -- exact Hmono.
        -- intros s Hs. apply Hout. tauto.
Qed.

Lemma loadReferencePrices_agrees (d : CrossMarketDetector) (force : bool)
    (fetch : string -> BTCMarketInterval -> Z -> option number) :
  cacheAgrees d ->
  cacheAgrees (loadReferencePrices d force fetch)
  /\ forall s v, refPriceCache d !! s = Some v ->
                 refPriceCache (loadReferencePrices d force fetch) !! s
                 = Some v.
Proof.
  intros [Hnd Hag]. unfold loadReferencePrices.
  rewrite (restoreFromCache_agree _ _ Hag).
  destruct (pricesLoaded d && Nat.eqb (missingCount (marketInfos d)) 0
            && negb force).
  - split; [split; assumption|auto].
  - destruct (fetchMissing_agree fetch (marketInfos d) (refPriceCache d)
                Hnd Hag) as (Hk & Hin & Hmono & _).
    destruct (fetchMissing fetch (marketInfos d) (refPriceCache d))
      as [infos' cache'].
    simpl in *. split; [|exact Hmono].
    split; [|exact Hin]. simpl. rewrite Hk. exact Hnd.
Qed.

(** *** Runs *)

Lemma step_agrees (d : CrossMarketDetector) (op : Op) :
  cacheAgrees d ->
  cacheAgrees (step parseSlug d op)
  /\ forall s v, refPriceCache d !! s = Some v ->
                 refPriceCache (step parseSlug d op) !! s = Some v.
Proof.
  intros Hag. destruct op as [pairs|force fetch]; cbn [step].
  - split; [apply setMarketPairs_agrees|].
    intros s v Hs. rewrite (setMarketPairs_cache d pairs Hag). exact Hs.
  - apply loadReferencePrices_agrees. exact Hag.
Qed.

Lemma run_agrees (ops : list Op) (d : CrossMarketDetector) :
  cacheAgrees d ->
  cacheAgrees (run parseSlug d ops)
  /\ forall s v, refPriceCache d !! s = Some v ->
                 refPriceCache (run parseSlug d ops) !! s = Some v.
Proof.
  unfold run. revert d. induction ops as [|op rest IH]; simpl; intros d Hag.
  - auto.
  - destruct (step_agrees d op Hag) as [Hag' Hmono].
    destruct (IH _ Hag') as [Hag'' Hmono'].
    split; [exact Hag''|]. intros s v Hs. apply Hmono'. apply Hmono. exact Hs.
Qed.

Lemma create_agrees (minProfit0 : number) : cacheAgrees (create minProfit0).
Proof.
  unfold cacheAgrees, create. simpl. split; [constructor|]. intros s m [].
Qed.

End WithParser.

(** Calls that do not overlap.  Take any run of [setMarketPairs] and
    [loadReferencePrices] calls from a new detector, each call ended before
    the next begins, and a slug for which a reference price [v] is set at
    its end, in the cache or on the registered market.  After any further run of such calls, forced
    or not: the cache still holds [v] for the slug; a market registered
    under the slug has reference price [v]; and a [setMarketPairs] call
    whose list has a market of that slug (one that parses) registers it
    with reference price [v]. *)
Theorem reference_price_immutable
    (parseSlug : MarketPair -> option (BTCMarketInterval * string * Z))
    (minProfit0 : number) (before after : list Op) (s : string) (v : number) :
  refPriceCache (run parseSlug (create minProfit0) before) !! s = Some v
  \/ (exists marketInfo,
        JsMap.get (marketInfos (run parseSlug (create minProfit0) before)) s
        = Some marketInfo
        /\ referencePrice marketInfo = Some v) ->
  refPriceCache (run parseSlug (run parseSlug (create minProfit0) before) after)
    !! s = Some v
  /\ (forall marketInfo,
        JsMap.get
          (marketInfos
             (run parseSlug (run parseSlug (create minProfit0) before) after))
          s = Some marketInfo ->
        referencePrice marketInfo = Some v)
  /\ (forall pairs pr,
        In pr pairs ->
        slug (Types.market pr) = s ->
        parseMarketInfo parseSlug pr <> None ->
        exists marketInfo,
          JsMap.get
            (marketInfos
               (setMarketPairs parseSlug
                  (run parseSlug (run parseSlug (create minProfit0) before)
                     after)
                  pairs))
            s = Some marketInfo
          /\ referencePrice marketInfo = Some v).
Proof.
  intros Hset.
  destruct (run_agrees parseSlug before (create minProfit0)
              (create_agrees minProfit0)) as [Hag _].
  set (d := run parseSlug (create minProfit0) before) in *.
  assert (Hcache : refPriceCache d !! s = Some v).
  { destruct Hset as [H|(mi & Hget & Href)]; [exact H|].
    destruct Hag as [_ Hag]. rewrite <- Href. symmetry.
    apply Hag. apply get_In. exact Hget. }
  destruct (run_agrees parseSlug after d Hag) as [Hag' Hmono].
  set (d' := run parseSlug d after) in *.
  assert (Hcache' : refPriceCache d' !! s = Some v) by (apply Hmono; exact Hcache).
  split; [exact Hcache'|]. split.
  - intros mi Hget. destruct Hag' as [_ Hag'].
    rewrite <- Hcache'. apply Hag'. apply get_In. exact Hget.
  - intros pairs pr Hin Hslug Hparse.
    pose proof (setMarketPairs_agrees parseSlug d' pairs) as [_ Hnew].
    pose proof (setMarketPairs_cache parseSlug d' pairs Hag') as Hsame.
    destruct (JsMap.get (marketInfos (setMarketPairs parseSlug d' pairs)) s)
      as [mi|] eqn:Hget.
    + exists mi. split; [reflexivity|].
      rewrite (Hnew s mi (get_In _ _ _ Hget)), Hsame. exact Hcache'.
    + exfalso. revert Hget. unfold setMarketPairs. simpl.
      apply fold_registerStep_get.
      right. exists pr. auto.
Qed.

Lemma reference_price_immutable_witness :
  refPriceCache
    (run Sample.parseSample
       (run Sample.parseSample (create 0.001%float) Sample.firstLoad)
       Sample.laterCalls)
    !! "bitcoin-up-or-down-december-23-10pm-et" = Some 100000%float
  /\ (forall marketInfo,
        JsMap.get
          (marketInfos
             (run Sample.parseSample
                (run Sample.parseSample (create 0.001%float) Sample.firstLoad)
                Sample.laterCalls))
          "bitcoin-up-or-down-december-23-10pm-et" = Some marketInfo ->
        referencePrice marketInfo = Some 100000%float)
  /\ (forall pairs pr,
        In pr pairs ->
        slug (Types.market pr) = "bitcoin-up-or-down-december-23-10pm-et" ->
        parseMarketInfo Sample.parseSample pr <> None ->
        exists marketInfo,
          JsMap.get
            (marketInfos
               (setMarketPairs Sample.parseSample
                  (run Sample.parseSample
                     (run Sample.parseSample (create 0.001%float)
                        Sample.firstLoad)
                     Sample.laterCalls)
                  pairs))
            "bitcoin-up-or-down-december-23-10pm-et" = Some marketInfo
          /\ referencePrice marketInfo = Some 100000%float).
Proof.
  apply (reference_price_immutable Sample.parseSample 0.001%float
           Sample.firstLoad Sample.laterCalls
           "bitcoin-up-or-down-december-23-10pm-et" 100000%float).
  left. vm_compute. reflexivity.
Defined.

(** *** Calls that overlap *)

Lemma loadFrom_passes (d : CrossMarketDetector)
    (pre rest : list (string * MarketInfo)) (slug : string)
    (marketInfo : MarketInfo) (p : number) :
  marketInfos d = pre ++ (slug, marketInfo) :: rest ->
  referencePrice marketInfo = Some p ->
  loadFrom d (length pre) = loadFrom d (S (length pre)).
Proof.
  intros Hd Hp. unfold loadFrom. rewrite Hd.
  replace (skipn (S (length pre)) (pre ++ (slug, marketInfo) :: rest))
    with rest.
  2:{ change (S (length pre)) with (1 + length pre)%nat.
      rewrite <- skipn_skipn, skipn_app, skipn_all, Nat.sub_diag.
      reflexivity. }
  rewrite skipn_app, skipn_all, Nat.sub_diag. cbn [skipn app nextMissing].
  rewrite Hp. reflexivity.
Qed.

Lemma loadFrom_waits (d : CrossMarketDetector)
    (pre rest : list (string * MarketInfo)) (slug : string)
    (marketInfo : MarketInfo) :
  marketInfos d = pre ++ (slug, marketInfo) :: rest ->
  referencePrice marketInfo = None ->
  loadFrom d (length pre) = (d, Some (length pre)).
Proof.
  intros Hd Hp. unfold loadFrom. rewrite Hd.
  rewrite skipn_app, skipn_all, Nat.sub_diag. cbn [skipn app nextMissing].
  rewrite Hp. reflexivity.
Qed.

Lemma nth_error_middle {A : Type} (pre rest : list A) (x : A) :
  nth_error (pre ++ x :: rest) (length pre) = Some x.
Proof.
  rewrite nth_error_app2 by lia. rewrite Nat.sub_diag. reflexivity.
Qed.

Lemma insert_middle {A : Type} (pre rest : list A) (x y : A) :
  list_insert (length pre) y (pre ++ x :: rest) = pre ++ y :: rest.
Proof.
  induction pre as [|a pre IH]; simpl; [reflexivity|].
  f_equal. exact IH.
Qed.

(** The last loop of a call that is alone, from the entries [rest] on. *)
Lemma answerAlone_from
    (fetch : string -> BTCMarketInterval -> Z -> option number)
    (rest : list (string * MarketInfo)) :
  forall (fuel : nat) (pre : list (string * MarketInfo))
         (prices : gmap string TokenPrice) (threshold : number) (loaded : bool)
         (cache : gmap string number),
    (length rest <= fuel)%nat ->
    answerAlone fuel fetch
      (loadFrom
         {| tokenPrices := prices;
            marketInfos := pre ++ rest;
            minProfit := threshold;
            pricesLoaded := loaded;
            refPriceCache := cache |}
         (length pre))
    = Some {| tokenPrices := prices;
              marketInfos := pre ++ fst (fetchMissing fetch rest cache);
              minProfit := threshold;
              pricesLoaded := true;
              refPriceCache := snd (fetchMissing fetch rest cache) |}.
Proof.
  induction rest as [|[slug marketInfo] rest IH];
    intros fuel pre prices threshold loaded cache Hfuel.
  - unfold loadFrom. cbn [marketInfos fetchMissing fst snd].
    rewrite !app_nil_r, skipn_all. destruct fuel; reflexivity.
  - cbn [fetchMissing].
    destruct (referencePrice marketInfo) as [p|] eqn:Hp.
    + rewrite (loadFrom_passes _ pre rest slug marketInfo p)
        by first [reflexivity | exact Hp].
      specialize (IH fuel (pre ++ [(slug, marketInfo)]) prices threshold
                    loaded cache).
      rewrite length_app, Nat.add_1_r, <- app_assoc in IH. cbn [app] in IH.
      rewrite IH by (cbn [length] in Hfuel; lia).
      destruct (fetchMissing fetch rest cache) as [rest' cache'].
      cbn [fst snd]. rewrite <- app_assoc. reflexivity.
    + rewrite (loadFrom_waits _ pre rest slug marketInfo)
        by first [reflexivity | exact Hp].
      destruct fuel as [|fuel]; [cbn [length] in Hfuel; lia|].
      cbn [answerAlone]. unfold requested, loadAnswer.
      cbn [marketInfos]. rewrite nth_error_middle.
      destruct (fetch (asset marketInfo) (interval marketInfo)
                  (resolutionTimestamp marketInfo * 1000)) as [openPrice|].
      * cbn [tokenPrices minProfit pricesLoaded refPriceCache].
        rewrite insert_middle.
        specialize (IH fuel
                      (pre ++ [(slug, withReferencePrice marketInfo
                                        (Some openPrice))])
                      prices threshold loaded (<[slug := openPrice]> cache)).
        rewrite length_app, Nat.add_1_r, <- app_assoc in IH. cbn [app] in IH.
        rewrite IH by (cbn [length] in Hfuel; lia).
        destruct (fetchMissing fetch rest (<[slug := openPrice]> cache))
          as [rest' cache'].
        cbn [fst snd]. rewrite <- app_assoc. reflexivity.
      * specialize (IH fuel (pre ++ [(slug, marketInfo)]) prices threshold
                      loaded cache).
        rewrite length_app, Nat.add_1_r, <- app_assoc in IH. cbn [app] in IH.
        rewrite IH by (cbn [length] in Hfuel; lia).
        destruct (fetchMissing fetch rest cache) as [rest' cache'].
        cbn [fst snd]. rewrite <- app_assoc. reflexivity.
Qed.

(** A call taken apart at its requests and answered by [fetch] before
    anything else happens is [loadReferencePrices]. *)
Lemma call_alone (d : CrossMarketDetector) (force : bool)
    (fetch : string -> BTCMarketInterval -> Z -> option number) :
  answerAlone (length (marketInfos d)) fetch (loadCall d force)
  = Some (loadReferencePrices d force fetch).
Proof.
  unfold loadCall, loadReferencePrices.
  destruct (pricesLoaded d
            && Nat.eqb
                 (missingCount
                    (restoreFromCache (refPriceCache d) (marketInfos d))) 0
            && negb force).
  - destruct (length (marketInfos d)); reflexivity.
  - pose proof (answerAlone_from fetch
                  (restoreFromCache (refPriceCache d) (marketInfos d))
                  (length (marketInfos d)) [] (tokenPrices d) (minProfit d)
                  (pricesLoaded d) (refPriceCache d)) as H.
    cbn [app length] in H. rewrite H.
    + destruct (fetchMissing fetch _ (refPriceCache d)). reflexivity.
    + unfold restoreFromCache. rewrite length_map. lia.
Qed.

(** C8.  The code when two calls overlap.  Both calls find the hourly
    market without a reference price and ask the price source for it.
    The answer to the first, 100000, is written to the market and to the
    cache.  The answer to the second, 100050, is written over it: the
    call that waited does not look at the reference price again. *)
Lemma overlapping_calls_overwrite_reference_price :
  let hourly := slug (Types.market Sample.hourlyPair) in
  let asked := [Called false; Called false] in
  let first := asked ++ [Answered 0 (Some 100000%float)] in
  let second := first ++ [Answered 1 (Some 100050%float)] in
  JsMap.keys (marketInfos Sample.aligned)
  = [hourly; slug (Types.market Sample.quarterPair)]
  /\ JsMap.get (marketInfos Sample.aligned) hourly ≫= referencePrice = None
  /\ refPriceCache Sample.aligned !! hourly = None
  /\ snd (overlapped Sample.aligned asked) = [Some 0%nat; Some 0%nat]
  /\ requested (fst (overlapped Sample.aligned asked)) 0
     = Some ("btc"%string, I1h, 1735000200000)
  /\ JsMap.get (marketInfos (fst (overlapped Sample.aligned first))) hourly
       ≫= referencePrice = Some 100000%float
  /\ refPriceCache (fst (overlapped Sample.aligned first)) !! hourly
     = Some 100000%float
  /\ snd (overlapped Sample.aligned first) = [Some 1%nat; Some 0%nat]
  /\ JsMap.get (marketInfos (fst (overlapped Sample.aligned second))) hourly
       ≫= referencePrice = Some 100050%float
  /\ refPriceCache (fst (overlapped Sample.aligned second)) !! hourly
     = Some 100050%float.
Proof.
  cbv zeta. repeat split; vm_compute; reflexivity.
Qed.

End RegistrationFacts.

(** ** The cross-market detector: which pairs are discovered *)

Module DiscoveryFacts.

Import JsNum Types Cross CrossFacts.

(** *** On a price update *)

Lemma isCandidate_spec (updatedInfo otherInfo : MarketInfo) :
  isCandidate updatedInfo otherInfo = true
  <-> slug (market otherInfo) <> slug (market updatedInfo)
      /\ asset otherInfo = asset updatedInfo
      /\ interval otherInfo <> interval updatedInfo
      /\ Z.abs (resolutionTimestamp otherInfo
                - resolutionTimestamp updatedInfo) <= 300.
Proof.
  unfold isCandidate. rewrite !andb_true_iff, !negb_true_iff.
  rewrite String.eqb_neq, String.eqb_eq, Z.ltb_ge.
  rewrite <- (interval_eqb_eq (interval otherInfo) (interval updatedInfo)).
  rewrite not_true_iff_false. tauto.
Qed.

Lemma candidatesFor_In (d : CrossMarketDetector)
    (updatedInfo otherInfo : MarketInfo) :
  In otherInfo (candidatesFor d updatedInfo)
  <-> In otherInfo (JsMap.values (marketInfos d))
      /\ isCandidate updatedInfo otherInfo = true.
Proof. unfold candidatesFor. apply filter_In. Qed.

(** *** In a full scan *)

Lemma bucketKey_eqb_eq (k1 k2 : string * Z) :
  bucketKey_eqb k1 k2 = true <-> k1 = k2.
Proof.
  destruct k1 as [a1 t1], k2 as [a2 t2]. unfold bucketKey_eqb. simpl.
  rewrite andb_true_iff, String.eqb_eq, Z.eqb_eq.
  split; [intros [-> ->]; reflexivity | intros [= -> ->]; auto].
Qed.

(** Two timestamps of one bucket are less than 300 seconds apart. *)
Lemma roundedTime_close (a b : MarketInfo) :
  roundedTime a = roundedTime b ->
  Z.abs (resolutionTimestamp a - resolutionTimestamp b) < 300.
Proof.
  unfold roundedTime. intros H.
  pose proof (Z.div_mod (2 * resolutionTimestamp a + 300) 600) as Ha.
  pose proof (Z.div_mod (2 * resolutionTimestamp b + 300) 600) as Hb.
  pose proof (Z.mod_pos_bound (2 * resolutionTimestamp a + 300) 600) as Ma.
  pose proof (Z.mod_pos_bound (2 * resolutionTimestamp b + 300) 600) as Mb.
  lia.
Qed.

Lemma bucketPush_sound (all : list MarketInfo)
    (buckets : list ((string * Z) * list MarketInfo)) (marketInfo : MarketInfo) :
  In marketInfo all ->
  bucketsSound all buckets ->
  bucketsSound all (bucketPush buckets (bucketKey marketInfo) marketInfo).
Proof.
  intros Hall. unfold bucketsSound.
  induction buckets as [|[k l] rest IH]; simpl; intros Hs key markets x.
  - intros [[= <- <-]|[]] [<-|[]]. auto.
  - destruct (bucketKey_eqb k (bucketKey marketInfo)) eqn:E.
    + apply bucketKey_eqb_eq in E.
      intros [[= <- <-]|Hin] Hx.
      * apply in_app_or in Hx. destruct Hx as [Hx|[<-|[]]].
        -- apply (Hs k l x); simpl; auto.
        -- auto.
      * apply (Hs key markets x); simpl; auto.
    + intros [[= <- <-]|Hin] Hx.
      * apply (Hs k l x); simpl; auto.
      * apply (IH (fun k0 l0 x0 H0 => Hs k0 l0 x0 (or_intror H0))
                 key markets x Hin Hx).
Qed.

Lemma byAssetAndTime_sound (d : CrossMarketDetector) :
  bucketsSound (JsMap.values (marketInfos d)) (byAssetAndTime d).
Proof.
  unfold byAssetAndTime.
  set (all := JsMap.values (marketInfos d)).
  assert (Hgen : forall infos buckets,
             (forall x, In x infos -> In x all) ->
             bucketsSound all buckets ->
             bucketsSound all
               (fold_left
                  (fun buckets marketInfo =>
                     bucketPush buckets (bucketKey marketInfo) marketInfo)
                  infos buckets)).
  { induction infos as [|x rest IH]; simpl; intros buckets Hsub Hs; auto.
    apply IH; auto. apply bucketPush_sound; auto. }
  apply Hgen; auto. intros key markets x [].
Qed.

Lemma pairsOf_In {A : Type} (markets : list A) (a b : A) :
  In (a, b) (pairsOf markets) -> In a markets /\ In b markets.
Proof.
  induction markets as [|x rest IH]; simpl; [tauto|].
  intros H. apply in_app_or in H. destruct H as [H|H].
  - apply in_map_iff in H. destruct H as (y & [= <- <-] & Hy). auto.
  - destruct (IH H). auto.
Qed.

Lemma bucketPairs_In (d : CrossMarketDetector) (a b : MarketInfo) :
  In (a, b) (bucketPairs d) ->
  In a (JsMap.values (marketInfos d))
  /\ In b (JsMap.values (marketInfos d))
  /\ bucketKey a = bucketKey b.
Proof.
  unfold bucketPairs. intros H. apply in_flat_map in H.
  destruct H as ([key markets] & Hbucket & Hpair).
  destruct (length markets <? 2)%nat; [contradiction|].
  apply pairsOf_In in Hpair. destruct Hpair as [Ha Hb].
  destruct (byAssetAndTime_sound d key markets a Hbucket Ha) as [Ha1 Ha2].
  destruct (byAssetAndTime_sound d key markets b Hbucket Hb) as [Hb1 Hb2].
  repeat split; congruence.
Qed.

Lemma scanPairsLoop_In (cands : list (MarketInfo * MarketInfo))
    (checkedPairs : gset string) (a b : MarketInfo) :
  In (a, b) (scanPairsLoop cands checkedPairs) ->
  In (a, b) cands /\ interval a <> interval b.
Proof.
  revert checkedPairs. induction cands as [|[x y] rest IH]; simpl;
    intros checkedPairs H; [contradiction|].
  destruct (interval_eqb (interval x) (interval y)) eqn:E.
  - destruct (IH _ H). auto.
  - destruct (bool_decide (pairKey x y ∈ checkedPairs)).
    + destruct (IH _ H). auto.
    + destruct H as [[= <- <-]|H].
      * split; [auto|]. intros Heq. apply interval_eqb_eq in Heq. congruence.
      * destruct (IH _ H). auto.
Qed.

(** The scan misses no pair of a bucket. *)

Lemma pairKey_sym (a b : MarketInfo) : pairKey a b = pairKey b a.
Proof.
  unfold pairKey, String.ltb.
  pose proof (String.compare_antisym (slug (market a)) (slug (market b)))
    as Hanti.
  destruct (String.compare (slug (market b)) (slug (market a))) eqn:E;
    simpl in Hanti; rewrite Hanti; try reflexivity.
  apply String.compare_eq_iff in E. rewrite E. reflexivity.
Qed.

Lemma bucketPush_complete
    (buckets : list ((string * Z) * list MarketInfo)) (key : string * Z)
    (marketInfo : MarketInfo) :
  List.NoDup (map fst buckets) ->
  List.NoDup (map fst (bucketPush buckets key marketInfo))
  /\ (exists markets,
        In (key, markets) (bucketPush buckets key marketInfo)
        /\ In marketInfo markets)
  /\ (forall k l x, In (k, l) buckets -> In x l ->
        exists l', In (k, l') (bucketPush buckets key marketInfo) /\ In x l')
  /\ (forall k, In k (map fst (bucketPush buckets key marketInfo)) ->
                k = key \/ In k (map fst buckets)).
Proof.
  induction buckets as [|[k0 l0] rest IH]; simpl; intros Hnd.
  - split; [constructor; [simpl; tauto|constructor]|].
    split; [exists [marketInfo]; simpl; auto|].
    split; [intros k l x []|]. intros k [<-|[]]. auto.
  - inversion Hnd as [|? ? Hnotin Hnd']; subst.
    destruct (bucketKey_eqb k0 key) eqn:E.
    + apply bucketKey_eqb_eq in E. subst k0. simpl.
      split; [constructor; assumption|].
      split; [exists (l0 ++ [marketInfo]); split; auto;
              apply in_or_app; simpl; auto|].
      split.
      * intros k l x [[= <- <-]|Hin] Hx.
        -- exists (l0 ++ [marketInfo]). split; auto.
           apply in_or_app. auto.
        -- exists l. auto.
      * intros k [<-|Hin]; auto.
    + destruct (IH Hnd') as (Hnd'' & (markets & Hm & Hx) & Hold & Hkeys).
      simpl. split.
      * constructor; [|exact Hnd''].
        intros Hin. destruct (Hkeys _ Hin) as [->|Hin'].
        -- assert (bucketKey_eqb key key = true) by (apply bucketKey_eqb_eq; auto).
           congruence.
        -- contradiction.
      * split; [exists markets; auto|]. split.
        -- intros k l x [[= <- <-]|Hin] Hx'.
           ++ exists l0. auto.
           ++ destruct (Hold k l x Hin Hx') as (l' & Hl' & Hx''). eauto.
        -- intros k [<-|Hin]; auto.
           destruct (Hkeys _ Hin); auto.
Qed.

Lemma byAssetAndTime_complete (d : CrossMarketDetector) :
  List.NoDup (map fst (byAssetAndTime d))
  /\ forall x, In x (JsMap.values (marketInfos d)) ->
       exists markets,
         In (bucketKey x, markets) (byAssetAndTime d) /\ In x markets.
Proof.
  unfold byAssetAndTime.
  assert (Hgen : forall infos buckets,
             List.NoDup (map fst buckets) ->
             let buckets' :=
               fold_left
                 (fun buckets marketInfo =>
                    bucketPush buckets (bucketKey marketInfo) marketInfo)
                 infos buckets in
             List.NoDup (map fst buckets')
             /\ (forall k l x, In (k, l) buckets -> In x l ->
                   exists l', In (k, l') buckets' /\ In x l')
             /\ (forall x, In x infos ->
                   exists l', In (bucketKey x, l') buckets' /\ In x l')).
  { induction infos as [|y rest IH]; simpl; intros buckets Hnd.
    - split; [exact Hnd|]. split; [eauto|]. intros x [].
    - destruct (bucketPush_complete buckets (bucketKey y) y Hnd)
        as (Hnd' & (markets & Hm & Hy) & Hold & _).
      destruct (IH _ Hnd') as (Hnd'' & Hold' & Hnew).
      split; [exact Hnd''|]. split.
      + intros k l x Hin Hx.
        destruct (Hold k l x Hin Hx) as (l' & Hl' & Hx').
        apply (Hold' k l' x Hl' Hx').
      + intros x [<-|Hin]; [|auto].
        apply (Hold' _ markets y Hm Hy). }
  destruct (Hgen (JsMap.values (marketInfos d)) [] (List.NoDup_nil _))
    as (Hnd & _ & Hall).
  split; assumption.
Qed.

Lemma NoDup_keys_functional {K V : Type} (l : list (K * V)) (k : K)
    (v1 v2 : V) :
  List.NoDup (map fst l) -> In (k, v1) l -> In (k, v2) l -> v1 = v2.
Proof.
  induction l as [|[k0 v0] rest IH]; simpl; intros Hnd H1 H2; [contradiction|].
  inversion Hnd as [|? ? Hnotin Hnd']; subst.
  destruct H1 as [[= -> ->]|H1], H2 as [[= <-]|H2]; auto.
  - exfalso. apply Hnotin. apply (in_map fst) in H2. exact H2.
  - subst. exfalso. apply Hnotin. apply (in_map fst) in H1. exact H1.
Qed.

Lemma pairsOf_complete {A : Type} (markets : list A) (a b : A) :
  In a markets -> In b markets -> a <> b ->
  In (a, b) (pairsOf markets) \/ In (b, a) (pairsOf markets).
Proof.
  induction markets as [|x rest IH]; simpl; [tauto|].
  intros [->|Ha] [->|Hb] Hne.
  - contradiction.
  - left. apply in_or_app. left. apply in_map. exact Hb.
  - right. apply in_or_app. left. apply in_map. exact Ha.
  - destruct (IH Ha Hb Hne); [left|right]; apply in_or_app; auto.
Qed.

Lemma two_members_length {A : Type} (markets : list A) (a b : A) :
  In a markets -> In b markets -> a <> b -> (length markets <? 2)%nat = false.
Proof.
  intros Ha Hb Hne. apply Nat.ltb_ge.
  destruct markets as [|x [|y rest]]; simpl in *; try lia; try tauto.
  destruct Ha as [->|[]], Hb as [->|[]]. contradiction.
Qed.

Lemma bucketPairs_complete (d : CrossMarketDetector) (a b : MarketInfo) :
  In a (JsMap.values (marketInfos d)) ->
  In b (JsMap.values (marketInfos d)) ->
  bucketKey a = bucketKey b ->
  a <> b ->
  In (a, b) (bucketPairs d) \/ In (b, a) (bucketPairs d).
Proof.
  intros Ha Hb Hkey Hne.
  destruct (byAssetAndTime_complete d) as [Hnd Hall].
  destruct (Hall a Ha) as (la & Hla & Hina).
  destruct (Hall b Hb) as (lb & Hlb & Hinb).
  rewrite <- Hkey in Hlb.
  assert (lb = la) by (eapply NoDup_keys_functional; eauto). subst lb.
  assert (Hin : forall p, In p (pairsOf la) -> In p (bucketPairs d)).
  { intros p Hp. unfold bucketPairs. apply in_flat_map.
    exists (bucketKey a, la). split; [exact Hla|].
    rewrite (two_members_length la a b Hina Hinb Hne). exact Hp. }
  destruct (pairsOf_complete la a b Hina Hinb Hne); auto.
Qed.

Lemma scanPairsLoop_complete (cands : list (MarketInfo * MarketInfo))
    (checkedPairs : gset string) (a b : MarketInfo) :
  In (a, b) cands -> interval a <> interval b ->
  pairKey a b ∈ checkedPairs
  \/ exists a' b', In (a', b') (scanPairsLoop cands checkedPairs)
                   /\ pairKey a' b' = pairKey a b.
Proof.
  revert checkedPairs. induction cands as [|[x y] rest IH]; simpl;
    intros checkedPairs Hin Hint; [contradiction|].
  destruct Hin as [[= -> ->]|Hin].
  - destruct (interval_eqb (interval a) (interval b)) eqn:E.
    + apply interval_eqb_eq in E. contradiction.
    + destruct (bool_decide (pairKey a b ∈ checkedPairs)) eqn:Ed.
      * left. apply bool_decide_eq_true in Ed. exact Ed.
      * right. exists a, b. simpl. auto.
  - destruct (interval_eqb (interval x) (interval y)); [auto|].
    destruct (bool_decide (pairKey x y ∈ checkedPairs)) eqn:Ed; [auto|].
    destruct (IH ({[pairKey x y]} ∪ checkedPairs) Hin Hint)
      as [Hmem|(a' & b' & Hin' & Hk)].
    + apply elem_of_union in Hmem. destruct Hmem as [Hmem|Hmem]; [|auto].
      apply elem_of_singleton in Hmem.
      right. exists x, y. simpl. auto.
    + right. exists a', b'. simpl. auto.
Qed.

(** C7, as the code has it.  On a price update a registered market is a
    candidate for the updated one exactly when it has another slug, the
    same asset, another interval, and a resolution timestamp at most 300
    seconds away.  A full scan evaluates a pair only when the two markets
    are registered, have the same asset, differing intervals, and
    resolution timestamps that round to the same multiple of 300; such
    timestamps are less than 300 seconds apart.  And every two registered
    markets of the same asset, differing intervals and timestamps rounding
    to the same multiple of 300 are evaluated by the scan, as that pair or
    as one of the same sorted-slug key. *)
Theorem coincidence_by_path (d : CrossMarketDetector) (a b : MarketInfo) :
  (In b (candidatesFor d a)
   <-> In b (JsMap.values (marketInfos d))
       /\ slug (market b) <> slug (market a)
       /\ asset b = asset a
       /\ interval b <> interval a
       /\ Z.abs (resolutionTimestamp b - resolutionTimestamp a) <= 300)
  /\ (In (a, b) (scanPairs d) ->
      In a (JsMap.values (marketInfos d))
      /\ In b (JsMap.values (marketInfos d))
      /\ asset a = asset b
      /\ interval a <> interval b
      /\ roundedTime a = roundedTime b
      /\ Z.abs (resolutionTimestamp a - resolutionTimestamp b) < 300)
  /\ (In a (JsMap.values (marketInfos d)) ->
      In b (JsMap.values (marketInfos d)) ->
      asset a = asset b ->
      interval a <> interval b ->
      roundedTime a = roundedTime b ->
      exists a' b',
        In (a', b') (scanPairs d) /\ pairKey a' b' = pairKey a b).
Proof.
  split; [|split].
  - rewrite candidatesFor_In, isCandidate_spec. tauto.
  - intros H. unfold scanPairs in H.
    apply scanPairsLoop_In in H. destruct H as [Hpair Hint].
    apply bucketPairs_In in Hpair. destruct Hpair as (Ha & Hb & Hkey).
    unfold bucketKey in Hkey. injection Hkey as Hasset Hround.
    repeat split; auto. apply roundedTime_close. exact Hround.
  - intros Ha Hb Hasset Hint Hround.
    assert (Hkey : bucketKey a = bucketKey b)
      by (unfold bucketKey; congruence).
    assert (Hne : a <> b) by congruence.
    unfold scanPairs.
    destruct (bucketPairs_complete d a b Ha Hb Hkey Hne) as [Hin|Hin].
    + destruct (scanPairsLoop_complete _ ∅ a b Hin Hint)
        as [Hmem|Hex]; [|exact Hex].
      apply not_elem_of_empty in Hmem. contradiction.
    + assert (Hint' : interval b <> interval a) by congruence.
      destruct (scanPairsLoop_complete _ ∅ b a Hin Hint')
        as [Hmem|(a' & b' & Hin' & Hk)].
      * apply not_elem_of_empty in Hmem. contradiction.
      * exists a', b'. rewrite (pairKey_sym a b). auto.
Qed.

Lemma coincidence_by_path_witness :
  exists a' b',
    In (a', b') (scanPairs Sample.aligned)
    /\ pairKey a' b'
       = pairKey (Sample.info Sample.hourlyPair I1h 1735000200 None)
           (Sample.info Sample.quarterPair I15m 1735000200 None).
Proof.
  destruct (coincidence_by_path Sample.aligned
              (Sample.info Sample.hourlyPair I1h 1735000200 None)
              (Sample.info Sample.quarterPair I15m 1735000200 None))
    as (_ & _ & Hscan).
  apply Hscan.
  - vm_compute. auto.
  - vm_compute. auto.
  - reflexivity.
  - discriminate.
  - reflexivity.
Defined.

(** C7, as stated, fails for the full scan: two registered markets on the
    same asset, of differing intervals, whose resolution timestamps are two
    seconds apart, are candidates of one another on a price update and are
    not paired by the scan, their timestamps rounding to different
    multiples of 300. *)
Lemma scan_misses_pair_within_tolerance :
  let a := Sample.info Sample.hourlyPair I1h 1735000349 None in
  let b := Sample.info Sample.quarterPair I15m 1735000351 None in
  JsMap.values (marketInfos Sample.jittered) = [a; b]
  /\ asset a = asset b
  /\ interval a <> interval b
  /\ Z.abs (resolutionTimestamp a - resolutionTimestamp b) <= 300
  /\ In b (candidatesFor Sample.jittered a)
  /\ In a (candidatesFor Sample.jittered b)
  /\ roundedTime a = 1735000200
  /\ roundedTime b = 1735000500
  /\ scanPairs Sample.jittered = []
  /\ (forall now, scanAllCrossMarkets Sample.jittered now = []).
Proof.
  cbv zeta. repeat split; try reflexivity.
  - discriminate.
  - vm_compute. discriminate.
  - vm_compute. auto.
  - vm_compute. auto.
Qed.

End DiscoveryFacts.

(** ** The order of the numbers, and the sign of a difference *)

Module JsOrderFacts.

Import JsOrder.

Lemma digits2_pos_bounds (m : positive) :
  2 ^ (Zpos (digits2_pos m) - 1) <= Zpos m < 2 ^ Zpos (digits2_pos m).
Proof.
  induction m as [m IH|m IH|]; simpl digits2_pos.
  - rewrite Pos2Z.inj_succ.
    replace (Z.succ (Zpos (digits2_pos m)) - 1)
      with (Z.succ (Zpos (digits2_pos m) - 1)) by lia.
    rewrite !Z.pow_succ_r by lia. lia.
  - rewrite Pos2Z.inj_succ.
    replace (Z.succ (Zpos (digits2_pos m)) - 1)
      with (Z.succ (Zpos (digits2_pos m) - 1)) by lia.
    rewrite !Z.pow_succ_r by lia. lia.
  - simpl. lia.
Qed.

(** What validity says of a finite binary64 value. *)
Lemma valid_finite (s : bool) (m : positive) (e : Z) :
  SpecFloat.valid_binary prec emax (S754_finite s m e) = true ->
  -1074 <= e <= 971
  /\ Zpos m < 2 ^ 53
  /\ (-1074 < e -> 2 ^ 52 <= Zpos m).
Proof.
  unfold SpecFloat.valid_binary, bounded, canonical_mantissa, fexp, emin, prec, emax.
  intros H. apply andb_true_iff in H as [Hc He].
  apply Z.eqb_eq in Hc. apply Z.leb_le in He.
  pose proof (digits2_pos_bounds m) as [Hlo Hhi].
  set (d := Zpos (digits2_pos m)) in *.
  assert (Hd : 0 < d) by (unfold d; lia).
  assert (Hd53 : d <= 53) by lia.
  split; [lia|]. split.
  - apply Z.lt_le_trans with (2 ^ d); [exact Hhi|].
    apply Z.pow_le_mono_r; lia.
  - intros Hgt. assert (d = 53) by lia.
    replace 52 with (d - 1) by lia. exact Hlo.
Qed.

Lemma scaled_lt (m1 m2 a b : Z) :
  0 <= a < b -> 0 < m1 < 2 ^ 53 -> 2 ^ 52 <= m2 ->
  m1 * 2 ^ a < m2 * 2 ^ b.
Proof.
  intros Hab Hm1 Hm2.
  assert (Hp : 0 < 2 ^ a) by (apply Z.pow_pos_nonneg; lia).
  assert (Hq : 2 ^ (Z.succ a) <= 2 ^ b) by (apply Z.pow_le_mono_r; lia).
  rewrite Z.pow_succ_r in Hq by lia.
  assert (H53 : 2 ^ 53 = 2 * 2 ^ 52) by reflexivity.
  assert (H52 : 0 < 2 ^ 52) by reflexivity.
  generalize dependent (2 ^ 52). generalize dependent (2 ^ 53).
  generalize dependent (2 ^ a). generalize dependent (2 ^ b).
  intros Q P HP HQ T53 HT53 T52 Hm2 H53 H52. subst T53.
  nia.
Qed.

Lemma finite_below_infinity (m e : Z) :
  0 < m < 2 ^ 53 -> -1074 <= e <= 971 ->
  0 < m * 2 ^ (e + 1074) < 2 ^ 2098.
Proof.
  intros Hm He.
  assert (Hp : 0 < 2 ^ (e + 1074)) by (apply Z.pow_pos_nonneg; lia).
  assert (Hq : 2 ^ (e + 1074) <= 2 ^ 2045) by (apply Z.pow_le_mono_r; lia).
  assert (H : 2 ^ 2098 = 2 ^ 53 * 2 ^ 2045)
    by (rewrite <- Z.pow_add_r by lia; reflexivity).
  rewrite H.
  assert (H45 : 0 < 2 ^ 2045) by (apply Z.pow_pos_nonneg; lia).
  generalize dependent (2 ^ 2045). generalize dependent (2 ^ 53).
  generalize dependent (2 ^ (e + 1074)).
  intros P HP T53 Hm Q HQ _ HQ0. nia.
Qed.

Lemma rank_finite_bounds (s : bool) (m : positive) (e : Z) :
  SpecFloat.valid_binary prec emax (S754_finite s m e) = true ->
  0 < Zpos m * 2 ^ (e + 1074) < 2 ^ 2098.
Proof.
  intros H. apply valid_finite in H as (He & Hm & _).
  apply finite_below_infinity; lia.
Qed.

Lemma infinity_pos : 0 < 2 ^ 2098.
Proof. apply Z.pow_pos_nonneg; lia. Qed.

(** On valid values that are not NaN, the comparison of the primitives is
    the comparison of the places on the line. *)
Lemma SFcompare_rank (x y : spec_float) :
  SpecFloat.valid_binary prec emax x = true -> SpecFloat.valid_binary prec emax y = true ->
  x <> S754_nan -> y <> S754_nan ->
  SFcompare x y = Some (rank x ?= rank y).
Proof.
  pose proof infinity_pos as HB.
  destruct x as [sx|sx| |sx mx ex], y as [sy|sy| |sy my ey];
    intros Vx Vy Nx Ny; try congruence; unfold rank, SFcompare.
  - reflexivity.
  - destruct sy; cbv [cond_Zopp]; cmp_solve; lia.
  - pose proof (rank_finite_bounds _ _ _ Vy).
    destruct sy; cbv [cond_Zopp]; cmp_solve; lia.
  - destruct sx; cbv [cond_Zopp]; cmp_solve; lia.
  - destruct sx, sy; cbv [cond_Zopp]; cmp_solve; lia.
  - pose proof (rank_finite_bounds _ _ _ Vy).
    destruct sx, sy; cbv [cond_Zopp]; cmp_solve; lia.
  - pose proof (rank_finite_bounds _ _ _ Vx).
    destruct sx; cbv [cond_Zopp]; cmp_solve; lia.
  - pose proof (rank_finite_bounds _ _ _ Vx).
    destruct sx, sy; cbv [cond_Zopp]; cmp_solve; lia.
  - pose proof (rank_finite_bounds _ _ _ Vx) as Bx.
    pose proof (rank_finite_bounds _ _ _ Vy) as By.
    apply valid_finite in Vx as (Hex & Hmx & Hnx).
    apply valid_finite in Vy as (Hey & Hmy & Hny).
    assert (Hlt : ex < ey ->
                  Zpos mx * 2 ^ (ex + 1074) < Zpos my * 2 ^ (ey + 1074))
      by (intros; apply scaled_lt; lia).
    assert (Hgt : ey < ex ->
                  Zpos my * 2 ^ (ey + 1074) < Zpos mx * 2 ^ (ex + 1074))
      by (intros; apply scaled_lt; lia).
    assert (Hp : 0 < 2 ^ (ex + 1074)) by (apply Z.pow_pos_nonneg; lia).
    destruct sx, sy; cbv [cond_Zopp].
    + destruct (Z.compare_spec ex ey) as [E|E|E].
      * subst ey. rewrite Pos.compare_cont_spec.
        destruct (Pos.compare_spec mx my) as [M|M|M];
          cbn [Pos.switch_Eq CompOpp]; cmp_solve.
        -- subst; reflexivity.
        -- apply Pos2Z.pos_lt_pos in M. nia.
        -- apply Pos2Z.pos_lt_pos in M. nia.
      * cmp_solve. specialize (Hlt E). lia.
      * cmp_solve. specialize (Hgt E). lia.
    + cmp_solve. lia.
    + cmp_solve. lia.
    + destruct (Z.compare_spec ex ey) as [E|E|E].
      * subst ey. rewrite Pos.compare_cont_spec.
        destruct (Pos.compare_spec mx my) as [M|M|M];
          cbn [Pos.switch_Eq CompOpp]; cmp_solve.
        -- subst; reflexivity.
        -- apply Pos2Z.pos_lt_pos in M. nia.
        -- apply Pos2Z.pos_lt_pos in M. nia.
      * cmp_solve. specialize (Hlt E). lia.
      * cmp_solve. specialize (Hgt E). lia.
Qed.


(** *** The sign of a difference *)

Lemma iter_xO (m d : positive) :
  Zpos (Pos.iter xO m d) = Zpos m * 2 ^ Zpos d.
Proof.
  induction d as [|d IH] using Pos.peano_ind.
  - simpl. lia.
  - rewrite Pos.iter_succ, Pos2Z.inj_succ, Z.pow_succ_r by lia.
    rewrite Pos2Z.inj_xO, IH. lia.
Qed.

Lemma shl_align_fst (mx : positive) (ex ez : Z) :
  ez <= ex -> Zpos (fst (shl_align mx ex ez)) = Zpos mx * 2 ^ (ex - ez).
Proof.
  intros H. unfold shl_align.
  destruct (ez - ex) as [|d|d] eqn:E; simpl fst.
  - replace (ex - ez) with 0 by lia. simpl. lia.
  - lia.
  - rewrite iter_xO. f_equal. f_equal. lia.
Qed.

Lemma shr_1_digits (mrs : shr_record) :
  0 <= shr_m mrs ->
  0 <= shr_m (shr_1 mrs)
  /\ Zdigits2 (shr_m (shr_1 mrs)) = Z.max 0 (Zdigits2 (shr_m mrs) - 1).
Proof.
  destruct mrs as [m r s]. cbn [shr_m].
  destruct m as [|[p|p|]|p]; intros H;
    cbn [shr_1 shr_m Zdigits2 digits2_pos]; rewrite ?Pos2Z.inj_succ; lia.
Qed.

Lemma iter_shr_1_digits (p : positive) (mrs : shr_record) :
  0 <= shr_m mrs ->
  0 <= shr_m (SpecFloat.iter_pos shr_1 p mrs)
  /\ Zdigits2 (shr_m (SpecFloat.iter_pos shr_1 p mrs))
     = Z.max 0 (Zdigits2 (shr_m mrs) - Zpos p).
Proof.
  revert mrs. induction p as [p IH|p IH|]; intros mrs H; simpl SpecFloat.iter_pos.
  - destruct (shr_1_digits mrs H) as [H1 E1].
    destruct (IH _ H1) as [H2 E2].
    destruct (IH _ H2) as [H3 E3].
    split; [exact H3|]. rewrite E3, E2, E1. lia.
  - destruct (IH _ H) as [H2 E2].
    destruct (IH _ H2) as [H3 E3].
    split; [exact H3|]. rewrite E3, E2. lia.
  - destruct (shr_1_digits mrs H) as [H1 E1].
    split; [exact H1|]. rewrite E1. lia.
Qed.

Lemma Zdigits2_pos (m : Z) : 0 <= m -> 0 < Zdigits2 m -> 0 < m.
Proof. destruct m; simpl; lia. Qed.

(** Rounding a strictly positive value whose exponent is not below the
    least one never reaches zero. *)
Lemma shr_fexp_pos (m e : Z) (l : location) :
  0 < m -> -1074 <= e ->
  0 < shr_m (fst (shr_fexp prec emax m e l))
  /\ -1074 <= snd (shr_fexp prec emax m e l).
Proof.
  intros Hm He. unfold shr_fexp, shr, fexp, emin, prec, emax.
  assert (H0 : shr_m (shr_record_of_loc m l) = m)
    by (destruct l as [|[]]; reflexivity).
  assert (Hd : 0 < Zdigits2 m) by (destruct m; simpl; lia).
  destruct (Z.max (Zdigits2 m + e - 53) (3 - 1024 - 53) - e) as [|p|p] eqn:E;
    simpl fst; simpl snd.
  - rewrite H0. lia.
  - destruct (iter_shr_1_digits p (shr_record_of_loc m l)) as [H1 E1];
      [rewrite H0; lia|].
    rewrite H0 in E1. split; [|lia].
    apply Zdigits2_pos; [exact H1|]. rewrite E1. lia.
  - rewrite H0. lia.
Qed.

Lemma round_nearest_even_pos (m : Z) (l : location) :
  0 < m -> 0 < round_nearest_even m l.
Proof.
  intros Hm. destruct l as [|[]]; simpl; try lia.
  destruct (Z.even m); lia.
Qed.

Lemma binary_round_aux_pos (m e : Z) (l : location) :
  0 < m -> -1074 <= e ->
  SFltb (S754_zero false) (binary_round_aux prec emax false m e l) = true.
Proof.
  intros Hm He. unfold binary_round_aux.
  destruct (shr_fexp_pos m e l Hm He) as [H1 E1].
  destruct (shr_fexp prec emax m e l) as [mrs' e']. simpl fst in H1.
  simpl snd in E1.
  destruct (shr_fexp_pos _ e' loc_Exact
              (round_nearest_even_pos _ (loc_of_shr_record mrs') H1) E1)
    as [H2 _].
  destruct (shr_fexp prec emax
              (round_nearest_even (shr_m mrs') (loc_of_shr_record mrs')) e'
              loc_Exact) as [mrs'' e'']. simpl fst in H2.
  destruct (shr_m mrs'') as [|q|q]; try lia.
  destruct (e'' <=? emax - prec); reflexivity.
Qed.

Lemma binary_round_pos (m : positive) (e : Z) :
  -1074 <= e ->
  SFltb (S754_zero false) (binary_round prec emax false m e) = true.
Proof.
  intros He. unfold binary_round, shl_align.
  destruct (fexp prec emax (Zpos (digits2_pos m) + e) - e) as [|d|d] eqn:E.
  - apply binary_round_aux_pos; lia.
  - apply binary_round_aux_pos; lia.
  - apply binary_round_aux_pos; [lia|].
    unfold fexp, emin, prec, emax. lia.
Qed.

Lemma binary_round_aux_neg (m e : Z) (l : location) :
  SFltb (S754_zero false) (binary_round_aux prec emax true m e l) = false.
Proof.
  unfold binary_round_aux.
  destruct (shr_fexp prec emax m e l) as [mrs' e'].
  destruct (shr_fexp prec emax
              (round_nearest_even (shr_m mrs') (loc_of_shr_record mrs')) e'
              loc_Exact) as [mrs'' e''].
  destruct (shr_m mrs'') as [|q|q]; try reflexivity.
  destruct (e'' <=? emax - prec); reflexivity.
Qed.

Lemma binary_normalize_sign (m e : Z) :
  -1074 <= e ->
  SFltb (S754_zero false) (binary_normalize prec emax m e false) = (0 <? m).
Proof.
  intros He. unfold binary_normalize.
  destruct m as [|p|p].
  - reflexivity.
  - rewrite binary_round_pos by exact He. reflexivity.
  - unfold binary_round.
    destruct (shl_align p e _) as [mz ez].
    rewrite binary_round_aux_neg. reflexivity.
Qed.

Lemma SFsub_sign (x y : spec_float) :
  SpecFloat.valid_binary prec emax x = true ->
  SpecFloat.valid_binary prec emax y = true ->
  x <> S754_nan -> y <> S754_nan ->
  SFltb (S754_zero false) (SFsub prec emax x y) = (rank y <? rank x).
Proof.
  pose proof infinity_pos as HB.
  destruct x as [sx|sx| |sx mx ex], y as [sy|sy| |sy my ey];
    intros Vx Vy Nx Ny; try congruence; unfold rank, SFsub.
  - destruct sx, sy; reflexivity.
  - destruct sy; cbv [cond_Zopp negb SFltb SFcompare]; symmetry;
      [apply Z.ltb_lt|apply Z.ltb_ge]; lia.
  - pose proof (rank_finite_bounds _ _ _ Vy).
    destruct sy; cbv [cond_Zopp negb SFltb SFcompare]; symmetry;
      [apply Z.ltb_lt|apply Z.ltb_ge]; lia.
  - destruct sx; cbv [cond_Zopp negb SFltb SFcompare]; symmetry;
      [apply Z.ltb_ge|apply Z.ltb_lt]; lia.
  - destruct sx, sy; cbv [cond_Zopp negb SFltb SFcompare]; symmetry;
      try (apply Z.ltb_ge; lia); apply Z.ltb_lt; lia.
  - pose proof (rank_finite_bounds _ _ _ Vy).
    destruct sx, sy; cbv [cond_Zopp negb SFltb SFcompare]; symmetry;
      try (apply Z.ltb_ge; lia); apply Z.ltb_lt; lia.
  - pose proof (rank_finite_bounds _ _ _ Vx).
    destruct sx; cbv [cond_Zopp negb SFltb SFcompare]; symmetry;
      [apply Z.ltb_ge|apply Z.ltb_lt]; lia.
  - pose proof (rank_finite_bounds _ _ _ Vx).
    destruct sx, sy; cbv [cond_Zopp negb SFltb SFcompare]; symmetry;
      try (apply Z.ltb_ge; lia); apply Z.ltb_lt; lia.
  - apply valid_finite in Vx as (Hex & Hmx & _).
    apply valid_finite in Vy as (Hey & Hmy & _).
    cbv zeta.
    rewrite binary_normalize_sign by lia.
    rewrite !shl_align_fst by lia.
    set (ez := Z.min ex ey).
    assert (Hx : 2 ^ (ex + 1074) = 2 ^ (ex - ez) * 2 ^ (ez + 1074))
      by (rewrite <- Z.pow_add_r by lia; f_equal; lia).
    assert (Hy : 2 ^ (ey + 1074) = 2 ^ (ey - ez) * 2 ^ (ez + 1074))
      by (rewrite <- Z.pow_add_r by lia; f_equal; lia).
    rewrite Hx, Hy.
    assert (Hp : 0 < 2 ^ (ez + 1074)) by (apply Z.pow_pos_nonneg; lia).
    assert (Hpx : 0 < 2 ^ (ex - ez)) by (apply Z.pow_pos_nonneg; lia).
    assert (Hpy : 0 < 2 ^ (ey - ez)) by (apply Z.pow_pos_nonneg; lia).
    generalize dependent (2 ^ (ez + 1074)).
    generalize dependent (2 ^ (ex - ez)).
    generalize dependent (2 ^ (ey - ez)).
    intros Py HPy Px HPx P _ _ HP.
    destruct sx, sy; cbv [cond_Zopp];
      destruct (Z.ltb_spec 0 (Zpos mx * Px - Zpos my * Py));
      destruct (Z.ltb_spec 0 (- (Zpos mx * Px) - Zpos my * Py));
      destruct (Z.ltb_spec 0 (Zpos mx * Px - - (Zpos my * Py)));
      destruct (Z.ltb_spec 0 (- (Zpos mx * Px) - - (Zpos my * Py)));
      symmetry; try (apply Z.ltb_lt; nia); try (apply Z.ltb_ge; nia).
Qed.

(** *** The same facts on the primitive numbers *)

#[local] Open Scope float_scope.

Lemma valid_Prim2SF (x : float) :
  SpecFloat.valid_binary prec emax (Prim2SF x) = true.
Proof. exact (Prim2SF_valid x). Qed.

Lemma not_nan_spec (x : float) :
  PrimFloat.is_nan x = false <-> Prim2SF x <> S754_nan.
Proof. exact (JsNumFacts.is_nan_false_spec x). Qed.

Lemma ltb_position (a b : float) :
  PrimFloat.is_nan a = false -> PrimFloat.is_nan b = false ->
  (a <? b) = (position a <? position b)%Z.
Proof.
  rewrite !not_nan_spec. intros Ha Hb.
  rewrite FloatAxioms.ltb_spec. unfold SFltb, position.
  rewrite (SFcompare_rank _ _ (valid_Prim2SF a) (valid_Prim2SF b) Ha Hb).
  unfold Z.ltb. destruct (rank (Prim2SF a) ?= rank (Prim2SF b))%Z; reflexivity.
Qed.

Lemma leb_position (a b : float) :
  PrimFloat.is_nan a = false -> PrimFloat.is_nan b = false ->
  (a <=? b) = (position a <=? position b)%Z.
Proof.
  rewrite !not_nan_spec. intros Ha Hb.
  rewrite FloatAxioms.leb_spec. unfold SFleb, position.
  rewrite (SFcompare_rank _ _ (valid_Prim2SF a) (valid_Prim2SF b) Ha Hb).
  unfold Z.leb. destruct (rank (Prim2SF a) ?= rank (Prim2SF b))%Z; reflexivity.
Qed.

Lemma eqb_position (a b : float) :
  PrimFloat.is_nan a = false -> PrimFloat.is_nan b = false ->
  (a =? b) = (position a =? position b)%Z.
Proof.
  rewrite !not_nan_spec. intros Ha Hb.
  rewrite FloatAxioms.eqb_spec. unfold SFeqb, position.
  rewrite (SFcompare_rank _ _ (valid_Prim2SF a) (valid_Prim2SF b) Ha Hb).
  destruct (Z.compare_spec (rank (Prim2SF a)) (rank (Prim2SF b))) as [E|E|E];
    symmetry; [apply Z.eqb_eq|apply Z.eqb_neq|apply Z.eqb_neq]; lia.
Qed.

(** [a - b > 0] exactly when [a > b], for all numbers: a difference of
    distinct numbers is never rounded to zero. *)
Lemma sub_pos_ltb (a b : float) : (0 <? a - b) = (b <? a).
Proof.
  rewrite !FloatAxioms.ltb_spec, FloatAxioms.sub_spec.
  assert (Hz : Prim2SF 0 = S754_zero false) by reflexivity.
  rewrite Hz. unfold SF64sub.
  destruct (PrimFloat.is_nan a) eqn:Ha.
  { assert (E : Prim2SF a = S754_nan).
    { destruct (Prim2SF a) eqn:E'; try reflexivity;
        assert (N : Prim2SF a <> S754_nan) by congruence;
        apply not_nan_spec in N; congruence. }
    rewrite E. unfold SFsub, SFltb, SFcompare.
    destruct (Prim2SF b); reflexivity. }
  destruct (PrimFloat.is_nan b) eqn:Hb.
  { assert (E : Prim2SF b = S754_nan).
    { destruct (Prim2SF b) eqn:E'; try reflexivity;
        assert (N : Prim2SF b <> S754_nan) by congruence;
        apply not_nan_spec in N; congruence. }
    rewrite E. unfold SFsub, SFltb, SFcompare.
    destruct (Prim2SF a) as [s|s| |s m e]; try reflexivity. }
  pose proof (proj1 (not_nan_spec a) Ha) as Na.
  pose proof (proj1 (not_nan_spec b) Hb) as Nb.
  rewrite (SFsub_sign _ _ (valid_Prim2SF a) (valid_Prim2SF b) Na Nb).
  unfold SFltb.
  rewrite (SFcompare_rank _ _ (valid_Prim2SF b) (valid_Prim2SF a) Nb Na).
  unfold Z.ltb. destruct (rank (Prim2SF b) ?= rank (Prim2SF a))%Z; reflexivity.
Qed.

(** The order is total and transitive on the numbers that are not NaN. *)
Lemma leb_total (a b : float) :
  PrimFloat.is_nan a = false -> PrimFloat.is_nan b = false ->
  (a <=? b) = true \/ (b <=? a) = true.
Proof.
  intros Ha Hb. rewrite !leb_position by assumption.
  destruct (Z.leb_spec (position a) (position b)); [left; reflexivity|].
  right. apply Z.leb_le. lia.
Qed.

Lemma leb_trans (a b c : float) :
  (a <=? b) = true -> (b <=? c) = true -> (a <=? c) = true.
Proof.
  intros Hab Hbc.
  destruct (JsNumFacts.leb_not_nan _ _ Hab) as [Ha Hb].
  destruct (JsNumFacts.leb_not_nan _ _ Hbc) as [_ Hc].
  rewrite leb_position in * by assumption.
  apply Z.leb_le in Hab, Hbc. apply Z.leb_le. lia.
Qed.

Lemma ltb_leb_false (a b : float) :
  PrimFloat.is_nan a = false -> PrimFloat.is_nan b = false ->
  (a <? b) = false -> (b <=? a) = true.
Proof.
  intros Ha Hb. rewrite ltb_position, leb_position by assumption.
  intros H. apply Z.ltb_ge in H. apply Z.leb_le. exact H.
Qed.

Lemma ltb_leb (a b : float) : (a <? b) = true -> (a <=? b) = true.
Proof.
  intros H. destruct (JsNumFacts.ltb_not_nan _ _ H) as [Ha Hb].
  rewrite ltb_position in H by assumption.
  rewrite leb_position by assumption.
  apply Z.ltb_lt in H. apply Z.leb_le. lia.
Qed.

Lemma eqb_leb (a b : float) : (a =? b) = true -> (a <=? b) = true.
Proof.
  rewrite FloatAxioms.eqb_spec, FloatAxioms.leb_spec. unfold SFeqb, SFleb.
  destruct (SFcompare (Prim2SF a) (Prim2SF b)) as [[]|]; congruence.
Qed.

(** The sum of two strictly positive numbers is strictly positive. *)
Lemma add_pos_pos (a b : float) :
  (0 <? a) = true -> (0 <? b) = true -> (0 <? a + b) = true.
Proof.
  intros Ha Hb.
  pose proof (valid_Prim2SF a) as Va. pose proof (valid_Prim2SF b) as Vb.
  rewrite FloatAxioms.ltb_spec, FloatAxioms.add_spec.
  assert (Hz : Prim2SF 0 = S754_zero false) by reflexivity.
  rewrite Hz. unfold SF64add, SFadd.
  destruct (JsNumFacts.pos_spec a Ha) as [(ma & ea & Ea)|Ea],
           (JsNumFacts.pos_spec b Hb) as [(mb & eb & Eb)|Eb];
    rewrite Ea, Eb in *; cbv beta iota zeta; try reflexivity.
  apply valid_finite in Va as (Hea & _ & _).
  apply valid_finite in Vb as (Heb & _ & _).
  rewrite binary_normalize_sign by lia.
  cbv [cond_Zopp]. apply Z.ltb_lt. lia.
Qed.

Lemma two_sub_not_nan (z : float) :
  PrimFloat.is_nan z = false -> PrimFloat.is_nan (2 - z) = false.
Proof.
  intros Hz. apply not_nan_spec. apply not_nan_spec in Hz.
  rewrite FloatAxioms.sub_spec. unfold SF64sub, SFsub.
  assert (H2 : Prim2SF 2 = S754_finite false 4503599627370496 (-51))
    by reflexivity.
  rewrite H2.
  destruct (Prim2SF z) as [s|s| |s m e]; cbv beta iota zeta;
    try discriminate; try congruence.
  apply JsNumFacts.binary_normalize_not_nan.
Qed.

Lemma opp_not_nan (z : float) :
  PrimFloat.is_nan z = false -> PrimFloat.is_nan (- z) = false.
Proof.
  intros Hz. apply not_nan_spec. apply not_nan_spec in Hz.
  rewrite FloatAxioms.opp_spec. unfold SFopp.
  destruct (Prim2SF z) as [s|s| |s m e]; congruence.
Qed.

Lemma Math_min_pos (a b : float) :
  (0 <? a) = true -> (0 <? b) = true -> (0 <? JsNum.Math_min a b) = true.
Proof.
  intros Ha Hb.
  destruct (JsNumFacts.ltb_not_nan _ _ Ha) as [_ Na].
  destruct (JsNumFacts.ltb_not_nan _ _ Hb) as [_ Nb].
  destruct (JsNumFacts.Math_min_cases a b Na Nb) as [-> | ->]; assumption.
Qed.

(** [Math.min] is below both of its arguments. *)
Lemma Math_min_leb (a b : float) :
  PrimFloat.is_nan a = false -> PrimFloat.is_nan b = false ->
  (JsNum.Math_min a b <=? a) = true /\ (JsNum.Math_min a b <=? b) = true.
Proof.
  intros Na Nb. unfold JsNum.Math_min, JsNum.isNaN. rewrite Na, Nb. simpl.
  assert (Raa : (a <=? a) = true)
    by (rewrite leb_position by assumption; apply Z.leb_refl).
  assert (Rbb : (b <=? b) = true)
    by (rewrite leb_position by assumption; apply Z.leb_refl).
  destruct (a <? b) eqn:Hab.
  - split; [exact Raa|]. apply ltb_leb; exact Hab.
  - destruct (b <? a) eqn:Hba.
    + split; [|exact Rbb]. apply ltb_leb; exact Hba.
    + pose proof (ltb_leb_false _ _ Na Nb Hab) as H1.
      pose proof (ltb_leb_false _ _ Nb Na Hba) as H2.
      destruct (get_sign a); split; assumption.
Qed.

End JsOrderFacts.

(** ** [Array.prototype.sort]: what the comparators of the code give *)

Module SortFacts.

Import JsNum.

Lemma sort_insert_Permutation {A : Type} (cmp : A -> A -> number) (x : A)
    (l : list A) :
  Permutation (JsArray.sort_insert cmp x l) (x :: l).
Proof.
  induction l as [|y l IH]; simpl.
  - reflexivity.
  - destruct (0 <? cmp x y)%float.
    + rewrite IH. apply perm_swap.
    + reflexivity.
Qed.

Lemma sort_Permutation {A : Type} (cmp : A -> A -> number) (l : list A) :
  Permutation (JsArray.sort cmp l) l.
Proof.
  induction l as [|x l IH]; simpl.
  - reflexivity.
  - unfold JsArray.sort in IH. rewrite sort_insert_Permutation, IH.
    reflexivity.
Qed.

Lemma sort_length {A : Type} (cmp : A -> A -> number) (l : list A) :
  length (JsArray.sort cmp l) = length l.
Proof. apply Permutation_length, sort_Permutation. Qed.

Lemma sort_nil_inv {A : Type} (cmp : A -> A -> number) (l : list A) :
  JsArray.sort cmp l = [] -> l = [].
Proof.
  intros H. pose proof (sort_length cmp l) as E. rewrite H in E.
  destruct l; [reflexivity|discriminate].
Qed.

Section Ranked.

Context {A : Type} (cmp : A -> A -> number) (r : A -> Z).

(** The comparator is positive exactly when its second argument ranks
    strictly below its first. *)
Lemma sort_insert_ranked (x : A) (l : list A) :
  (forall y, In y l -> (0 <? cmp x y)%float = (r y <? r x)) ->
  StronglySorted (fun a b => r a <= r b) l ->
  StronglySorted (fun a b => r a <= r b) (JsArray.sort_insert cmp x l).
Proof.
  induction l as [|y l IH]; intros Hc Hs; simpl.
  - constructor; constructor.
  - apply StronglySorted_inv in Hs as [Hs Hy].
    rewrite (Hc y) by (left; reflexivity).
    destruct (Z.ltb_spec (r y) (r x)) as [Hlt|Hge].
    + constructor.
      * apply IH; [|exact Hs]. intros z Hz. apply Hc. right; exact Hz.
      * apply List.Forall_forall. intros z Hz.
        apply JsArrayFacts.In_sort_insert in Hz as [-> | Hz]; [lia|].
        rewrite List.Forall_forall in Hy. apply Hy; exact Hz.
    + constructor.
      * constructor; assumption.
      * constructor; [exact Hge|].
        rewrite List.Forall_forall in Hy. apply List.Forall_forall.
        intros z Hz. specialize (Hy z Hz). lia.
Qed.

Lemma sort_ranked (l : list A) :
  (forall x y, In x l -> In y l -> (0 <? cmp x y)%float = (r y <? r x)) ->
  StronglySorted (fun a b => r a <= r b) (JsArray.sort cmp l).
Proof.
  induction l as [|x l IH]; intros Hc; simpl.
  - constructor.
  - apply sort_insert_ranked.
    + intros y Hy. apply JsArrayFacts.In_sort in Hy.
      apply Hc; [left; reflexivity|right; exact Hy].
    + apply IH. intros a b Ha Hb. apply Hc; right; assumption.
Qed.

End Ranked.

Lemma StronglySorted_weaken {A : Type} (R R' : A -> A -> Prop) (l : list A) :
  (forall a b, In a l -> In b l -> R a b -> R' a b) ->
  StronglySorted R l -> StronglySorted R' l.
Proof.
  induction l as [|x l IH]; intros Hw Hs.
  - constructor.
  - apply StronglySorted_inv in Hs as [Hs Hx]. constructor.
    + apply IH; [|exact Hs]. intros a b Ha Hb. apply Hw; right; assumption.
    + rewrite List.Forall_forall in Hx. apply List.Forall_forall. intros y Hy.
      apply Hw; [left; reflexivity|right; exact Hy|]. apply Hx; exact Hy.
Qed.

(** Sorting by [key a - key b] puts the keys in ascending order, and by
    [key b - key a] in descending order, when no key is NaN. *)
Lemma sort_ascending {A : Type} (key : A -> number) (l : list A) :
  (forall x, In x l -> isNaN (key x) = false) ->
  StronglySorted (fun a b => (key a <=? key b)%float = true)
    (JsArray.sort (fun a b => (key a - key b)%float) l).
Proof.
  intros Hn.
  apply StronglySorted_weaken
    with (R := fun a b => JsOrder.position (key a) <= JsOrder.position (key b)).
  - intros a b Ha Hb H. apply JsArrayFacts.In_sort in Ha, Hb.
    rewrite JsOrderFacts.leb_position by (apply Hn; assumption).
    apply Z.leb_le. exact H.
  - apply (sort_ranked _ (fun a => JsOrder.position (key a))).
    intros x y Hx Hy. rewrite JsOrderFacts.sub_pos_ltb.
    apply JsOrderFacts.ltb_position; apply Hn; assumption.
Qed.

Lemma sort_descending {A : Type} (key : A -> number) (l : list A) :
  (forall x, In x l -> isNaN (key x) = false) ->
  StronglySorted (fun a b => (key b <=? key a)%float = true)
    (JsArray.sort (fun a b => (key b - key a)%float) l).
Proof.
  intros Hn.
  apply StronglySorted_weaken
    with (R := fun a b =>
                 - JsOrder.position (key a) <= - JsOrder.position (key b)).
  - intros a b Ha Hb H. apply JsArrayFacts.In_sort in Ha, Hb.
    rewrite JsOrderFacts.leb_position by (apply Hn; assumption).
    apply Z.leb_le. lia.
  - apply (sort_ranked _ (fun a => - JsOrder.position (key a))).
    intros x y Hx Hy. rewrite JsOrderFacts.sub_pos_ltb.
    rewrite JsOrderFacts.ltb_position by (apply Hn; assumption).
    destruct (Z.ltb_spec (JsOrder.position (key x)) (JsOrder.position (key y)));
      symmetry; [apply Z.ltb_lt|apply Z.ltb_ge]; lia.
Qed.

(** A list no element of which the comparator puts after its successor is
    left as it is. *)
Lemma sort_sorted_id {A : Type} (cmp : A -> A -> number) (l : list A) :
  Sorted (fun a b => (0 <? cmp a b)%float = false) l ->
  JsArray.sort cmp l = l.
Proof.
  unfold JsArray.sort. induction l as [|x l IH]; intros Hs; simpl.
  - reflexivity.
  - apply Sorted_inv in Hs as [Hs Hx].
    rewrite (IH Hs).
    destruct l as [|y l]; simpl; [reflexivity|].
    apply HdRel_inv in Hx. rewrite Hx. reflexivity.
Qed.

(** The first element of a strongly sorted list is in relation with every
    other. *)
Lemma StronglySorted_head {A : Type} (R : A -> A -> Prop) (x : A)
    (l : list A) :
  StronglySorted R (x :: l) -> forall y, In y l -> R x y.
Proof.
  intros Hs y Hy. apply StronglySorted_inv in Hs as [_ Hx].
  rewrite List.Forall_forall in Hx. apply Hx; exact Hy.
Qed.

End SortFacts.

(** ** Sets of strings, and lists filtered through a partial function *)

Module SetFacts.

Lemma not_in_added (x y : string) (s : gset string) :
  x ∉ {[ y ]} ∪ s -> x <> y /\ x ∉ s.
Proof.
  intros H. split.
  - intros ->. apply H, elem_of_union. left. apply elem_of_singleton.
    reflexivity.
  - intros Hx. apply H, elem_of_union. right. exact Hx.
Qed.

Lemma in_added (y : string) (s : gset string) : y ∈ {[ y ]} ∪ s.
Proof. apply elem_of_union. left. apply elem_of_singleton. reflexivity. Qed.

Lemma not_in_added_intro (x y : string) (s : gset string) :
  x <> y -> x ∉ s -> x ∉ {[ y ]} ∪ s.
Proof.
  intros Hne Hs H. apply elem_of_union in H as [H|H].
  - apply elem_of_singleton in H. contradiction.
  - contradiction.
Qed.

Lemma omap_In {A B : Type} (f : A -> option B) (l : list A) (y : B) :
  In y (omap f l) <-> exists x, In x l /\ f x = Some y.
Proof.
  rewrite <- list_elem_of_In, list_elem_of_omap.
  split; intros (x & H1 & H2); exists x; split; auto;
    apply list_elem_of_In; exact H1.
Qed.

End SetFacts.

(** ** [src/clobApi.ts]: the best levels of a book *)

Module ClobFacts.

Import JsNum Types.
#[local] Open Scope float_scope.

Lemma getBestAsk_head (book : OrderBook) :
  Clob.getBestAsk book
  = head (JsArray.sort (fun a b => price a - price b) (asks book)).
Proof.
  unfold Clob.getBestAsk.
  destruct (JsArray.sort _ (asks book)); reflexivity.
Qed.

Lemma getBestBid_head (book : OrderBook) :
  Clob.getBestBid book
  = head (JsArray.sort (fun a b => price b - price a) (bids book)).
Proof.
  unfold Clob.getBestBid.
  destruct (JsArray.sort _ (bids book)); reflexivity.
Qed.

Lemma head_sort_None {A : Type} (cmp : A -> A -> number) (l : list A) :
  head (JsArray.sort cmp l) = None <-> l = [].
Proof.
  split.
  - intros H. apply (SortFacts.sort_nil_inv cmp).
    destruct (JsArray.sort cmp l); [reflexivity|discriminate].
  - intros ->. reflexivity.
Qed.

Lemma head_In {A : Type} (l : list A) (x : A) : head l = Some x -> In x l.
Proof. destruct l; simpl; intros H; inversion H; auto. Qed.

(** X1.  A side of the book that is empty gives [null], and only an empty
    side does: [getBestAsk] is [null] exactly when the book has no asks,
    [getBestBid] exactly when it has no bids, and [getMidPrice] exactly
    when one of the two sides is empty. *)
Theorem empty_side_gives_null (book : OrderBook) :
  (Clob.getBestAsk book = None <-> asks book = [])
  /\ (Clob.getBestBid book = None <-> bids book = [])
  /\ (Clob.getMidPrice book = None <-> bids book = [] \/ asks book = []).
Proof.
  assert (Ha : Clob.getBestAsk book = None <-> asks book = [])
    by (rewrite getBestAsk_head; apply head_sort_None).
  assert (Hb : Clob.getBestBid book = None <-> bids book = [])
    by (rewrite getBestBid_head; apply head_sort_None).
  split; [exact Ha|]. split; [exact Hb|].
  unfold Clob.getMidPrice.
  destruct (Clob.getBestBid book) as [bid|] eqn:Eb,
           (Clob.getBestAsk book) as [ask|] eqn:Ea.
  - split; [discriminate|]. intros [H|H].
    + apply Hb in H. discriminate.
    + apply Ha in H. discriminate.
  - split; [intros _; right; apply Ha; reflexivity|reflexivity].
  - split; [intros _; left; apply Hb; reflexivity|reflexivity].
  - split; [intros _; left; apply Hb; reflexivity|reflexivity].
Qed.

(** X2.  When no price of the book is NaN, the level [getBestAsk] returns
    is a level of the book with the lowest ask price, and the level
    [getBestBid] returns is a level of the book with the highest bid
    price, whatever the order in which the book lists its levels. *)
Theorem best_levels_are_extreme (book : OrderBook) :
  (forall level, In level (asks book) -> isNaN (price level) = false) ->
  (forall level, In level (bids book) -> isNaN (price level) = false) ->
  (forall best,
     Clob.getBestAsk book = Some best ->
     In best (asks book)
     /\ forall level, In level (asks book) ->
          (price best <=? price level) = true)
  /\ (forall best,
        Clob.getBestBid book = Some best ->
        In best (bids book)
        /\ forall level, In level (bids book) ->
             (price level <=? price best) = true).
Proof.
  intros Hna Hnb. split.
  - intros best. rewrite getBestAsk_head. intros H.
    pose proof (SortFacts.sort_ascending price (asks book) Hna) as Hs.
    destruct (JsArray.sort (fun a b => price a - price b) (asks book))
      as [|x l] eqn:E; [discriminate|].
    injection H as ->.
    assert (Hin : forall y, In y (asks book) <-> In y (best :: l))
      by (intros y; rewrite <- E; symmetry; apply JsArrayFacts.In_sort).
    split; [apply Hin; left; reflexivity|].
    intros level Hl. apply Hin in Hl as [<- | Hl].
    + rewrite JsOrderFacts.leb_position
        by (apply Hna, Hin; left; reflexivity).
      apply Z.leb_refl.
    + exact (SortFacts.StronglySorted_head _ _ _ Hs level Hl).
  - intros best. rewrite getBestBid_head. intros H.
    pose proof (SortFacts.sort_descending price (bids book) Hnb) as Hs.
    destruct (JsArray.sort (fun a b => price b - price a) (bids book))
      as [|x l] eqn:E; [discriminate|].
    injection H as ->.
    assert (Hin : forall y, In y (bids book) <-> In y (best :: l))
      by (intros y; rewrite <- E; symmetry; apply JsArrayFacts.In_sort).
    split; [apply Hin; left; reflexivity|].
    intros level Hl. apply Hin in Hl as [<- | Hl].
    + rewrite JsOrderFacts.leb_position
        by (apply Hnb, Hin; left; reflexivity).
      apply Z.leb_refl.
    + exact (SortFacts.StronglySorted_head _ _ _ Hs level Hl).
Qed.

Lemma best_levels_are_extreme_witness :
  (forall best,
     Clob.getBestAsk Sample.shuffled = Some best ->
     In best (asks Sample.shuffled)
     /\ forall level, In level (asks Sample.shuffled) ->
          (price best <=? price level) = true)
  /\ (forall best,
        Clob.getBestBid Sample.shuffled = Some best ->
        In best (bids Sample.shuffled)
        /\ forall level, In level (bids Sample.shuffled) ->
             (price level <=? price best) = true).
Proof.
  apply (best_levels_are_extreme Sample.shuffled).
  - intros level [<-|[<-|[<-|[]]]]; reflexivity.
  - intros level [<-|[<-|[]]]; reflexivity.
Defined.

End ClobFacts.

(** ** [src/websocket.ts] and [src/scanner.ts]: from a message to the cache *)

Module StreamFacts.

Import JsNum Types.
#[local] Open Scope float_scope.

Lemma Sorted_weaken {A : Type} (R R' : A -> A -> Prop) (l : list A) :
  (forall a b, R a b -> R' a b) -> Sorted R l -> Sorted R' l.
Proof.
  intros Hw. induction 1 as [|x l Hs IH Hx]; constructor; auto.
  destruct Hx; constructor; auto.
Qed.

(** The book a [book] message describes, as the snapshot helpers read it. *)
Lemma bestAsk_of_sorted (book : OrderBook) :
  Sorted (fun a b => (price b <? price a) = false) (asks book) ->
  Clob.getBestAsk book = head (asks book).
Proof.
  intros Hs. rewrite ClobFacts.getBestAsk_head.
  rewrite SortFacts.sort_sorted_id; [reflexivity|].
  apply Sorted_weaken with (2 := Hs). intros a b H.
  rewrite JsOrderFacts.sub_pos_ltb. exact H.
Qed.

Lemma bestBid_of_sorted (book : OrderBook) :
  Sorted (fun a b => (price a <? price b) = false) (bids book) ->
  Clob.getBestBid book = head (bids book).
Proof.
  intros Hs. rewrite ClobFacts.getBestBid_head.
  rewrite SortFacts.sort_sorted_id; [reflexivity|].
  apply Sorted_weaken with (2 := Hs). intros a b H.
  rewrite JsOrderFacts.sub_pos_ltb. exact H.
Qed.

(** X3.  [parseBookUpdate] takes the first level of each side.  When the
    message lists its asks with no price below the one before it and its
    bids with no price above the one before it, these are the levels the
    snapshot helpers [getBestAsk] and [getBestBid] pick from the same
    levels, and on a token without a cached record the streaming path
    stores the prices and sizes the snapshot path stores. *)
Theorem streamed_best_agrees_with_snapshot (msg : WS.BookUpdate) (now : Z) :
  Sorted (fun a b => (price b <? price a) = false) (WS.asks msg) ->
  Sorted (fun a b => (price a <? price b) = false) (WS.bids msg) ->
  (WS.bestAsk (WS.parseBookUpdate msg)
   = option_map price
       (Clob.getBestAsk {| bids := WS.bids msg; asks := WS.asks msg |})
   /\ WS.bestAskSize (WS.parseBookUpdate msg)
      = option_map size
          (Clob.getBestAsk {| bids := WS.bids msg; asks := WS.asks msg |})
   /\ WS.bestBid (WS.parseBookUpdate msg)
      = option_map price
          (Clob.getBestBid {| bids := WS.bids msg; asks := WS.asks msg |})
   /\ WS.bestBidSize (WS.parseBookUpdate msg)
      = option_map size
          (Clob.getBestBid {| bids := WS.bids msg; asks := WS.asks msg |}))
  /\ (let streamed := PriceCache.ofWebSocket (WS.parseBookUpdate msg) None in
      let snapshot :=
        PriceCache.ofOrderBook
          {| bids := WS.bids msg; asks := WS.asks msg |} now in
      bestAsk streamed = bestAsk snapshot
      /\ bestAskSize streamed = bestAskSize snapshot
      /\ bestBid streamed = bestBid snapshot
      /\ bestBidSize streamed = bestBidSize snapshot).
Proof.
  intros Ha Hb.
  pose proof (bestAsk_of_sorted {| bids := WS.bids msg; asks := WS.asks msg |}
                Ha) as Ea.
  pose proof (bestBid_of_sorted {| bids := WS.bids msg; asks := WS.asks msg |}
                Hb) as Eb.
  simpl asks in Ea. simpl bids in Eb.
  unfold PriceCache.ofWebSocket, PriceCache.ofOrderBook.
  rewrite Ea, Eb. simpl.
  repeat split;
    destruct (head (WS.asks msg)), (head (WS.bids msg)); reflexivity.
Qed.

Lemma streamed_best_agrees_with_snapshot_witness :
  (WS.bestAsk (WS.parseBookUpdate Sample.bookMessage)
   = option_map price
       (Clob.getBestAsk {| bids := WS.bids Sample.bookMessage;
                           asks := WS.asks Sample.bookMessage |})
   /\ WS.bestAskSize (WS.parseBookUpdate Sample.bookMessage)
      = option_map size
          (Clob.getBestAsk {| bids := WS.bids Sample.bookMessage;
                              asks := WS.asks Sample.bookMessage |})
   /\ WS.bestBid (WS.parseBookUpdate Sample.bookMessage)
      = option_map price
          (Clob.getBestBid {| bids := WS.bids Sample.bookMessage;
                              asks := WS.asks Sample.bookMessage |})
   /\ WS.bestBidSize (WS.parseBookUpdate Sample.bookMessage)
      = option_map size
          (Clob.getBestBid {| bids := WS.bids Sample.bookMessage;
                              asks := WS.asks Sample.bookMessage |}))
  /\ (let streamed :=
        PriceCache.ofWebSocket (WS.parseBookUpdate Sample.bookMessage) None in
      let snapshot :=
        PriceCache.ofOrderBook
          {| bids := WS.bids Sample.bookMessage;
             asks := WS.asks Sample.bookMessage |} 7 in
      bestAsk streamed = bestAsk snapshot
      /\ bestAskSize streamed = bestAskSize snapshot
      /\ bestBid streamed = bestBid snapshot
      /\ bestBidSize streamed = bestBidSize snapshot).
Proof.
  apply (streamed_best_agrees_with_snapshot Sample.bookMessage 7).
  - repeat constructor.
  - repeat constructor.
Defined.

(** *** What the listeners of the scanner do to the detector *)

Lemma onEvent_registrations (d : Arb.ArbitrageDetector) (now : Z)
    (event : WS.Event) :
  Arb.marketPairs (fst (Scanner.onEvent d now event)) = Arb.marketPairs d
  /\ Arb.marketLookup (fst (Scanner.onEvent d now event)) = Arb.marketLookup d
  /\ Arb.config (fst (Scanner.onEvent d now event)) = Arb.config d.
Proof. destruct event; simpl; auto. Qed.

Lemma onEvents_registrations (d : Arb.ArbitrageDetector) (now : Z)
    (events : list WS.Event) :
  Arb.marketPairs (fst (Scanner.onEvents d now events)) = Arb.marketPairs d
  /\ Arb.marketLookup (fst (Scanner.onEvents d now events))
     = Arb.marketLookup d
  /\ Arb.config (fst (Scanner.onEvents d now events)) = Arb.config d.
Proof.
  revert d. induction events as [|event rest IH]; intros d; simpl; auto.
  pose proof (onEvent_registrations d now event) as H1.
  destruct (Scanner.onEvent d now event) as [d' opp]. simpl in H1.
  pose proof (IH d') as H2.
  destruct (Scanner.onEvents d' now rest) as [d'' opps]. simpl in *.
  destruct H1 as (E1 & E2 & E3), H2 as (F1 & F2 & F3).
  repeat split; congruence.
Qed.

(** One streamed update: the record of its token is the merge, every other
    record is left alone. *)
Lemma updateFromWebSocket_lookup (d : Arb.ArbitrageDetector) (now : Z)
    (update : WS.ParsedBookUpdate) (t : string) :
  Arb.tokenPrices (fst (Arb.updateFromWebSocket d now update)) !! t
  = if String.eqb t (WS.tokenId update)
    then Some (PriceCache.ofWebSocket update
                 (Arb.tokenPrices d !! WS.tokenId update))
    else Arb.tokenPrices d !! t.
Proof.
  simpl. unfold PriceCache.applyWebSocket.
  destruct (String.eqb_spec t (WS.tokenId update)) as [->|Hne].
  - apply lookup_insert_eq.
  - apply lookup_insert_ne. congruence.
Qed.

(** X4.  A streamed [book] message whose ask side is empty leaves the
    cached best ask and its size as they were, and likewise for an empty
    bid side; a side that is not empty puts its first level in the cache.
    The records of the other tokens and the registered markets are not
    touched. *)
Theorem streamed_book_keeps_missing_side (parseFloat : string -> number)
    (d : Arb.ArbitrageDetector) (now : Z) (msg : WS.BookUpdate) :
  (WS.asks msg = [] ->
   (Arb.tokenPrices
      (fst (Scanner.onMessage parseFloat d now (WS.BookMessage msg)))
      !! WS.asset_id msg) ≫= bestAsk
   = (Arb.tokenPrices d !! WS.asset_id msg) ≫= bestAsk
   /\ (Arb.tokenPrices
         (fst (Scanner.onMessage parseFloat d now (WS.BookMessage msg)))
         !! WS.asset_id msg) ≫= bestAskSize
      = (Arb.tokenPrices d !! WS.asset_id msg) ≫= bestAskSize)
  /\ (WS.bids msg = [] ->
      (Arb.tokenPrices
         (fst (Scanner.onMessage parseFloat d now (WS.BookMessage msg)))
         !! WS.asset_id msg) ≫= bestBid
      = (Arb.tokenPrices d !! WS.asset_id msg) ≫= bestBid
      /\ (Arb.tokenPrices
            (fst (Scanner.onMessage parseFloat d now (WS.BookMessage msg)))
            !! WS.asset_id msg) ≫= bestBidSize
         = (Arb.tokenPrices d !! WS.asset_id msg) ≫= bestBidSize)
  /\ (forall level rest,
        WS.asks msg = level :: rest ->
        (Arb.tokenPrices
           (fst (Scanner.onMessage parseFloat d now (WS.BookMessage msg)))
           !! WS.asset_id msg) ≫= bestAsk = Some (price level)
        /\ (Arb.tokenPrices
              (fst (Scanner.onMessage parseFloat d now (WS.BookMessage msg)))
              !! WS.asset_id msg) ≫= bestAskSize = Some (size level))
  /\ (forall level rest,
        WS.bids msg = level :: rest ->
        (Arb.tokenPrices
           (fst (Scanner.onMessage parseFloat d now (WS.BookMessage msg)))
           !! WS.asset_id msg) ≫= bestBid = Some (price level)
        /\ (Arb.tokenPrices
              (fst (Scanner.onMessage parseFloat d now (WS.BookMessage msg)))
              !! WS.asset_id msg) ≫= bestBidSize = Some (size level))
  /\ (forall t,
        t <> WS.asset_id msg ->
        Arb.tokenPrices
          (fst (Scanner.onMessage parseFloat d now (WS.BookMessage msg))) !! t
        = Arb.tokenPrices d !! t)
  /\ Arb.marketPairs
       (fst (Scanner.onMessage parseFloat d now (WS.BookMessage msg)))
     = Arb.marketPairs d.
Proof.
  unfold Scanner.onMessage. cbn [WS.handleMessage Scanner.onEvents].
  cbn [Scanner.onEvent].
  destruct (Arb.updateFromWebSocket d now (WS.parseBookUpdate msg))
    as [d' opp] eqn:E.
  assert (Hd : d' = fst (Arb.updateFromWebSocket d now (WS.parseBookUpdate msg)))
    by (rewrite E; reflexivity).
  cbn [fst].
  assert (Hself :
    Arb.tokenPrices d' !! WS.asset_id msg
    = Some (PriceCache.ofWebSocket (WS.parseBookUpdate msg)
              (Arb.tokenPrices d !! WS.asset_id msg))).
  { rewrite Hd, updateFromWebSocket_lookup. cbn [WS.parseBookUpdate WS.tokenId].
    rewrite String.eqb_refl. reflexivity. }
  rewrite Hself. cbn [mbind option_bind PriceCache.ofWebSocket
                       bestAsk bestAskSize bestBid bestBidSize
                       WS.parseBookUpdate WS.bestAsk WS.bestAskSize
                       WS.bestBid WS.bestBidSize].
  repeat split.
  - rewrite H. reflexivity.
  - rewrite H. reflexivity.
  - rewrite H. reflexivity.
  - rewrite H. reflexivity.
  - rewrite H. reflexivity.
  - rewrite H. reflexivity.
  - rewrite H. reflexivity.
  - rewrite H. reflexivity.
  - intros t Ht. rewrite Hd, updateFromWebSocket_lookup.
    cbn [WS.parseBookUpdate WS.tokenId].
    destruct (String.eqb_spec t (WS.asset_id msg)); [contradiction|reflexivity].
  - rewrite Hd. reflexivity.
Qed.

Lemma price_events_keep_sizes (d : Arb.ArbitrageDetector) (now : Z)
    (updates : list WS.ParsedBookUpdate) (t : string) :
  Forall (fun update => WS.bestAskSize update = None
                        /\ WS.bestBidSize update = None) updates ->
  (Arb.tokenPrices
     (fst (Scanner.onEvents d now (map WS.PriceEvent updates))) !! t)
     ≫= bestAskSize
  = (Arb.tokenPrices d !! t) ≫= bestAskSize
  /\ (Arb.tokenPrices
        (fst (Scanner.onEvents d now (map WS.PriceEvent updates))) !! t)
       ≫= bestBidSize
     = (Arb.tokenPrices d !! t) ≫= bestBidSize.
Proof.
  revert d. induction updates as [|update rest IH]; intros d Hall.
  - simpl. auto.
  - apply Forall_cons_1 in Hall as [[Hask Hbid] Hrest].
    cbn [map Scanner.onEvents Scanner.onEvent].
    pose proof (updateFromWebSocket_lookup d now update t) as Hl.
    destruct (Arb.updateFromWebSocket d now update) as [d' opp].
    cbn [fst] in Hl.
    specialize (IH d' Hrest).
    destruct (Scanner.onEvents d' now (map WS.PriceEvent rest)) as [d'' opps].
    cbn [fst] in *. destruct IH as [-> ->]. rewrite Hl.
    destruct (String.eqb_spec t (WS.tokenId update)) as [->|Hne];
      [|auto].
    cbn [mbind option_bind PriceCache.ofWebSocket bestAskSize bestBidSize].
    rewrite Hask, Hbid. auto.
Qed.

(** X5.  A [price_change] message never changes a cached size: after all
    its entries have gone through the [price] listener to the detector,
    every token has the ask size and the bid size it had before, and the
    registered markets are the same. *)
Theorem price_change_keeps_sizes (parseFloat : string -> number)
    (d : Arb.ArbitrageDetector) (now : Z) (msg : WS.PriceChange) (t : string) :
  (Arb.tokenPrices
     (fst (Scanner.onMessage parseFloat d now (WS.PriceChangeMessage msg)))
     !! t) ≫= bestAskSize
  = (Arb.tokenPrices d !! t) ≫= bestAskSize
  /\ (Arb.tokenPrices
        (fst (Scanner.onMessage parseFloat d now (WS.PriceChangeMessage msg)))
        !! t) ≫= bestBidSize
     = (Arb.tokenPrices d !! t) ≫= bestBidSize
  /\ Arb.marketPairs
       (fst (Scanner.onMessage parseFloat d now (WS.PriceChangeMessage msg)))
     = Arb.marketPairs d.
Proof.
  unfold Scanner.onMessage. cbn [WS.handleMessage].
  rewrite <- (map_map
                (WS.priceUpdate parseFloat now (WS.change_asset_id msg))
                WS.PriceEvent).
  destruct (price_events_keep_sizes d now
              (map (WS.priceUpdate parseFloat now (WS.change_asset_id msg))
                 (WS.price_changes msg)) t) as [H1 H2].
  { apply Forall_map. apply Forall_forall. intros change _. simpl. auto. }
  split; [exact H1|]. split; [exact H2|].
  apply onEvents_registrations.
Qed.

End StreamFacts.

(** ** [src/websocket.ts]: the connection, and the batches of the callers *)

Module ConnectionFacts.

Import PolymarketWebSocket.

Lemma has_In (s : JsSet.t) (x : string) : JsSet.has s x = true <-> In x s.
Proof.
  unfold JsSet.has. rewrite existsb_exists. split.
  - intros (y & Hy & E). apply String.eqb_eq in E. subst. exact Hy.
  - intros H. exists x. split; [exact H|apply String.eqb_refl].
Qed.

Lemma add_In (s : JsSet.t) (x y : string) :
  In y (JsSet.add s x) <-> In y s \/ y = x.
Proof.
  unfold JsSet.add. destruct (JsSet.has s x) eqn:E.
  - apply has_In in E. split; [auto|]. intros [H| ->]; assumption.
  - rewrite in_app_iff. simpl. split.
    + intros [H|[H|[]]]; auto.
    + intros [H|H]; auto.
Qed.

Lemma NoDup_snoc {A : Type} (l : list A) (x : A) :
  List.NoDup l -> ~ In x l -> List.NoDup (l ++ [x]).
Proof.
  induction 1 as [|y l Hy Hl IH]; intros Hx; simpl.
  - constructor; [intros []|constructor].
  - constructor.
    + rewrite in_app_iff. simpl. intros [H|[H|[]]]; [contradiction|].
      apply Hx. left. congruence.
    + apply IH. intros H. apply Hx. right. exact H.
Qed.

Lemma add_NoDup (s : JsSet.t) (x : string) :
  List.NoDup s -> List.NoDup (JsSet.add s x).
Proof.
  intros Hs. unfold JsSet.add. destruct (JsSet.has s x) eqn:E; [exact Hs|].
  apply NoDup_snoc; [exact Hs|].
  intros H. apply has_In in H. congruence.
Qed.

Lemma fold_add_In (l : list string) (s : JsSet.t) (y : string) :
  In y (fold_left JsSet.add l s) <-> In y s \/ In y l.
Proof.
  revert s. induction l as [|x l IH]; intros s; simpl.
  - tauto.
  - rewrite IH, add_In. intuition (subst; auto).
Qed.

Lemma fold_add_NoDup (l : list string) (s : JsSet.t) :
  List.NoDup s -> List.NoDup (fold_left JsSet.add l s).
Proof.
  revert s. induction l as [|x l IH]; intros s Hs; simpl; auto using add_NoDup.
Qed.

Lemma fold_add_present (l : list string) (s : JsSet.t) :
  (forall x, In x l -> In x s) -> fold_left JsSet.add l s = s.
Proof.
  induction l as [|x l IH]; intros H; simpl; [reflexivity|].
  unfold JsSet.add at 2.
  rewrite (proj2 (has_In s x)) by (apply H; left; reflexivity).
  apply IH. intros y Hy. apply H. right; exact Hy.
Qed.

Lemma delete_In (s : JsSet.t) (x y : string) :
  In y (JsSet.delete s x) <-> In y s /\ y <> x.
Proof.
  unfold JsSet.delete. rewrite filter_In.
  destruct (String.eqb_spec y x); simpl; split; intros [H1 H2];
    split; auto; congruence.
Qed.

Lemma fold_delete_In (l : list string) (s : JsSet.t) (y : string) :
  In y (fold_left JsSet.delete l s) <-> In y s /\ ~ In y l.
Proof.
  revert s. induction l as [|x l IH]; intros s; simpl.
  - tauto.
  - rewrite IH, delete_In. intuition congruence.
Qed.

(** *** Reconnection *)

Lemma closes_from (n : nat) (s : t) (a : nat) :
  reconnectAttempts s = a
  \/ (10 <= reconnectAttempts s /\ 10 <= a)%nat ->
  closes n s
  = map (fun k => if (k <? 10)%nat then Some (1000 * 2 ^ Z.of_nat k) else None)
      (seq a n).
Proof.
  revert s a. induction n as [|n IH]; intros s a Ha; [reflexivity|].
  cbn [closes seq map]. unfold onClose, attemptReconnect, maxReconnectAttempts.
  cbn [reconnectAttempts].
  destruct (Nat.leb_spec 10 (reconnectAttempts s)) as [Hge|Hlt].
  - assert (Hk : (a <? 10)%nat = false) by (apply Nat.ltb_ge; lia).
    rewrite Hk. f_equal. apply IH. cbn [reconnectAttempts]. right. lia.
  - assert (Ea : reconnectAttempts s = a) by lia.
    assert (Hk : (a <? 10)%nat = true) by (apply Nat.ltb_lt; lia).
    rewrite Hk. f_equal.
    + unfold reconnectDelay.
      replace (Z.of_nat (S (reconnectAttempts s)) - 1) with (Z.of_nat a) by lia.
      reflexivity.
    + apply IH. cbn [reconnectAttempts]. left. lia.
Qed.

Lemma onOpen_attempts (s : t) : reconnectAttempts (fst (onOpen s)) = 0%nat.
Proof.
  unfold onOpen, subscribeToTokens.
  cbn [subscribedTokens ws isConnected reconnectAttempts].
  destruct (0 <? JsSet.size (subscribedTokens s))%nat; [|reflexivity].
  destruct (negb (ws s) || negb true); reflexivity.
Qed.

(** X6.  After an [open] the delays double from one second: the [k]-th
    [close] in a row (counting from 0) schedules a reconnection after
    [1000 * 2^k] milliseconds while [k < 10], and from the eleventh
    [close] on nothing is scheduled any more. *)
Theorem reconnect_backoff (s : t) (n : nat) :
  closes n (fst (onOpen s))
  = map (fun k => if (k <? 10)%nat then Some (1000 * 2 ^ Z.of_nat k) else None)
      (seq 0 n).
Proof.
  apply (closes_from n (fst (onOpen s)) 0). left. apply onOpen_attempts.
Qed.

(** X7.  Subscriptions survive a dropped connection and not a
    [disconnect]: when the socket closes and is opened again, the [open]
    listener sends one subscription for exactly the tokens subscribed
    before (nothing when there were none) and leaves the set as it was;
    after [disconnect] the set is empty and a later [open] sends
    nothing. *)
Theorem subscriptions_survive_a_drop (s : t) :
  (subscribedTokens (fst (onOpen (connect (fst (onClose s)))))
   = subscribedTokens s
   /\ snd (onOpen (connect (fst (onClose s))))
      = match subscribedTokens s with
        | [] => []
        | _ :: _ => [Subscribe (subscribedTokens s)]
        end
   /\ isConnected (fst (onOpen (connect (fst (onClose s))))) = true
   /\ reconnectAttempts (fst (onOpen (connect (fst (onClose s))))) = 0%nat)
  /\ (subscribedTokens (fst (onOpen (connect (disconnect s)))) = []
      /\ snd (onOpen (connect (disconnect s))) = []).
Proof.
  split.
  - assert (E : subscribedTokens (fst (onClose s)) = subscribedTokens s).
    { unfold onClose, attemptReconnect. cbn [reconnectAttempts].
      destruct (maxReconnectAttempts <=? reconnectAttempts s)%nat; reflexivity. }
    unfold onOpen, connect, subscribeToTokens.
    cbn [subscribedTokens ws isConnected reconnectAttempts]. rewrite E.
    destruct (subscribedTokens s) as [|x l] eqn:Es; cbn [JsSet.size length].
    + simpl. auto.
    + change (0 <? S (length l))%nat with true. cbn [negb orb fst snd].
      cbn [subscribedTokens isConnected reconnectAttempts].
      rewrite fold_add_present by auto. auto.
  - simpl. auto.
Qed.

(** X8.  On an open socket [subscribeToTokens] and [unsubscribeFromTokens]
    keep the set of subscribed tokens: after subscribing, a token is in
    the set exactly when it was or is one of those given, and no token is
    held twice; after unsubscribing, exactly when it was and is none of
    those given.  On a socket that is not open both change nothing and
    send nothing. *)
Theorem subscription_set_is_kept (s : t) (tokenIds : list string) :
  (ws s = true -> isConnected s = true ->
   (forall tokenId,
      In tokenId (subscribedTokens (fst (subscribeToTokens s tokenIds)))
      <-> In tokenId (subscribedTokens s) \/ In tokenId tokenIds)
   /\ (List.NoDup (subscribedTokens s) ->
       List.NoDup (subscribedTokens (fst (subscribeToTokens s tokenIds))))
   /\ snd (subscribeToTokens s tokenIds) = [Subscribe tokenIds]
   /\ (forall tokenId,
         In tokenId (subscribedTokens (fst (unsubscribeFromTokens s tokenIds)))
         <-> In tokenId (subscribedTokens s) /\ ~ In tokenId tokenIds)
   /\ snd (unsubscribeFromTokens s tokenIds) = [Unsubscribe tokenIds])
  /\ (ws s = false \/ isConnected s = false ->
      subscribeToTokens s tokenIds = (s, [])
      /\ unsubscribeFromTokens s tokenIds = (s, [])).
Proof.
  unfold subscribeToTokens, unsubscribeFromTokens. split.
  - intros -> ->. cbn [negb orb fst snd subscribedTokens].
    split; [intros tokenId; apply fold_add_In|].
    split; [apply fold_add_NoDup|].
    split; [reflexivity|].
    split; [intros tokenId; apply fold_delete_In|reflexivity].
  - intros [-> | ->]; cbn [negb orb]; rewrite ?orb_true_r; auto.
Qed.

(** *** Batches *)

Lemma slice_length {A : Type} (l : list A) (i k : nat) :
  (i < length l)%nat -> (1 <= k)%nat ->
  (1 <= length (JsArray.slice l i (i + k)) <= k)%nat.
Proof.
  intros Hi Hk. unfold JsArray.slice.
  rewrite length_firstn, length_skipn. lia.
Qed.

Lemma batchLoop_spec {A : Type} (l : list A) (k : nat) :
  (1 <= k)%nat ->
  forall fuel i,
    (length l - i <= fuel)%nat ->
    exists batches,
      JsArray.batchLoop fuel l k i = Some batches
      /\ concat batches = skipn i l
      /\ Forall (fun batch => (1 <= length batch <= k)%nat) batches.
Proof.
  intros Hk. induction fuel as [|fuel IH]; intros i Hf.
  - exists []. unfold JsArray.batchLoop.
    assert (E : (i <? length l)%nat = false) by (apply Nat.ltb_ge; lia).
    rewrite E. repeat split; [|constructor].
    symmetry. apply skipn_all2. lia.
  - cbn [JsArray.batchLoop].
    destruct (Nat.ltb_spec i (length l)) as [Hi|Hi].
    + destruct (IH (i + k)%nat) as (bs & E & Hc & Hall); [lia|].
      rewrite E. cbn [option_map]. eexists. split; [reflexivity|]. split.
      * cbn [concat]. rewrite Hc. unfold JsArray.slice.
        replace (i + k - i)%nat with k by lia.
        rewrite Nat.add_comm, <- skipn_skipn. apply firstn_skipn.
      * constructor; [apply slice_length; assumption|exact Hall].
    + exists []. repeat split; [|constructor].
      symmetry. apply skipn_all2. lia.
Qed.

Lemma batchLoop_stuck {A : Type} (l : list A) (fuel : nat) :
  l <> [] -> JsArray.batchLoop fuel l 0 0 = None.
Proof.
  intros Hl. induction fuel as [|fuel IH]; cbn [JsArray.batchLoop];
    destruct l as [|x l]; try congruence; cbn [length Nat.ltb Nat.leb].
  - reflexivity.
  - cbn [Nat.add]. rewrite IH. reflexivity.
Qed.

Section Fetching.

Variable fetchOrderBook : string -> option Types.OrderBook.

Lemma fetchBatch_cons (x : string) (batch : list string)
    (results : gmap string Types.OrderBook) :
  Clob.fetchBatch fetchOrderBook results (x :: batch)
  = Clob.fetchBatch fetchOrderBook
      (match fetchOrderBook x with
       | Some book => <[x := book]> results
       | None => results
       end) batch.
Proof. reflexivity. Qed.

Lemma fetchBatch_lookup (batch : list string)
    (results : gmap string Types.OrderBook) (t : string) :
  Clob.fetchBatch fetchOrderBook results batch !! t
  = if bool_decide (t ∈ batch)
    then match fetchOrderBook t with
         | Some book => Some book
         | None => results !! t
         end
    else results !! t.
Proof.
  revert results. induction batch as [|x batch IH]; intros results.
  - reflexivity.
  - rewrite fetchBatch_cons, IH.
    destruct (decide (t ∈ batch)) as [Hin|Hnin].
    + rewrite !bool_decide_eq_true_2 by (try apply elem_of_cons; auto).
      destruct (fetchOrderBook t) eqn:Et; [reflexivity|].
      destruct (fetchOrderBook x) eqn:Ex; [|reflexivity].
      apply lookup_insert_ne. congruence.
    + rewrite (bool_decide_eq_false_2 (t ∈ batch)) by exact Hnin.
      destruct (String.eqb_spec x t) as [->|Hne].
      * rewrite bool_decide_eq_true_2 by (apply elem_of_cons; auto).
        destruct (fetchOrderBook t); [apply lookup_insert_eq|reflexivity].
      * rewrite bool_decide_eq_false_2
          by (rewrite elem_of_cons; intros [?|?]; congruence).
        destruct (fetchOrderBook x); [|reflexivity].
        apply lookup_insert_ne. exact Hne.
Qed.

Lemma fold_fetchBatch (batches : list (list string))
    (results : gmap string Types.OrderBook) :
  fold_left (Clob.fetchBatch fetchOrderBook) batches results
  = Clob.fetchBatch fetchOrderBook results (concat batches).
Proof.
  revert results. induction batches as [|b bs IH]; intros results.
  - reflexivity.
  - cbn [fold_left concat]. rewrite IH.
    unfold Clob.fetchBatch. rewrite fold_left_app. reflexivity.
Qed.

(** X9.  With a batch size of at least one, [fetchMultipleOrderBooks]
    ends and returns a book for exactly the tokens of the list whose
    request succeeds, each with the book its request gave (the outcome of
    a request taken to depend on the token only); with a batch size of 0
    and a list that is not empty its loop never ends. *)
Theorem fetched_books_are_the_tokens_that_answer (tokenIds : list string)
    (maxConcurrent : nat) :
  ((1 <= maxConcurrent)%nat ->
   exists results,
     (forall fuel, (length tokenIds <= fuel)%nat ->
        Clob.fetchMultipleOrderBooks fetchOrderBook fuel tokenIds maxConcurrent
        = Some results)
     /\ forall tokenId book,
          results !! tokenId = Some book
          <-> In tokenId tokenIds /\ fetchOrderBook tokenId = Some book)
  /\ (tokenIds <> [] ->
      forall fuel,
        Clob.fetchMultipleOrderBooks fetchOrderBook fuel tokenIds 0 = None).
Proof.
  split.
  - intros Hk.
    exists (Clob.fetchBatch fetchOrderBook ∅ tokenIds). split.
    + intros fuel Hf. unfold Clob.fetchMultipleOrderBooks.
      destruct (batchLoop_spec tokenIds maxConcurrent Hk fuel 0%nat)
        as (bs & E & Hc & _); [lia|].
      rewrite E, fold_fetchBatch, Hc. reflexivity.
    + intros t book. rewrite fetchBatch_lookup, <- list_elem_of_In.
      destruct (decide (t ∈ tokenIds)) as [Hin|Hnin].
      * rewrite bool_decide_eq_true_2 by exact Hin.
        destruct (fetchOrderBook t) as [b|].
        -- split; [intros H; split; [exact Hin|exact H]|intros [_ H]; exact H].
        -- rewrite lookup_empty. split; [discriminate|intros [_ H]; discriminate].
      * rewrite bool_decide_eq_false_2 by exact Hnin.
        rewrite lookup_empty. split; [discriminate|intros [H _]; contradiction].
  - intros Hl fuel. unfold Clob.fetchMultipleOrderBooks.
    rewrite batchLoop_stuck by exact Hl. reflexivity.
Qed.

End Fetching.

(** *** The subscriptions of the scanner *)

Lemma subscribeBatches_open (batches : list (list string)) (s : t)
    (sent : list Sent) :
  ws s = true -> isConnected s = true ->
  fold_left
    (fun '(s, sent) batch =>
       let '(s', sent') := subscribeToTokens s batch in (s', sent ++ sent'))
    batches (s, sent)
  = ({| ws := true;
        isConnected := true;
        subscribedTokens :=
          fold_left JsSet.add (concat batches) (subscribedTokens s);
        reconnectAttempts := reconnectAttempts s |},
     sent ++ map Subscribe batches).
Proof.
  revert s sent. induction batches as [|b bs IH]; intros s sent Hw Hc.
  - cbn [fold_left concat map]. rewrite app_nil_r.
    destruct s; simpl in *; subst; reflexivity.
  - cbn [fold_left concat map]. unfold subscribeToTokens at 2.
    rewrite Hw, Hc. cbn [negb orb].
    rewrite IH by reflexivity.
    cbn [subscribedTokens reconnectAttempts].
    rewrite fold_left_app, <- app_assoc. reflexivity.
Qed.

(** X10.  On a socket that is open and stays open, [connectWebSocket]
    subscribes every token of the detector: it sends the token ids in
    their order, cut into batches of at least one and at most 100, and
    afterwards a token is subscribed exactly when it was before or is a
    token of the detector. *)
Theorem connect_subscribes_every_token (d : Arb.ArbitrageDetector) (s : t) :
  ws s = true -> isConnected s = true ->
  exists s' batches,
    Scanner.connectWebSocket d s = Some (s', map Subscribe batches)
    /\ concat batches = Arb.getAllTokenIds d
    /\ Forall (fun batch => (1 <= length batch <= 100)%nat) batches
    /\ forall tokenId,
         In tokenId (subscribedTokens s')
         <-> In tokenId (subscribedTokens s)
             \/ In tokenId (Arb.getAllTokenIds d).
Proof.
  intros Hw Hc. unfold Scanner.connectWebSocket.
  destruct (batchLoop_spec (Arb.getAllTokenIds d) 100 ltac:(lia)
              (length (Arb.getAllTokenIds d)) 0%nat)
    as (bs & E & Hcat & Hall); [lia|].
  rewrite E. unfold Scanner.subscribeBatches.
  rewrite (subscribeBatches_open bs s [] Hw Hc).
  eexists _, bs. split; [reflexivity|]. cbn [skipn] in Hcat.
  split; [exact Hcat|]. split; [exact Hall|].
  intros t. cbn [subscribedTokens]. rewrite Hcat. apply fold_add_In.
Qed.

Lemma connect_subscribes_every_token_witness :
  exists s' batches,
    Scanner.connectWebSocket Sample.registered Sample.openSocket
    = Some (s', map Subscribe batches)
    /\ concat batches = Arb.getAllTokenIds Sample.registered
    /\ Forall (fun batch => (1 <= length batch <= 100)%nat) batches
    /\ forall tokenId,
         In tokenId (subscribedTokens s')
         <-> In tokenId (subscribedTokens Sample.openSocket)
             \/ In tokenId (Arb.getAllTokenIds Sample.registered).
Proof.
  apply (connect_subscribes_every_token Sample.registered Sample.openSocket);
    reflexivity.
Defined.

Lemma filter_const {A : Type} (b : bool) (l : list A) :
  List.filter (fun _ => b) l = if b then l else [].
Proof.
  induction l as [|x l IH]; simpl.
  - destruct b; reflexivity.
  - rewrite IH. destruct b; reflexivity.
Qed.

(** X11.  The periodic refresh filters the token ids of the detector by
    whether the socket has any subscription at all, not by the id: while
    at least one token is subscribed it subscribes nothing, whatever
    tokens the detector has gained; when none is subscribed it subscribes
    all of them. *)
Theorem refresh_subscribes_all_or_nothing (d : Arb.ArbitrageDetector) (s : t) :
  (subscribedTokens s <> [] -> Scanner.refreshSubscriptions d s = (s, []))
  /\ (subscribedTokens s = [] ->
      Scanner.refreshSubscriptions d s
      = match Arb.getAllTokenIds d with
        | [] => (s, [])
        | _ :: _ => subscribeToTokens s (Arb.getAllTokenIds d)
        end).
Proof.
  unfold Scanner.refreshSubscriptions, getSubscribedCount, JsSet.size.
  rewrite filter_const. split.
  - intros Hs. destruct (subscribedTokens s); [congruence|]. reflexivity.
  - intros ->. cbn [length Nat.eqb].
    destruct (Arb.getAllTokenIds d); reflexivity.
Qed.

End ConnectionFacts.

(** ** [src/binanceApi.ts]: candles *)

Module CandleFacts.

Import Types.

(** X12.  [getCurrentCandleStartTime] returns the start of the candle the
    clock is in: a whole multiple of the candle's length (counted from the
    epoch, in UTC), at or before [now] and less than one length before it;
    and [calculateCandleStartTime] takes the end of that candle back to
    it. *)
Theorem current_candle_is_aligned (now : Z) (interval : BTCMarketInterval) :
  Binance.getCurrentCandleStartTime now interval <= now
  /\ now < Binance.getCurrentCandleStartTime now interval
           + Binance.candleLength interval
  /\ Binance.getCurrentCandleStartTime now interval
       mod Binance.candleLength interval = 0
  /\ Binance.calculateCandleStartTime
       (Binance.getCurrentCandleStartTime now interval
        + Binance.candleLength interval) interval
     = Binance.getCurrentCandleStartTime now interval.
Proof.
  unfold Binance.getCurrentCandleStartTime, Binance.calculateCandleStartTime,
    Binance.candleLength, Cross.getIntervalSeconds,
    Binance.setUTCMinutes, Binance.setUTCHours, Binance.getUTCMinutes,
    Binance.getUTCHours, Binance.MakeDate, Binance.MakeTime, Binance.Day,
    Binance.HourFromTime, Binance.MinFromTime,
    Binance.msPerDay, Binance.msPerHour, Binance.msPerMinute.
  destruct interval; cbv zeta; repeat split; Z.div_mod_to_equations; lia.
Qed.

(** X13.  The two parsers of descriptive slugs build a market whose candle
    is exactly one interval long: the resolution time is [endDate] in
    whole seconds and the candle start lies [getIntervalSeconds] seconds
    before it, whatever [endDate] is.  [parseSeriesMarket] keeps the
    interval it is given; [parseDescriptiveSlug] only ever yields 1h, 4h
    or 1d.  Both name one of the four assets, leave the reference price
    unset, and build the record [parseMarketInfo] builds from the same
    interval, asset and candle start. *)
Theorem descriptive_parsers_span_one_interval (toLowerCase : string -> string)
    (pr : MarketPair) :
  (forall interval marketInfo,
     Cross.parseSeriesMarket toLowerCase pr interval = Some marketInfo ->
     Cross.interval marketInfo = interval
     /\ Cross.resolutionTimestamp marketInfo = endDate (market pr) / 1000
     /\ Cross.resolutionTimestamp marketInfo
        - Cross.candleStartTimestamp marketInfo
        = Cross.getIntervalSeconds interval
     /\ In (Cross.asset marketInfo) ["btc"; "eth"; "sol"; "xrp"]%string
     /\ Cross.referencePrice marketInfo = None
     /\ Cross.parseMarketInfo
          (fun _ => Some (Cross.interval marketInfo, Cross.asset marketInfo,
                          Cross.candleStartTimestamp marketInfo)) pr
        = Some marketInfo)
  /\ (forall slug marketInfo,
        Cross.parseDescriptiveSlug toLowerCase pr slug = Some marketInfo ->
        In (Cross.interval marketInfo) [I1h; I4h; I1d]
        /\ Cross.resolutionTimestamp marketInfo = endDate (market pr) / 1000
        /\ Cross.resolutionTimestamp marketInfo
           - Cross.candleStartTimestamp marketInfo
           = Cross.getIntervalSeconds (Cross.interval marketInfo)
        /\ In (Cross.asset marketInfo) ["btc"; "eth"; "sol"; "xrp"]%string
        /\ Cross.referencePrice marketInfo = None
        /\ Cross.parseMarketInfo
             (fun _ => Some (Cross.interval marketInfo, Cross.asset marketInfo,
                             Cross.candleStartTimestamp marketInfo)) pr
           = Some marketInfo).
Proof.
  assert (Hasset : forall slug asset,
            Cross.assetOfSlug toLowerCase slug = Some asset ->
            In asset ["btc"; "eth"; "sol"; "xrp"]%string).
  { intros slug asset. unfold Cross.assetOfSlug.
    repeat match goal with
           | |- context [if ?c then _ else _] => destruct c
           end; intros H; inversion H; simpl; auto. }
  assert (Hlen : forall e i,
            e / 1000 - Cross.calculateCandleStartTime e i / 1000
            = Cross.getIntervalSeconds i).
  { intros e i. unfold Cross.calculateCandleStartTime, Cross.getIntervalSeconds.
    destruct i; Z.div_mod_to_equations; lia. }
  split.
  - intros interval marketInfo. unfold Cross.parseSeriesMarket.
    destruct (Cross.assetOfSlug toLowerCase (slug (market pr))) as [asset|] eqn:E;
      [|discriminate].
    intros H. injection H as <-. cbn.
    repeat split; auto. eapply Hasset; exact E.
  - intros slug0 marketInfo. unfold Cross.parseDescriptiveSlug.
    destruct (Cross.assetOfSlug toLowerCase slug0) as [asset|] eqn:E;
      [|discriminate].
    intros H. injection H as <-. cbn.
    repeat split; auto; try (eapply Hasset; exact E).
    destruct (Cross.includes slug0 "-4h-"); simpl; auto.
    destruct (Cross.includes slug0 "-daily-"); simpl; auto.
Qed.

End CandleFacts.

(** ** [src/arbDetector.ts]: registration and the full scan *)

Module RegistryFacts.

Import JsNum Types Arb.
#[local] Open Scope float_scope.

Lemma find_app {A : Type} (f : A -> bool) (l1 l2 : list A) :
  List.find f (l1 ++ l2)
  = match List.find f l1 with
    | Some x => Some x
    | None => List.find f l2
    end.
Proof.
  induction l1 as [|x l1 IH]; simpl; [reflexivity|].
  destruct (f x); [reflexivity|exact IH].
Qed.

Lemma get_set {V : Type} (m : JsMap.t V) (k k0 : string) (v : V) :
  JsMap.get (JsMap.set m k v) k0
  = if String.eqb k k0 then Some v else JsMap.get m k0.
Proof.
  destruct (String.eqb_spec k k0) as [->|Hne].
  - apply JsMapFacts.get_set_eq.
  - apply JsMapFacts.get_set_ne. exact Hne.
Qed.

Lemma get_registered_tokens (pairs : list MarketPair) (m : JsMap.t MarketPair)
    (t : string) :
  JsMap.get
    (fold_left
       (fun m pr => JsMap.set (JsMap.set m (yesTokenId pr) pr) (noTokenId pr) pr)
       pairs m) t
  = match List.find
            (fun pr => String.eqb (yesTokenId pr) t
                       || String.eqb (noTokenId pr) t) (rev pairs) with
    | Some pr => Some pr
    | None => JsMap.get m t
    end.
Proof.
  revert m. induction pairs as [|x pairs IH]; intros m; [reflexivity|].
  cbn [fold_left rev]. rewrite IH, find_app. cbn [List.find].
  destruct (List.find _ (rev pairs)); [reflexivity|].
  rewrite !get_set.
  destruct (String.eqb (noTokenId x) t), (String.eqb (yesTokenId x) t);
    reflexivity.
Qed.

Lemma get_registered_ids (pairs : list MarketPair) (m : JsMap.t MarketPair)
    (marketId : string) :
  JsMap.get (fold_left (fun m pr => JsMap.set m (id (Types.market pr)) pr) pairs m)
    marketId
  = match List.find (fun pr => String.eqb (id (Types.market pr)) marketId)
            (rev pairs) with
    | Some pr => Some pr
    | None => JsMap.get m marketId
    end.
Proof.
  revert m. induction pairs as [|x pairs IH]; intros m; [reflexivity|].
  cbn [fold_left rev]. rewrite IH, find_app. cbn [List.find].
  destruct (List.find _ (rev pairs)); [reflexivity|].
  rewrite get_set. destruct (String.eqb (id (Types.market x)) marketId); reflexivity.
Qed.

(** X14.  [setMarketPairs] replaces the registration: afterwards a token
    resolves to the last pair of the list that has it as its YES or NO
    token, and [getMarketPair] returns the last pair of the list with the
    market id, or nothing when the list has none; what was registered
    before plays no part. *)
Theorem registration_keeps_the_last_pair (d : ArbitrageDetector)
    (pairs : list MarketPair) :
  (forall tokenId,
     JsMap.get (marketPairs (setMarketPairs d pairs)) tokenId
     = List.find
         (fun pr => String.eqb (yesTokenId pr) tokenId
                    || String.eqb (noTokenId pr) tokenId) (rev pairs))
  /\ (forall marketId,
        getMarketPair (setMarketPairs d pairs) marketId
        = List.find (fun pr => String.eqb (id (Types.market pr)) marketId)
            (rev pairs)).
Proof.
  split.
  - intros t. cbn [setMarketPairs marketPairs].
    rewrite get_registered_tokens.
    destruct (List.find _ (rev pairs)); reflexivity.
  - intros mid. unfold getMarketPair. cbn [setMarketPairs marketLookup].
    rewrite get_registered_ids.
    destruct (List.find _ (rev pairs)); reflexivity.
Qed.

Lemma keys_registered_tokens (pairs : list MarketPair)
    (m : JsMap.t MarketPair) :
  (List.NoDup (JsMap.keys m) ->
   List.NoDup
     (JsMap.keys
        (fold_left
           (fun m pr =>
              JsMap.set (JsMap.set m (yesTokenId pr) pr) (noTokenId pr) pr)
           pairs m)))
  /\ (forall t,
        In t (JsMap.keys
                (fold_left
                   (fun m pr =>
                      JsMap.set (JsMap.set m (yesTokenId pr) pr)
                        (noTokenId pr) pr)
                   pairs m))
        <-> In t (JsMap.keys m)
            \/ exists pr, In pr pairs
                          /\ (yesTokenId pr = t \/ noTokenId pr = t)).
Proof.
  revert m. induction pairs as [|x pairs IH]; intros m.
  - split; [auto|]. intros t. simpl. split; [auto|].
    intros [H|(pr & [] & _)]. exact H.
  - cbn [fold_left]. destruct (IH (JsMap.set (JsMap.set m (yesTokenId x) x)
                                     (noTokenId x) x)) as [IH1 IH2].
    split.
    + intros Hm. apply IH1. auto using JsMapFacts.NoDup_set.
    + intros t. rewrite IH2, !JsMapFacts.keys_set. split.
      * intros [[->|[->|H]]|(pr & Hin & Ht)].
        -- right. exists x. split; [left; reflexivity|auto].
        -- right. exists x. split; [left; reflexivity|auto].
        -- left. exact H.
        -- right. exists pr. split; [right; exact Hin|exact Ht].
      * intros [H|(pr & [->|Hin] & Ht)].
        -- left. auto.
        -- left. destruct Ht as [<-|<-]; auto.
        -- right. exists pr. auto.
Qed.

Lemma set_length {V : Type} (m : JsMap.t V) (k : string) (v : V) :
  (length (JsMap.set m k v) <= S (length m))%nat.
Proof.
  induction m as [|[k' v'] m IH]; simpl; [lia|].
  destruct (String.eqb k' k); simpl; lia.
Qed.

Lemma length_registered_tokens (pairs : list MarketPair)
    (m : JsMap.t MarketPair) :
  (length
     (fold_left
        (fun m pr => JsMap.set (JsMap.set m (yesTokenId pr) pr) (noTokenId pr) pr)
        pairs m)
   <= length m + 2 * length pairs)%nat.
Proof.
  revert m. induction pairs as [|x pairs IH]; intros m; simpl; [lia|].
  etransitivity; [apply IH|].
  pose proof (set_length (JsMap.set m (yesTokenId x) x) (noTokenId x) x).
  pose proof (set_length m (yesTokenId x) x). lia.
Qed.

(** X15.  After [setMarketPairs], [getAllTokenIds] lists exactly the YES
    and NO tokens of the pairs given, each token once even when several
    pairs share it; so at most two ids per pair. *)
Theorem token_ids_are_the_registered_tokens (d : ArbitrageDetector)
    (pairs : list MarketPair) :
  List.NoDup (getAllTokenIds (setMarketPairs d pairs))
  /\ (forall tokenId,
        In tokenId (getAllTokenIds (setMarketPairs d pairs))
        <-> exists pr, In pr pairs
                       /\ (yesTokenId pr = tokenId \/ noTokenId pr = tokenId))
  /\ (length (getAllTokenIds (setMarketPairs d pairs)) <= 2 * length pairs)%nat.
Proof.
  unfold getAllTokenIds. cbn [setMarketPairs marketPairs].
  destruct (keys_registered_tokens pairs JsMap.empty) as [H1 H2].
  split; [apply H1; constructor|]. split.
  - intros t. rewrite H2. simpl. split; [intros [[]|H]; exact H|auto].
  - unfold JsMap.keys. rewrite length_map.
    pose proof (length_registered_tokens pairs JsMap.empty). simpl in *. lia.
Qed.

(** *** The full scan *)

(** What an opportunity says of the market it is for. *)
Lemma checkAll_shape (d : ArbitrageDetector) (now : Z) (tokenId : string)
    (o : ExtendedOpportunity) :
  checkAllArbitrageTypes d now tokenId = Some o ->
  exists pr yesPrice noPrice,
    JsMap.get (marketPairs d) tokenId = Some pr
    /\ tokenPrices d !! yesTokenId pr = Some yesPrice
    /\ tokenPrices d !! noTokenId pr = Some noPrice
    /\ Arb.market o = Types.market pr
    /\ ((exists yesAsk noAsk,
           bestAsk yesPrice = Some yesAsk /\ bestAsk noPrice = Some noAsk
           /\ truthy yesAsk = true /\ truthy noAsk = true
           /\ profit o = 1 - (yesAsk + noAsk))
        \/ (exists yesBid noBid,
              bestBid yesPrice = Some yesBid /\ bestBid noPrice = Some noBid
              /\ truthy yesBid = true /\ truthy noBid = true
              /\ profit o = (yesBid + noBid) - 1)).
Proof.
  unfold checkAllArbitrageTypes.
  destruct (checkBuyBothArbitrage d now tokenId) as [b|] eqn:Eb.
  - intros H. injection H as ->.
    destruct (ArbFacts.checkBuyBoth_Some_inv d now tokenId o Eb)
      as (pr & yp & np & ya & na & Hp & Hy & Hn & Hya & Hna & Ty & Tn).
    rewrite (ArbFacts.checkBuyBoth_gates d now tokenId pr yp np ya na
               Hp Hy Hn Hya Hna Ty Tn) in Eb.
    exists pr, yp, np.
    repeat match type of Eb with
           | (if ?c then _ else _) = _ => destruct c; [discriminate|]
           end.
    injection Eb as <-. cbn.
    repeat split; auto. left. exists ya, na. auto.
  - destruct (checkSellBothArbitrage d now tokenId) as [s|] eqn:Es;
      [|discriminate].
    intros H. injection H as ->.
    destruct (ArbFacts.checkSellBoth_Some_inv d now tokenId o Es)
      as (pr & yp & np & yb & nb & Hp & Hy & Hn & Hyb & Hnb & Ty & Tn).
    rewrite (ArbFacts.checkSellBoth_gates d now tokenId pr yp np yb nb
               Hp Hy Hn Hyb Hnb Ty Tn) in Es.
    exists pr, yp, np.
    repeat match type of Es with
           | (if ?c then _ else _) = _ => destruct c; [discriminate|]
           end.
    injection Es as <-. cbn.
    repeat split; auto. right. exists yb, nb. auto.
Qed.

Lemma scanLoop_once (d : ArbitrageDetector) (now : Z)
    (entries : list (string * MarketPair)) (checked : gset string) :
  (forall tokenId pr,
     In (tokenId, pr) entries ->
     JsMap.get (marketPairs d) tokenId = Some pr) ->
  List.NoDup (map (fun o => id (Arb.market o)) (scanLoop d now entries checked))
  /\ forall o, In o (scanLoop d now entries checked) ->
       id (Arb.market o) ∉ checked.
Proof.
  revert checked. induction entries as [|[t pr] rest IH]; intros checked Hg.
  - simpl. split; [constructor|intros o []].
  - assert (Hrest : forall tokenId pr0,
              In (tokenId, pr0) rest ->
              JsMap.get (marketPairs d) tokenId = Some pr0)
      by (intros; apply Hg; right; assumption).
    cbn [scanLoop].
    destruct (bool_decide (id (Types.market pr) ∈ checked)) eqn:Ed.
    + apply IH; exact Hrest.
    + apply bool_decide_eq_false in Ed.
      destruct (IH ({[ id (Types.market pr) ]} ∪ checked) Hrest) as [IH1 IH2].
      destruct (checkAllArbitrageTypes d now t) as [opp|] eqn:Eo.
      * destruct (checkAll_shape d now t opp Eo)
          as (pr' & _ & _ & Hp & _ & _ & Hm & _).
        rewrite (Hg t pr (or_introl eq_refl)) in Hp. injection Hp as <-.
        split.
        -- cbn [map]. constructor; [|exact IH1].
           rewrite in_map_iff. intros (o & Eid & Hin).
           apply IH2 in Hin. rewrite Eid, Hm in Hin.
           apply SetFacts.not_in_added in Hin as [Hin _]. congruence.
        -- intros o [<-|Hin].
           ++ rewrite Hm. exact Ed.
           ++ apply IH2 in Hin. apply SetFacts.not_in_added in Hin as [_ Hin].
              exact Hin.
      * split; [exact IH1|].
        intros o Hin. apply IH2 in Hin.
        apply SetFacts.not_in_added in Hin as [_ Hin]. exact Hin.
Qed.

(** X16.  [scanAllMarkets] reports a market at most once: no two of the
    opportunities it returns are for the same market id, although every
    market is registered under two tokens. *)
Theorem scan_reports_each_market_once (d : ArbitrageDetector) (now : Z) :
  List.NoDup (JsMap.keys (marketPairs d)) ->
  List.NoDup (map (fun o => id (Arb.market o)) (scanAllMarkets d now)).
Proof.
  intros Hk. unfold scanAllMarkets.
  eapply Permutation_NoDup.
  - apply Permutation_map. symmetry. apply SortFacts.sort_Permutation.
  - apply scanLoop_once. intros t pr Hin.
    apply JsMapFacts.In_get_NoDup; assumption.
Qed.

Lemma scan_reports_each_market_once_witness :
  List.NoDup
    (map (fun o => id (Arb.market o)) (scanAllMarkets Sample.cheapAsks 0)).
Proof.
  apply (scan_reports_each_market_once Sample.cheapAsks 0).
  repeat constructor; simpl; intuition discriminate.
Defined.

Lemma truthy_nonneg_pos (v : number) :
  truthy v = true -> (v <? 0) = false -> (0 <? v) = true.
Proof.
  intros Ht Hn.
  pose proof (JsNumFacts.truthy_not_nan v Ht) as Nv.
  pose proof (JsNumFacts.truthy_not_zero v Ht) as Zv.
  assert (N0 : isNaN 0 = false) by reflexivity.
  unfold isNaN in *.
  rewrite JsOrderFacts.ltb_position in * by assumption.
  rewrite JsOrderFacts.eqb_position in Zv by assumption.
  change (JsOrder.position 0) with 0%Z in *.
  apply Z.ltb_ge in Hn. apply Z.eqb_neq in Zv. apply Z.ltb_lt. lia.
Qed.

(** X17.  When no cached ask or bid is negative, [scanAllMarkets] returns
    its opportunities in descending order of profit: each one has a
    profit at least that of every one after it. *)
Theorem scan_is_sorted_by_profit (d : ArbitrageDetector) (now : Z) :
  (forall tokenId p v,
     tokenPrices d !! tokenId = Some p ->
     bestAsk p = Some v \/ bestBid p = Some v ->
     (v <? 0) = false) ->
  StronglySorted (fun a b => (profit b <=? profit a) = true)
    (scanAllMarkets d now).
Proof.
  intros Hpos. unfold scanAllMarkets.
  apply SortFacts.sort_descending.
  intros o Ho.
  apply ArbFacts.scanLoop_In in Ho as (t & pr0 & _ & Ho).
  destruct (checkAll_shape d now t o Ho)
    as (pr & yp & np & _ & Hy & Hn & _ & [H|H]).
  - destruct H as (ya & na & Hya & Hna & Ty & Tn & ->).
    apply JsNumFacts.one_sub_not_nan, JsNumFacts.add_pos_not_nan;
      apply truthy_nonneg_pos; eauto.
  - destruct H as (yb & nb & Hyb & Hnb & Ty & Tn & ->).
    apply JsNumFacts.sub_one_not_nan, JsNumFacts.add_pos_not_nan;
      apply truthy_nonneg_pos; eauto.
Qed.

Lemma scan_is_sorted_by_profit_witness :
  StronglySorted (fun a b => (profit b <=? profit a) = true)
    (scanAllMarkets Sample.twoMarkets 0).
Proof.
  apply (scan_is_sorted_by_profit Sample.twoMarkets 0).
  intros t p v Hp Hv. unfold Sample.twoMarkets in Hp.
  cbn [tokenPrices withPrices] in Hp.
  repeat (apply lookup_insert_Some in Hp as [[_ <-]|[_ Hp]];
          [destruct Hv as [Hv|Hv]; cbn in Hv; inversion Hv; reflexivity|]).
  rewrite lookup_empty in Hp. discriminate.
Defined.

(** With all tokens distinct the registry lists the two tokens of each
    pair, pair after pair. *)
Lemma set_fresh {V : Type} (m : JsMap.t V) (k : string) (v : V) :
  ~ In k (JsMap.keys m) -> JsMap.set m k v = m ++ [(k, v)].
Proof.
  induction m as [|[k' v'] m IH]; intros Hk; simpl; [reflexivity|].
  destruct (String.eqb_spec k' k) as [->|Hne].
  - exfalso. apply Hk. left. reflexivity.
  - rewrite IH; [reflexivity|]. intros H. apply Hk. right. exact H.
Qed.

Lemma entries_registered (pairs : list MarketPair) (m : JsMap.t MarketPair) :
  List.NoDup
    (JsMap.keys m ++ flat_map (fun pr => [yesTokenId pr; noTokenId pr]) pairs) ->
  fold_left
    (fun m pr => JsMap.set (JsMap.set m (yesTokenId pr) pr) (noTokenId pr) pr)
    pairs m
  = m ++ flat_map (fun pr => [(yesTokenId pr, pr); (noTokenId pr, pr)]) pairs.
Proof.
  revert m. induction pairs as [|x pairs IH]; intros m Hn.
  - simpl. rewrite app_nil_r. reflexivity.
  - cbn [fold_left flat_map] in *.
    assert (Hy : ~ In (yesTokenId x) (JsMap.keys m)).
    { intros H. apply NoDup_remove_2 with (l := JsMap.keys m)
                      (l' := noTokenId x :: flat_map _ pairs) in Hn.
      apply Hn. apply in_or_app. left. exact H. }
    rewrite (set_fresh m _ _ Hy).
    assert (Hno : ~ In (noTokenId x) (JsMap.keys (m ++ [(yesTokenId x, x)]))).
    { unfold JsMap.keys. rewrite map_app. cbn [map fst].
      replace (JsMap.keys m ++ [yesTokenId x; noTokenId x] ++ flat_map
                 (fun pr => [yesTokenId pr; noTokenId pr]) pairs)
        with ((map fst m ++ [yesTokenId x]) ++ noTokenId x
              :: flat_map (fun pr => [yesTokenId pr; noTokenId pr]) pairs)
        in Hn by (unfold JsMap.keys; rewrite <- app_assoc; reflexivity).
      apply NoDup_remove_2 in Hn. intros H. apply Hn.
      apply in_or_app. left. exact H. }
    rewrite (set_fresh _ _ _ Hno).
    rewrite IH.
    + rewrite <- !app_assoc. reflexivity.
    + unfold JsMap.keys. rewrite !map_app, <- !app_assoc. exact Hn.
Qed.

Lemma scanLoop_registered (d : ArbitrageDetector) (now : Z)
    (pairs : list MarketPair) (checked : gset string) :
  List.NoDup (map (fun pr => id (Types.market pr)) pairs) ->
  (forall pr, In pr pairs -> id (Types.market pr) ∉ checked) ->
  scanLoop d now
    (flat_map (fun pr => [(yesTokenId pr, pr); (noTokenId pr, pr)]) pairs)
    checked
  = omap (fun pr => checkAllArbitrageTypes d now (yesTokenId pr)) pairs.
Proof.
  revert checked. induction pairs as [|x pairs IH]; intros checked Hn Hc;
    [reflexivity|].
  apply NoDup_cons_iff in Hn as [Hx Hn].
  cbn [flat_map app scanLoop omap list_omap].
  rewrite bool_decide_eq_false_2 by (apply Hc; left; reflexivity).
  rewrite bool_decide_eq_true_2 by apply SetFacts.in_added.
  rewrite IH; [reflexivity|exact Hn|].
  intros pr Hin. specialize (Hc pr (or_intror Hin)).
  apply SetFacts.not_in_added_intro; [|exact Hc].
  intros E. apply Hx. rewrite <- E.
  apply (in_map (fun pr => id (Types.market pr))). exact Hin.
Qed.

Lemma scan_covers (d : ArbitrageDetector) (pairs : list MarketPair) (now : Z)
    (o : ExtendedOpportunity) :
  marketPairs d
  = fold_left
      (fun m pr => JsMap.set (JsMap.set m (yesTokenId pr) pr) (noTokenId pr) pr)
      pairs JsMap.empty ->
  List.NoDup (flat_map (fun pr => [yesTokenId pr; noTokenId pr]) pairs) ->
  List.NoDup (map (fun pr => id (Types.market pr)) pairs) ->
  In o (scanAllMarkets d now)
  <-> exists pr,
        In pr pairs /\ checkAllArbitrageTypes d now (yesTokenId pr) = Some o.
Proof.
  intros Hd Ht Hi. unfold scanAllMarkets.
  rewrite JsArrayFacts.In_sort. unfold JsMap.entries. rewrite Hd.
  rewrite (entries_registered pairs JsMap.empty) by exact Ht.
  cbn [JsMap.empty app].
  rewrite scanLoop_registered
    by (try exact Hi; intros pr _; apply not_elem_of_empty).
  rewrite <- list_elem_of_In, list_elem_of_omap.
  split; intros (pr & H1 & H2); exists pr; split; auto;
    apply list_elem_of_In; exact H1.
Qed.

(** X18.  When the pairs given to [setMarketPairs] have tokens that are
    all different and market ids that are all different, [scanAllMarkets]
    evaluates every one of them: an opportunity is in its result exactly
    when it is the evaluation of one of the pairs. *)
Theorem scan_covers_every_market (d0 : ArbitrageDetector)
    (pairs : list MarketPair) (prices : gmap string TokenPrice) (now : Z)
    (o : ExtendedOpportunity) :
  List.NoDup (flat_map (fun pr => [yesTokenId pr; noTokenId pr]) pairs) ->
  List.NoDup (map (fun pr => id (Types.market pr)) pairs) ->
  In o (scanAllMarkets (withPrices (setMarketPairs d0 pairs) prices) now)
  <-> exists pr,
        In pr pairs
        /\ checkAllArbitrageTypes
             (withPrices (setMarketPairs d0 pairs) prices) now (yesTokenId pr)
           = Some o.
Proof.
  intros Ht Hi. apply scan_covers; [reflexivity|exact Ht|exact Hi].
Qed.

Lemma scan_covers_every_market_witness :
  exists o,
    In o (scanAllMarkets
            (withPrices (setMarketPairs (create Sample.conf)
                           [Sample.binary; Sample.other])
               (tokenPrices Sample.twoMarkets)) 0)
    /\ exists pr,
         In pr [Sample.binary; Sample.other]
         /\ checkAllArbitrageTypes
              (withPrices (setMarketPairs (create Sample.conf)
                             [Sample.binary; Sample.other])
                 (tokenPrices Sample.twoMarkets)) 0 (yesTokenId pr)
            = Some o.
Proof.
  destruct (scanAllMarkets
              (withPrices (setMarketPairs (create Sample.conf)
                             [Sample.binary; Sample.other])
                 (tokenPrices Sample.twoMarkets)) 0) as [|o l] eqn:E;
    [vm_compute in E; discriminate|].
  exists o. split; [left; reflexivity|].
  apply (scan_covers_every_market (create Sample.conf)
           [Sample.binary; Sample.other] (tokenPrices Sample.twoMarkets) 0 o).
  - repeat constructor; simpl; intuition discriminate.
  - repeat constructor; simpl; intuition discriminate.
  - rewrite E. left. reflexivity.
Defined.

Lemma checkAll_same_pair (d : ArbitrageDetector) (now : Z)
    (t1 t2 : string) (pr : MarketPair) :
  JsMap.get (marketPairs d) t1 = Some pr ->
  JsMap.get (marketPairs d) t2 = Some pr ->
  checkAllArbitrageTypes d now t1 = checkAllArbitrageTypes d now t2.
Proof.
  intros H1 H2.
  unfold checkAllArbitrageTypes, checkBuyBothArbitrage, checkSellBothArbitrage.
  rewrite H1, H2. reflexivity.
Qed.

Lemma registered_token_is_scanned (d : ArbitrageDetector)
    (pairs : list MarketPair) (now : Z) (tokenId : string)
    (o : ExtendedOpportunity) :
  marketPairs d
  = fold_left
      (fun m pr => JsMap.set (JsMap.set m (yesTokenId pr) pr) (noTokenId pr) pr)
      pairs JsMap.empty ->
  List.NoDup (flat_map (fun pr => [yesTokenId pr; noTokenId pr]) pairs) ->
  List.NoDup (map (fun pr => id (Types.market pr)) pairs) ->
  checkAllArbitrageTypes d now tokenId = Some o ->
  In o (scanAllMarkets d now).
Proof.
  intros Hd Ht Hi Ho.
  apply (scan_covers d pairs now o Hd Ht Hi).
  destruct (checkAll_shape d now tokenId o Ho) as (pr & _ & _ & Hp & _).
  assert (Hk : List.NoDup (JsMap.keys (marketPairs d))).
  { rewrite Hd. apply keys_registered_tokens. constructor. }
  assert (Hin : In (tokenId, pr) (marketPairs d))
    by (apply JsMapFacts.get_In; exact Hp).
  assert (Hpr : In pr pairs).
  { rewrite Hd, (entries_registered pairs JsMap.empty) in Hin by exact Ht.
    cbn [JsMap.empty app] in Hin. apply in_flat_map in Hin as (x & Hx & Hin).
    destruct Hin as [E|[E|[]]]; injection E as _ <-; exact Hx. }
  exists pr. split; [exact Hpr|].
  rewrite <- Ho. apply (checkAll_same_pair d now _ _ pr); [|exact Hp].
  apply JsMapFacts.In_get_NoDup; [exact Hk|].
  rewrite Hd, (entries_registered pairs JsMap.empty) by exact Ht.
  cbn [JsMap.empty app]. apply in_flat_map. exists pr.
  split; [exact Hpr|left; reflexivity].
Qed.

(** X19.  An update and the full scan agree: when the registered pairs
    have tokens that are all different and market ids that are all
    different, the opportunity an update returns, by the snapshot path
    or by the streaming path, is among those [scanAllMarkets] returns on
    the detector right after the update. *)
Theorem update_agrees_with_scan (d0 : ArbitrageDetector)
    (pairs : list MarketPair) (prices : gmap string TokenPrice) (now : Z) :
  List.NoDup (flat_map (fun pr => [yesTokenId pr; noTokenId pr]) pairs) ->
  List.NoDup (map (fun pr => id (Types.market pr)) pairs) ->
  (forall tokenId book o,
     snd (updateFromOrderBook (withPrices (setMarketPairs d0 pairs) prices)
            now tokenId book) = Some o ->
     In o (scanAllMarkets
             (fst (updateFromOrderBook
                     (withPrices (setMarketPairs d0 pairs) prices)
                     now tokenId book)) now))
  /\ (forall update o,
        snd (updateFromWebSocket (withPrices (setMarketPairs d0 pairs) prices)
               now update) = Some o ->
        In o (scanAllMarkets
                (fst (updateFromWebSocket
                        (withPrices (setMarketPairs d0 pairs) prices)
                        now update)) now)).
Proof.
  intros Ht Hi. split.
  - intros t book o Ho. rewrite ArbFacts.updateFromOrderBook_evaluates in Ho.
    eapply registered_token_is_scanned; [reflexivity|exact Ht|exact Hi|exact Ho].
  - intros u o Ho. rewrite ArbFacts.updateFromWebSocket_evaluates in Ho.
    eapply registered_token_is_scanned; [reflexivity|exact Ht|exact Hi|exact Ho].
Qed.

Lemma update_agrees_with_scan_witness :
  (forall tokenId book o,
     snd (updateFromOrderBook
            (withPrices (setMarketPairs (create Sample.conf)
                           [Sample.binary; Sample.other])
               (tokenPrices Sample.twoMarkets))
            0 tokenId book) = Some o ->
     In o (scanAllMarkets
             (fst (updateFromOrderBook
                     (withPrices (setMarketPairs (create Sample.conf)
                                    [Sample.binary; Sample.other])
                        (tokenPrices Sample.twoMarkets))
                     0 tokenId book)) 0))
  /\ (forall update o,
        snd (updateFromWebSocket
               (withPrices (setMarketPairs (create Sample.conf)
                              [Sample.binary; Sample.other])
                  (tokenPrices Sample.twoMarkets))
               0 update) = Some o ->
        In o (scanAllMarkets
                (fst (updateFromWebSocket
                        (withPrices (setMarketPairs (create Sample.conf)
                                       [Sample.binary; Sample.other])
                           (tokenPrices Sample.twoMarkets))
                        0 update)) 0)).
Proof.
  apply (update_agrees_with_scan (create Sample.conf)
           [Sample.binary; Sample.other] (tokenPrices Sample.twoMarkets) 0).
  - repeat constructor; simpl; intuition discriminate.
  - repeat constructor; simpl; intuition discriminate.
Defined.

End RegistryFacts.

(** ** The cross-market detector: what it returns, and in which order *)

Module RankingFacts.

Import JsNum Types Cross.
#[local] Open Scope float_scope.

Lemma sizeOrDefault_pos (p : option TokenPrice) :
  (0 <? sizeOrDefault p) = true.
Proof.
  unfold sizeOrDefault.
  destruct (0 <? default 0 (p ≫= bestAskSize)) eqn:E; [exact E|reflexivity].
Qed.

(** The threshold is the only part of the detector's own state the
    evaluation of a pair reads besides the prices. *)
Lemma checkPair_threshold (d : CrossMarketDetector) (now : Z)
    (a b : MarketInfo) (o : CrossMarketOpportunity) :
  checkPairForArbitrage d now a b = Some o ->
  negb (longRefPrice o =? shortRefPrice o) && (maxProfit o <? minProfit d)
  = false
  /\ maxShares o
     = plan_maxShares
         (zonePlan (tokenPrices d) (longOf a b) (shortOf a b)
            (longRefPrice o) (shortRefPrice o))
  /\ forall m,
       checkPairForArbitrage (withMinProfit d m) now a b
       = if negb (longRefPrice o =? shortRefPrice o) && (maxProfit o <? m)
         then None else Some o.
Proof.
  intros H. unfold checkPairForArbitrage in *.
  cbn [withMinProfit tokenPrices minProfit].
  destruct (referencePrice (longOf a b)) as [lr|]; [|discriminate].
  destruct (referencePrice (shortOf a b)) as [sr|]; [|discriminate].
  destruct (negb (truthy lr) || negb (truthy sr)); [discriminate|].
  cbv zeta in *.
  destruct (negb (plan_hasBothPrices _)); [discriminate|].
  destruct (negb (lr =? sr) && _) eqn:E; [discriminate|].
  injection H as <-.
  cbn [longRefPrice shortRefPrice maxProfit maxShares].
  split; [exact E|]. split; [reflexivity|]. intros m. reflexivity.
Qed.

(** An opportunity costs something, so its profit is a number. *)
Lemma checkPair_cost (d : CrossMarketDetector) (now : Z)
    (info1 info2 : MarketInfo) (opp : CrossMarketOpportunity) :
  checkPairForArbitrage d now info1 info2 = Some opp ->
  (0 <? entryCost opp) = true /\ isNaN (maxProfit opp) = false.
Proof.
  intros H.
  destruct (CrossFacts.checkPair_Some_inv d now info1 info2 opp H)
    as (_ & _ & _ & _ & Hboth & _ & _ & _ & Hcost & Hmax & _).
  assert (Hc : (0 <? entryCost opp) = true).
  { rewrite Hcost. revert Hboth. unfold zonePlan.
    destruct (longRefPrice opp =? shortRefPrice opp);
      [|destruct (shortRefPrice opp <? longRefPrice opp)];
      cbn [plan_hasBothPrices plan_entryCost]; intros Hb;
      apply andb_true_iff in Hb as [H1 H2];
      apply JsOrderFacts.add_pos_pos; assumption. }
  split; [exact Hc|].
  rewrite Hmax.
  destruct (JsNumFacts.ltb_not_nan _ _ Hc) as [_ Nc].
  destruct (longRefPrice opp =? shortRefPrice opp).
  - apply JsOrderFacts.opp_not_nan. exact Nc.
  - apply JsOrderFacts.two_sub_not_nan. exact Nc.
Qed.

(** X20.  Every cross-market opportunity is well formed: its profit zone
    is not inverted ([profitZoneLow <= profitZoneHigh]), its entry cost
    is strictly positive, its tradable size is strictly positive (1000
    stands in for a size that is missing, zero or NaN), and its maximum
    profit is a number. *)
Theorem cross_opportunity_is_well_formed (d : CrossMarketDetector) (now : Z)
    (info1 info2 : MarketInfo) (opp : CrossMarketOpportunity) :
  checkPairForArbitrage d now info1 info2 = Some opp ->
  (profitZoneLow opp <=? profitZoneHigh opp) = true
  /\ (0 <? entryCost opp) = true
  /\ (0 <? maxShares opp) = true
  /\ isNaN (maxProfit opp) = false.
Proof.
  intros H.
  destruct (checkPair_threshold d now info1 info2 opp H) as (_ & Hshares & _).
  destruct (checkPair_cost d now info1 info2 opp H) as [Hc Hm].
  destruct (CrossFacts.checkPair_Some_inv d now info1 info2 opp H)
    as (_ & _ & Tl & Ts & _ & _ & Hlow & Hhigh & _).
  pose proof (JsNumFacts.truthy_not_nan _ Tl) as Nl.
  pose proof (JsNumFacts.truthy_not_nan _ Ts) as Ns.
  unfold isNaN in Nl, Ns.
  split; [|split; [exact Hc|split; [|exact Hm]]].
  - rewrite Hlow, Hhigh. unfold zonePlan.
    destruct (longRefPrice opp =? shortRefPrice opp) eqn:Eid;
      [|destruct (shortRefPrice opp <? longRefPrice opp) eqn:Elt];
      cbn [plan_profitZoneLow plan_profitZoneHigh].
    + rewrite JsOrderFacts.leb_position by assumption. apply Z.leb_refl.
    + apply JsOrderFacts.ltb_leb. exact Elt.
    + apply JsOrderFacts.ltb_leb_false; assumption.
  - rewrite Hshares. unfold zonePlan.
    destruct (longRefPrice opp =? shortRefPrice opp);
      [|destruct (shortRefPrice opp <? longRefPrice opp)];
      cbn [plan_maxShares];
      apply JsOrderFacts.Math_min_pos; apply sizeOrDefault_pos.
Qed.

Lemma cross_opportunity_is_well_formed_witness :
  exists opp,
    checkPairForArbitrage Sample.crossQuoted 0
      (Sample.hourly 100000) (Sample.quarter 99000) = Some opp
    /\ (profitZoneLow opp <=? profitZoneHigh opp) = true
    /\ (0 <? entryCost opp) = true
    /\ (0 <? maxShares opp) = true
    /\ isNaN (maxProfit opp) = false.
Proof.
  eexists. split; [reflexivity|].
  apply (cross_opportunity_is_well_formed Sample.crossQuoted 0
           (Sample.hourly 100000) (Sample.quarter 99000)).
  reflexivity.
Defined.

Lemma scanned_maxProfit_not_nan (d : CrossMarketDetector) (now : Z)
    (pairs : list (MarketInfo * MarketInfo)) (o : CrossMarketOpportunity) :
  In o (omap (fun '(info1, info2) => checkPairForArbitrage d now info1 info2)
          pairs) ->
  isNaN (maxProfit o) = false.
Proof.
  intros H. apply SetFacts.omap_In in H as ([a b] & _ & H).
  apply (checkPair_cost d now a b o H).
Qed.

Lemma scan_sorted (d : CrossMarketDetector) (now : Z) :
  StronglySorted (fun a b => (maxProfit b <=? maxProfit a) = true)
    (scanAllCrossMarkets d now).
Proof.
  unfold scanAllCrossMarkets. apply SortFacts.sort_descending.
  intros o. apply scanned_maxProfit_not_nan.
Qed.

Lemma scan_not_nan (d : CrossMarketDetector) (now : Z)
    (o : CrossMarketOpportunity) :
  In o (scanAllCrossMarkets d now) -> isNaN (maxProfit o) = false.
Proof.
  unfold scanAllCrossMarkets. rewrite JsArrayFacts.In_sort.
  apply scanned_maxProfit_not_nan.
Qed.

(** X21.  [scanAllCrossMarkets] and [findAllCrossMarketOpportunities]
    return their opportunities in descending order of maximum profit,
    for every state of the detector; and [findBestCrossMarketNearMiss]
    is [null] exactly when the latter finds nothing, and otherwise one of
    its opportunities with the greatest maximum profit. *)
Theorem cross_scan_is_sorted_by_profit (d : CrossMarketDetector) (now : Z) :
  StronglySorted (fun a b => (maxProfit b <=? maxProfit a) = true)
    (scanAllCrossMarkets d now)
  /\ StronglySorted (fun a b => (maxProfit b <=? maxProfit a) = true)
       (findAllCrossMarketOpportunities d now)
  /\ (findBestCrossMarketNearMiss d now = None
      <-> findAllCrossMarketOpportunities d now = [])
  /\ (forall best,
        findBestCrossMarketNearMiss d now = Some best ->
        In best (findAllCrossMarketOpportunities d now)
        /\ forall o, In o (findAllCrossMarketOpportunities d now) ->
             (maxProfit o <=? maxProfit best) = true).
Proof.
  split; [apply scan_sorted|]. split; [apply scan_sorted|].
  unfold findBestCrossMarketNearMiss.
  pose proof (scan_sorted (withMinProfit d (-2)) now) as Hs.
  pose proof (scan_not_nan (withMinProfit d (-2)) now) as Hn.
  fold (findAllCrossMarketOpportunities d now) in Hs, Hn.
  destruct (findAllCrossMarketOpportunities d now) as [|x l]; cbn [head].
  - split; [tauto|]. intros best Hb. discriminate.
  - split; [split; discriminate|].
    intros best Hb. injection Hb as ->.
    split; [left; reflexivity|].
    intros o [<-|Ho].
    + rewrite JsOrderFacts.leb_position
        by (apply Hn; left; reflexivity).
      apply Z.leb_refl.
    + exact (SortFacts.StronglySorted_head _ _ _ Hs o Ho).
Qed.

(** X22.  On a price update the detector returns the best pair of the
    updated market: the opportunity returned is the evaluation of the
    updated market with one of its candidates, and no candidate gives an
    opportunity of greater maximum profit; the result is [null] only
    when the token belongs to no registered market or no candidate gives
    an opportunity. *)
Theorem update_returns_the_best_pair (d : CrossMarketDetector) (now : Z)
    (tokenId : string) :
  (forall best,
     checkCrossMarketOpportunities d now tokenId = Some best ->
     exists updatedInfo otherInfo,
       findUpdatedInfo d tokenId = Some updatedInfo
       /\ In otherInfo (candidatesFor d updatedInfo)
       /\ checkPairForArbitrage d now updatedInfo otherInfo = Some best
       /\ forall otherInfo' o,
            In otherInfo' (candidatesFor d updatedInfo) ->
            checkPairForArbitrage d now updatedInfo otherInfo' = Some o ->
            (maxProfit o <=? maxProfit best) = true)
  /\ (checkCrossMarketOpportunities d now tokenId = None ->
      forall updatedInfo,
        findUpdatedInfo d tokenId = Some updatedInfo ->
        forall otherInfo,
          In otherInfo (candidatesFor d updatedInfo) ->
          checkPairForArbitrage d now updatedInfo otherInfo = None).
Proof.
  unfold checkCrossMarketOpportunities.
  destruct (findUpdatedInfo d tokenId) as [u|].
  2:{ split; [discriminate|]. intros _ updatedInfo Hu. discriminate. }
  set (L := omap (fun otherInfo => checkPairForArbitrage d now u otherInfo)
              (candidatesFor d u)).
  assert (Hn : forall o, In o L -> isNaN (maxProfit o) = false).
  { intros o Ho. apply SetFacts.omap_In in Ho as (c & _ & Ho).
    apply (checkPair_cost d now u c o Ho). }
  pose proof (SortFacts.sort_descending maxProfit L Hn) as Hs.
  assert (Hin : forall o,
            In o (JsArray.sort (fun a b => maxProfit b - maxProfit a) L)
            <-> In o L) by (intros o; apply JsArrayFacts.In_sort).
  destruct (JsArray.sort (fun a b => maxProfit b - maxProfit a) L)
    as [|x l] eqn:E; cbn [head].
  - split; [discriminate|]. intros _ updatedInfo Hu other Hc.
    injection Hu as <-.
    destruct (checkPairForArbitrage d now u other) as [o|] eqn:Eo;
      [|reflexivity].
    exfalso. apply (proj2 (Hin o)). apply SetFacts.omap_In. exists other. auto.
  - split; [|discriminate].
    intros best Hb. injection Hb as ->.
    assert (Hbest : In best L) by (apply Hin; left; reflexivity).
    apply SetFacts.omap_In in Hbest as (c & Hc & Hbest).
    exists u, c. repeat split; auto.
    intros c' o Hc' Ho.
    assert (Ho' : In o (best :: l))
      by (apply Hin, SetFacts.omap_In; exists c'; auto).
    destruct Ho' as [<-|Ho'].
    + rewrite JsOrderFacts.leb_position
        by (apply Hn, Hin; left; reflexivity).
      apply Z.leb_refl.
    + exact (SortFacts.StronglySorted_head _ _ _ Hs o Ho').
Qed.

(** X23.  When the configured threshold is at least [-2.0], the listing
    of near misses contains every opportunity of the scan:
    [findAllCrossMarketOpportunities] returns all that
    [scanAllCrossMarkets] returns. *)
Theorem near_misses_include_the_scan (d : CrossMarketDetector) (now : Z)
    (o : CrossMarketOpportunity) :
  (-2 <=? minProfit d) = true ->
  In o (scanAllCrossMarkets d now) ->
  In o (findAllCrossMarketOpportunities d now).
Proof.
  intros Hm. unfold findAllCrossMarketOpportunities, scanAllCrossMarkets.
  rewrite !JsArrayFacts.In_sort, !SetFacts.omap_In.
  intros ([a b] & Hin & Ho). exists (a, b). split; [exact Hin|].
  destruct (checkPair_threshold d now a b o Ho) as (Hthr & _ & Hany).
  rewrite Hany.
  destruct (longRefPrice o =? shortRefPrice o); [reflexivity|].
  cbn [negb andb] in *.
  pose proof (checkPair_cost d now a b o Ho) as [_ No].
  destruct (JsNumFacts.leb_not_nan _ _ Hm) as [N2 Nm].
  unfold isNaN in *.
  rewrite JsOrderFacts.ltb_position in Hthr by assumption.
  rewrite JsOrderFacts.leb_position in Hm by assumption.
  assert (E : (maxProfit o <? -2) = false).
  { rewrite JsOrderFacts.ltb_position by assumption.
    apply Z.ltb_ge. apply Z.ltb_ge in Hthr. apply Z.leb_le in Hm. lia. }
  rewrite E. reflexivity.
Qed.

Lemma near_misses_include_the_scan_witness :
  exists o,
    In o (scanAllCrossMarkets Sample.live 0)
    /\ In o (findAllCrossMarketOpportunities Sample.live 0).
Proof.
  destruct (scanAllCrossMarkets Sample.live 0) as [|o l] eqn:E;
    [vm_compute in E; discriminate|].
  exists o. split; [left; reflexivity|].
  apply (near_misses_include_the_scan Sample.live 0 o); [reflexivity|].
  rewrite E. left. reflexivity.
Defined.

Lemma scanPairsLoop_once (cands : list (MarketInfo * MarketInfo))
    (checkedPairs : gset string) :
  List.NoDup
    (map (fun '(info1, info2) => pairKey info1 info2)
       (scanPairsLoop cands checkedPairs))
  /\ forall info1 info2,
       In (info1, info2) (scanPairsLoop cands checkedPairs) ->
       pairKey info1 info2 ∉ checkedPairs.
Proof.
  revert checkedPairs.
  induction cands as [|[a b] rest IH]; intros checked.
  - simpl. split; [constructor|intros ? ? []].
  - cbn [scanPairsLoop].
    destruct (interval_eqb (interval a) (interval b)); [apply IH|].
    destruct (bool_decide (pairKey a b ∈ checked)) eqn:Ed; [apply IH|].
    apply bool_decide_eq_false in Ed.
    destruct (IH ({[ pairKey a b ]} ∪ checked)) as [IH1 IH2].
    split.
    + cbn [map]. constructor; [|exact IH1].
      rewrite in_map_iff. intros ([a' b'] & Ek & Hin).
      apply IH2 in Hin. apply SetFacts.not_in_added in Hin as [Hin _]. congruence.
    + intros i1 i2 [E|Hin].
      * injection E as <- <-. exact Ed.
      * apply IH2 in Hin. apply SetFacts.not_in_added in Hin as [_ Hin]. exact Hin.
Qed.

(** X24.  The full scan evaluates a pair of markets at most once: among
    the pairs it hands to [checkPairForArbitrage] no two have the same
    key [[slug1, slug2].sort().join('|')], so no two are the same two
    markets in either order. *)
Theorem scan_evaluates_each_pair_once (d : CrossMarketDetector) :
  List.NoDup
    (map (fun '(info1, info2) => pairKey info1 info2) (scanPairs d))
  /\ forall info1 info2,
       In (info1, info2) (scanPairs d) ->
       slug (market info1) <> slug (market info2) ->
       ~ In (info2, info1) (scanPairs d).
Proof.
  destruct (scanPairsLoop_once (bucketPairs d) ∅) as [Hn _].
  fold (scanPairs d) in Hn. split; [exact Hn|].
  intros a b Hab Hne Hba.
  assert (Hk : pairKey a b = pairKey b a) by apply DiscoveryFacts.pairKey_sym.
  revert Hn Hab Hba Hk. generalize (scanPairs d) as l.
  induction l as [|[x y] l IH]; intros Hn Hab Hba Hk; [destruct Hab|].
  cbn [map] in Hn. apply NoDup_cons_iff in Hn as [Hx Hn].
  destruct Hab as [Eab|Hab], Hba as [Eba|Hba].
  - injection Eab as -> ->. injection Eba as Eb Ea. subst. congruence.
  - injection Eab as -> ->. apply Hx. rewrite Hk.
    apply (in_map (fun '(i1, i2) => pairKey i1 i2) l (b, a)). exact Hba.
  - injection Eba as -> ->. apply Hx. rewrite <- Hk.
    apply (in_map (fun '(i1, i2) => pairKey i1 i2) l (a, b)). exact Hab.
  - exact (IH Hn Hab Hba Hk).
Qed.

End RankingFacts.

(** ** [loadReferencePrices]: what a call leaves behind *)

Module LoadingFacts.

Import JsNum Types Cross.

Lemma fetchMissing_nothing_missing
    (fetch : string -> BTCMarketInterval -> Z -> option number)
    (infos : list (string * MarketInfo)) (cache : gmap string number) :
  missingCount infos = 0%nat -> fetchMissing fetch infos cache = (infos, cache).
Proof.
  unfold missingCount, JsMap.values.
  induction infos as [|[s mi] rest IH]; intros H; [reflexivity|].
  cbn [fetchMissing map snd List.filter] in *.
  destruct (referencePrice mi); [|discriminate].
  rewrite (IH H). reflexivity.
Qed.

Lemma fetchMissing_fst
    (fetch : string -> BTCMarketInterval -> Z -> option number)
    (infos : list (string * MarketInfo)) (cache : gmap string number) :
  fst (fetchMissing fetch infos cache)
  = map (fun '(slug, marketInfo) =>
           (slug,
            match referencePrice marketInfo with
            | Some _ => marketInfo
            | None =>
                match fetch (asset marketInfo) (interval marketInfo)
                        (resolutionTimestamp marketInfo * 1000) with
                | Some openPrice =>
                    withReferencePrice marketInfo (Some openPrice)
                | None => marketInfo
                end
            end)) infos.
Proof.
  revert cache. induction infos as [|[s mi] rest IH]; intros cache;
    [reflexivity|].
  cbn [fetchMissing map].
  destruct (referencePrice mi).
  - specialize (IH cache). destruct (fetchMissing fetch rest cache).
    cbn [fst] in *. rewrite IH. reflexivity.
  - destruct (fetch (asset mi) (interval mi) (resolutionTimestamp mi * 1000))
      as [openPrice|].
    + specialize (IH (<[s := openPrice]> cache)).
      destruct (fetchMissing fetch rest (<[s := openPrice]> cache)).
      cbn [fst] in *. rewrite IH. reflexivity.
    + specialize (IH cache). destruct (fetchMissing fetch rest cache).
      cbn [fst] in *. rewrite IH. reflexivity.
Qed.

Lemma loadReferencePrices_unfolded (d : CrossMarketDetector) (force : bool)
    (fetch : string -> BTCMarketInterval -> Z -> option number) :
  loadReferencePrices d force fetch
  = {| tokenPrices := tokenPrices d;
       marketInfos :=
         fst (fetchMissing fetch
                (restoreFromCache (refPriceCache d) (marketInfos d))
                (refPriceCache d));
       minProfit := minProfit d;
       pricesLoaded := true;
       refPriceCache :=
         snd (fetchMissing fetch
                (restoreFromCache (refPriceCache d) (marketInfos d))
                (refPriceCache d)) |}.
Proof.
  unfold loadReferencePrices.
  destruct (pricesLoaded d
            && Nat.eqb
                 (missingCount
                    (restoreFromCache (refPriceCache d) (marketInfos d))) 0
            && negb force) eqn:E.
  - apply andb_true_iff in E as [E _]. apply andb_true_iff in E as [El Em].
    apply Nat.eqb_eq in Em.
    rewrite (fetchMissing_nothing_missing fetch _ _ Em). cbn [fst snd].
    rewrite El. reflexivity.
  - destruct (fetchMissing fetch
                (restoreFromCache (refPriceCache d) (marketInfos d))
                (refPriceCache d)). reflexivity.
Qed.

(** X25.  [loadReferencePrices] treats each registered market on its own:
    a market that has a reference price keeps it; one that has none takes
    the price cached for its slug, or else what the price source answers
    for its asset, interval and resolution time, or else stays without.
    The detector counts as loaded afterwards, prices and threshold are
    untouched, and the flag [force] has no influence on any of this. *)
Theorem load_fills_each_market_alone (d : CrossMarketDetector) (force : bool)
    (fetch : string -> BTCMarketInterval -> Z -> option number) :
  marketInfos (loadReferencePrices d force fetch)
  = map (fun '(slug, marketInfo) =>
           (slug,
            match referencePrice marketInfo with
            | Some _ => marketInfo
            | None =>
                match refPriceCache d !! slug with
                | Some cachedPrice =>
                    withReferencePrice marketInfo (Some cachedPrice)
                | None =>
                    match fetch (asset marketInfo) (interval marketInfo)
                            (resolutionTimestamp marketInfo * 1000) with
                    | Some openPrice =>
                        withReferencePrice marketInfo (Some openPrice)
                    | None => marketInfo
                    end
                end
            end)) (marketInfos d)
  /\ pricesLoaded (loadReferencePrices d force fetch) = true
  /\ tokenPrices (loadReferencePrices d force fetch) = tokenPrices d
  /\ minProfit (loadReferencePrices d force fetch) = minProfit d
  /\ loadReferencePrices d force fetch = loadReferencePrices d (negb force) fetch.
Proof.
  rewrite !loadReferencePrices_unfolded. cbn [marketInfos pricesLoaded
    tokenPrices minProfit].
  repeat split.
  rewrite fetchMissing_fst. unfold restoreFromCache. rewrite map_map.
  apply map_ext. intros [s mi].
  destruct (referencePrice mi) eqn:E.
  - rewrite E. reflexivity.
  - destruct (refPriceCache d !! s).
    + reflexivity.
    + rewrite E. reflexivity.
Qed.

End LoadingFacts.
